(** * The Limon restaurant backend: catalogue, settings and the data version

    A shallow embedding of [server.py].  The handlers are FastAPI coroutines
    that talk to a MongoDB database through pymongo; here the database is an
    explicit state, every handler is a function from a database to an outcome
    and a database, and an exception leaves the database as it was when the
    exception was raised (nothing is rolled back, as in the source).

    Conventions of the model:
    - a Python [dict] is a finite map from field names to values; a [str] is
      the sequence of the bytes of its UTF-8 text;
    - a stored document is its [_id] together with its other fields (MongoDB
      gives every document an [_id]; every insert of the source leaves its
      generation to the driver, so it is an ObjectId);
    - a collection is the list of its documents in insertion order;
    - integers are mathematical integers, and pymongo refuses to encode one
      that does not fit 8 bytes; a [float] is an IEEE-754 binary64 value; a
      [datetime] is a number of microseconds since the epoch, of which BSON
      keeps the milliseconds;
    - the clock reading and the ObjectId that the driver generates for an
      insert are inputs of the handler that uses them;
    - the server is taken to be a MongoDB that stores any field name without
      a NUL byte, and the documents to stay below its size limit. *)

From Stdlib Require Import ZArith String Ascii List Bool Lia.
From Stdlib Require Import Sorting.Sorted Sorting.Permutation.
From Stdlib Require Import Floats.SpecFloat.
From stdpp Require Import base option list gmap strings.

Local Open Scope Z_scope.
Local Open Scope string_scope.

(** ** Exceptions

    [HTTPException] is what the handlers raise themselves; the other errors
    are exceptions of Python, bson, pymongo and FastAPI that no handler
    catches. *)

Inductive error :=
| HTTPException (status_code : Z) (detail : string)
| InvalidId
| KeyError (key : string)
| TypeError
| AttributeError
| ValueError
| OverflowError
| InvalidDocument
| DuplicateKeyError
| WriteError.

(** ** BSON values *)

Module Bson.

(** An ObjectId is kept as the lower-case hexadecimal text of its bytes,
    which is what [str(oid)] prints: 24 digits for the 12 bytes of an
    identifier that the driver generates. *)
Record ObjectId_t := Oid { oid_hex : string }.

Definition is_hex_digit (c : ascii) : bool :=
  let n := nat_of_ascii c in
  ((48 <=? n) && (n <=? 57) || (65 <=? n) && (n <=? 70) || (97 <=? n) && (n <=? 102))%nat.

Definition lower_hex (c : ascii) : ascii :=
  let n := nat_of_ascii c in
  if ((65 <=? n) && (n <=? 70))%nat then ascii_of_nat (n + 32) else c.

(** ASCII whitespace, as [bytes.fromhex] skips it. *)
Definition is_space (c : ascii) : bool :=
  let n := nat_of_ascii c in
  ((9 <=? n) && (n <=? 13) || (n =? 32))%nat.

(** [bytes.fromhex], its result printed as hex text again: whitespace is
    skipped between bytes, and the two digits of a byte stand together. *)
Fixpoint fromhex (cs : list ascii) : option (list ascii) :=
  match cs with
  | [] => Some []
  | c :: r =>
      if is_space c then fromhex r
      else if is_hex_digit c then
        match r with
        | d :: r' =>
            if is_hex_digit d
            then option_map (fun t => lower_hex c :: lower_hex d :: t) (fromhex r')
            else None
        | [] => None
        end
      else None
  end.

(** [ObjectId(s)] for a string: [None] stands for [bson.errors.InvalidId],
    raised unless [s] has 24 characters that [bytes.fromhex] accepts.  A text
    with whitespace in it is accepted and gives fewer than 12 bytes. *)
Definition ObjectId (s : string) : option ObjectId_t :=
  let cs := list_ascii_of_string s in
  if Nat.eqb (List.length cs) 24
  then option_map (fun h => Oid (string_of_list_ascii h)) (fromhex cs)
  else None.

Definition str_of_oid (o : ObjectId_t) : string := oid_hex o.

#[local] Set Warnings "-register-all".

(** JSON as a request body carries it; only the [items] of an order and the
    entries of a reorder request are of this kind. *)
Inductive json :=
| JNull
| JBool (b : bool)
| JInt (z : Z)
| JFloat (f : spec_float)
| JStr (s : string)
| JArr (l : list json)
| JObj (l : list (string * json)).

Inductive value :=
| VNull
| VBool (b : bool)
| VInt (z : Z)
| VFloat (f : spec_float)
| VStr (s : string)
| VArr (l : list json)               (* an embedded array *)
| VObj (l : list (string * json))    (* an embedded document *)
| VDate (t : Z)
| VOid (o : ObjectId_t).

Definition value_of_json (j : json) : value :=
  match j with
  | JNull => VNull
  | JBool b => VBool b
  | JInt z => VInt z
  | JFloat f => VFloat f
  | JStr s => VStr s
  | JArr l => VArr l
  | JObj l => VObj l
  end.

(** Python truthiness, as used by [not x] and [if x:]. *)
Definition truthy (v : value) : bool :=
  match v with
  | VNull => false
  | VBool b => b
  | VInt z => negb (Z.eqb z 0)
  | VFloat (S754_zero _) => false
  | VFloat _ => true
  | VStr s => negb (String.eqb s "")
  | VArr [] | VObj [] => false
  | VArr _ | VObj _ => true
  | VDate _ => true
  | VOid _ => true
  end.

(** *** What pymongo encodes, and what is read back

    An integer outside 8 bytes makes the encoder raise [OverflowError], a
    field name with a NUL byte [InvalidDocument]; both happen before anything
    is sent to the server.  The fields of an embedded document are encoded in
    their order, the name before the value, and the first failure is the one
    raised. *)

Definition int64 (z : Z) : bool := ((- 2 ^ 63 <=? z) && (z <? 2 ^ 63))%Z.

Definition has_nul (s : string) : bool :=
  existsb (fun c => Ascii.eqb c Ascii.zero) (list_ascii_of_string s).

Fixpoint json_encode_error (j : json) : option error :=
  match j with
  | JInt z => if int64 z then None else Some OverflowError
  | JArr l =>
      (fix go (l : list json) : option error :=
         match l with
         | [] => None
         | x :: r =>
             match json_encode_error x with
             | Some e => Some e
             | None => go r
             end
         end) l
  | JObj l =>
      (fix go (l : list (string * json)) : option error :=
         match l with
         | [] => None
         | (k, x) :: r =>
             if has_nul k then Some InvalidDocument
             else match json_encode_error x with
                  | Some e => Some e
                  | None => go r
                  end
         end) l
  | _ => None
  end.

Definition value_encode_error (v : value) : option error :=
  match v with
  | VInt z => if int64 z then None else Some OverflowError
  | VArr l => json_encode_error (JArr l)
  | VObj l => json_encode_error (JObj l)
  | _ => None
  end.

(** A BSON date keeps milliseconds: the microseconds of a [datetime] below
    that are dropped when it is stored. *)
Definition millis (t : Z) : Z := (t / 1000 * 1000)%Z.

(** A value as it is read back once stored. *)
Definition stored (v : value) : value :=
  match v with
  | VDate t => VDate (millis t)
  | _ => v
  end.

(** *** The BSON comparison order

    MongoDB orders values first by type bracket (null, numbers, strings,
    embedded documents, arrays, ObjectIds, booleans, dates) and then inside
    the bracket; integers and doubles are compared by their mathematical
    value, NaN below every other number.  Two embedded documents are
    compared field by field, in order: the brackets of the two values, then
    the two names, then the two values, a proper prefix being the smaller;
    two arrays element by element in the same way. *)

Inductive num :=
| NNaN
| NInf (neg : bool)
| NFin (m e : Z).   (* m * 2^e *)

Definition num_of_float (f : spec_float) : num :=
  match f with
  | S754_zero _ => NFin 0 0
  | S754_infinity s => NInf s
  | S754_nan => NNaN
  | S754_finite s m e => NFin (if s then Z.neg m else Z.pos m) e
  end.

Definition num_cmp (a b : num) : comparison :=
  match a, b with
  | NNaN, NNaN => Eq
  | NNaN, _ => Lt
  | _, NNaN => Gt
  | NInf true, NInf true => Eq
  | NInf true, _ => Lt
  | _, NInf true => Gt
  | NInf false, NInf false => Eq
  | NInf false, _ => Gt
  | _, NInf false => Lt
  | NFin m1 e1, NFin m2 e2 =>
      let e := Z.min e1 e2 in
      Z.compare (m1 * Z.pow 2 (e1 - e)) (m2 * Z.pow 2 (e2 - e))
  end.

Definition bool_cmp (a b : bool) : comparison :=
  match a, b with
  | false, true => Lt
  | true, false => Gt
  | _, _ => Eq
  end.

Definition jbracket (j : json) : nat :=
  match j with
  | JNull => 0
  | JInt _ | JFloat _ => 1
  | JStr _ => 2
  | JObj _ => 3
  | JArr _ => 4
  | JBool _ => 6
  end.

Fixpoint json_cmp (j k : json) {struct j} : comparison :=
  match j, k with
  | JInt x, JInt y => Z.compare x y
  | JInt x, JFloat g => num_cmp (NFin x 0) (num_of_float g)
  | JFloat f, JInt y => num_cmp (num_of_float f) (NFin y 0)
  | JFloat f, JFloat g => num_cmp (num_of_float f) (num_of_float g)
  | JStr s, JStr t => String.compare s t
  | JBool x, JBool y => bool_cmp x y
  | JArr l, JArr m =>
      (fix go (l m : list json) {struct l} : comparison :=
         match l, m with
         | [], [] => Eq
         | [], _ :: _ => Lt
         | _ :: _, [] => Gt
         | x :: l', y :: m' =>
             match json_cmp x y with
             | Eq => go l' m'
             | c => c
             end
         end) l m
  | JObj l, JObj m =>
      (fix go (l m : list (string * json)) {struct l} : comparison :=
         match l, m with
         | [], [] => Eq
         | [], _ :: _ => Lt
         | _ :: _, [] => Gt
         | (a, x) :: l', (b, y) :: m' =>
             match Nat.compare (jbracket x) (jbracket y) with
             | Eq =>
                 match String.compare a b with
                 | Eq =>
                     match json_cmp x y with
                     | Eq => go l' m'
                     | c => c
                     end
                 | c => c
                 end
             | c => c
             end
         end) l m
  | _, _ => Nat.compare (jbracket j) (jbracket k)
  end.

Definition bracket (v : value) : nat :=
  match v with
  | VNull => 0
  | VInt _ | VFloat _ => 1
  | VStr _ => 2
  | VObj _ => 3
  | VArr _ => 4
  | VOid _ => 5
  | VBool _ => 6
  | VDate _ => 7
  end.

Definition bson_cmp (a b : value) : comparison :=
  match a, b with
  | VInt x, VInt y => Z.compare x y
  | VInt x, VFloat g => num_cmp (NFin x 0) (num_of_float g)
  | VFloat f, VInt y => num_cmp (num_of_float f) (NFin y 0)
  | VFloat f, VFloat g => num_cmp (num_of_float f) (num_of_float g)
  | VStr s, VStr t => String.compare s t
  | VArr l, VArr m => json_cmp (JArr l) (JArr m)
  | VObj l, VObj m => json_cmp (JObj l) (JObj m)
  | VOid o, VOid p => String.compare (oid_hex o) (oid_hex p)
  | VBool x, VBool y => bool_cmp x y
  | VDate s, VDate t => Z.compare s t
  | _, _ => Nat.compare (bracket a) (bracket b)
  end.

Definition bson_leb (a b : value) : bool :=
  match bson_cmp a b with Gt => false | _ => true end.

Definition bson_eqb (a b : value) : bool :=
  match bson_cmp a b with Eq => true | _ => false end.

(** The least and the greatest element of an array that starts with [j]. *)
Definition json_min (j : json) (l : list json) : json :=
  fold_left (fun a x => match json_cmp x a with Lt => x | _ => a end) l j.

Definition json_max (j : json) (l : list json) : json :=
  fold_left (fun a x => match json_cmp x a with Gt => x | _ => a end) l j.

(** The double 1.0 and [x + 1.0] in binary64. *)
Definition float_one : spec_float := S754_finite false 4503599627370496 (-52).
Definition float_succ (f : spec_float) : spec_float := SFadd 53 1024 f float_one.

End Bson.
Export Bson.

(** ** Dictionaries, documents, collections *)

Abbreviation dict := (gmap string value).

Record Document := Doc { doc_id : ObjectId_t; doc_fields : dict }.

(** [doc[k]] as a query or a sort sees it: [_id] is a field like the others. *)
Definition get_field (d : Document) (k : string) : option value :=
  if String.eqb k "_id" then Some (VOid (doc_id d)) else doc_fields d !! k.

(** The [dict] that [find]/[find_one] hand to Python. *)
Definition to_dict (d : Document) : dict := <["_id" := VOid (doc_id d)]> (doc_fields d).

Abbreviation collection := (list Document).

(** ** Outcomes *)

Inductive result (A : Type) :=
| Ok (a : A)
| Raise (e : error).
Arguments Ok {A} a.
Arguments Raise {A} e.

(** ** The database and the handler monad *)

Record DB := MkDB {
  admins : collection;
  categories : collection;
  menu_items : collection;
  settings : collection;
  orders : collection;
  contact_messages : collection;
  notifications : collection
}.

Definition empty_db : DB := MkDB [] [] [] [] [] [] [].

(** The names under which the source reaches the collections ([db.settings],
    [db.menu_items], ...). *)
Inductive coll_name :=
| c_admins | c_categories | c_menu_items | c_settings
| c_orders | c_contact_messages | c_notifications.

Definition get_coll (c : coll_name) (db : DB) : collection :=
  match c with
  | c_admins => admins db
  | c_categories => categories db
  | c_menu_items => menu_items db
  | c_settings => settings db
  | c_orders => orders db
  | c_contact_messages => contact_messages db
  | c_notifications => notifications db
  end.

Definition set_coll (c : coll_name) (l : collection) (db : DB) : DB :=
  match c with
  | c_admins => MkDB l (categories db) (menu_items db) (settings db) (orders db) (contact_messages db) (notifications db)
  | c_categories => MkDB (admins db) l (menu_items db) (settings db) (orders db) (contact_messages db) (notifications db)
  | c_menu_items => MkDB (admins db) (categories db) l (settings db) (orders db) (contact_messages db) (notifications db)
  | c_settings => MkDB (admins db) (categories db) (menu_items db) l (orders db) (contact_messages db) (notifications db)
  | c_orders => MkDB (admins db) (categories db) (menu_items db) (settings db) l (contact_messages db) (notifications db)
  | c_contact_messages => MkDB (admins db) (categories db) (menu_items db) (settings db) (orders db) l (notifications db)
  | c_notifications => MkDB (admins db) (categories db) (menu_items db) (settings db) (orders db) (contact_messages db) l
  end.

(** A handler: it reads and writes the database and returns or raises.  The
    database that comes out of a raise is the one reached when it was raised. *)
Definition M (A : Type) : Type := DB -> result A * DB.

Definition ret {A} (a : A) : M A := fun db => (Ok a, db).
Definition raise {A} (e : error) : M A := fun db => (Raise e, db).
Definition bind {A B} (m : M A) (k : A -> M B) : M B :=
  fun db =>
    match m db with
    | (Ok a, db') => k a db'
    | (Raise e, db') => (Raise e, db')
    end.

Notation "x <- m ;; k" := (bind m (fun x => k))
  (at level 100, m at next level, right associativity).
Notation "m ;;; k" := (bind m (fun _ => k))
  (at level 100, right associativity).

(** ** MongoDB operations *)

Module Mongo.

Inductive cond :=
| QEq (v : value)        (* {field: v} *)
| QNe (v : value).       (* {field: {"$ne": v}} *)

Abbreviation query := (list (string * cond)).

(** Equality of a stored field with a query value; a missing field equals
    only [null].  (On a field that holds an array MongoDB also looks for the
    value among the elements; the fields that the source queries are [_id],
    [category_id], [is_published], [username] and [password], and no route
    stores an array under one of them.) *)
Definition field_eqb (o : option value) (v : value) : bool :=
  match o with
  | Some w => bson_eqb w v
  | None => bson_eqb VNull v
  end.

Definition matches (q : query) (d : Document) : bool :=
  forallb (fun kc =>
             match snd kc with
             | QEq v => field_eqb (get_field d (fst kc)) v
             | QNe v => negb (field_eqb (get_field d (fst kc)) v)
             end) q.

Definition by_id (o : ObjectId_t) : query := [("_id", QEq (VOid o))].

(** *** find, find_one, sort *)

Definition find_in (q : query) (l : collection) : collection := List.filter (matches q) l.

Definition find_one_in (q : query) (l : collection) : option Document := head (find_in q l).

(** The key of [sort(field, 1)]: a missing field sorts as [null], an array
    by its least element, and an empty array ([None] here) before everything
    else. *)
Definition sort_key (field : string) (d : Document) : option value :=
  match get_field d field with
  | None => Some VNull
  | Some (VArr []) => None
  | Some (VArr (j :: l)) => Some (value_of_json (json_min j l))
  | Some v => Some v
  end.

(** The key of [sort(field, -1)]: an array sorts by its greatest element. *)
Definition sort_key_desc (field : string) (d : Document) : option value :=
  match get_field d field with
  | None => Some VNull
  | Some (VArr []) => None
  | Some (VArr (j :: l)) => Some (value_of_json (json_max j l))
  | Some v => Some v
  end.

Definition key_leb (a b : option value) : bool :=
  match a, b with
  | None, _ => true
  | Some _, None => false
  | Some x, Some y => bson_leb x y
  end.

Fixpoint insert_by (field : string) (d : Document) (l : collection) : collection :=
  match l with
  | [] => [d]
  | x :: r =>
      if key_leb (sort_key field d) (sort_key field x)
      then d :: x :: r
      else x :: insert_by field d r
  end.

(** [cursor.sort(field, 1)]: ascending; documents with equal keys stay in
    collection order (MongoDB promises no particular order among them; the
    properties below do not depend on it). *)
Definition sort_asc (field : string) (l : collection) : collection :=
  List.fold_right (insert_by field) [] l.

(** *** Update operators *)

Inductive update_spec :=
| USet (fields : dict)             (* {"$set": fields} *)
| UInc1 (field : string).           (* {"$inc": {field: 1}} *)

(** The error, if any, of encoding a dict.  (Python encodes the fields in
    the order of their insertion, which the map has forgotten; no dict that
    the handlers store has more than one field that can fail.) *)
Definition field_encode_error (kv : string * value) : option error :=
  if has_nul (fst kv) then Some InvalidDocument else value_encode_error (snd kv).

Definition encode_error (d : dict) : option error :=
  head (omap field_encode_error (map_to_list d)).

Definition update_encode_error (u : update_spec) : option error :=
  match u with
  | USet fields => encode_error fields
  | UInc1 k => if has_nul k then Some InvalidDocument else None
  end.

(** [$set] overwrites the given fields, with the values as BSON keeps them,
    and keeps the others.  [$inc] by 1 creates a missing field with the value
    1, adds 1 to a number, and makes the write fail on any other value. *)
Definition apply_update (u : update_spec) (f : dict) : option dict :=
  match u with
  | USet fields => Some ((stored <$> fields) ∪ f)
  | UInc1 k =>
      match f !! k with
      | None => Some (<[k := VInt 1]> f)
      | Some (VInt z) => Some (<[k := VInt (z + 1)]> f)
      | Some (VFloat x) => Some (<[k := VFloat (float_succ x)]> f)
      | Some _ => None
      end
  end.

(** Replace the first document that matches; [None] when none does,
    [Some None] when the update operator fails on it. *)
Fixpoint update_first (q : query) (u : update_spec) (l : collection)
  : option (option collection) :=
  match l with
  | [] => None
  | d :: r =>
      if matches q d
      then Some (match apply_update u (doc_fields d) with
                 | Some f => Some (Doc (doc_id d) f :: r)
                 | None => None
                 end)
      else match update_first q u r with
           | Some (Some r') => Some (Some (d :: r'))
           | Some None => Some None
           | None => None
           end
  end.

Fixpoint delete_first (q : query) (l : collection) : option collection :=
  match l with
  | [] => None
  | d :: r =>
      if matches q d then Some r
      else match delete_first q r with
           | Some r' => Some (d :: r')
           | None => None
           end
  end.

Definition ids (l : collection) : list ObjectId_t := List.map doc_id l.

#[global] Instance ObjectId_eq_dec : EqDecision ObjectId_t.
Proof. solve_decision. Defined.

(** *** The calls of pymongo, on a named collection of the database *)

Definition find_one (c : coll_name) (q : query) : M (option Document) :=
  fun db => (Ok (find_one_in q (get_coll c db)), db).

(** [list(db.c.find(q).sort(field, 1))] *)
Definition find_sorted (c : coll_name) (q : query) (field : string) : M collection :=
  fun db => (Ok (sort_asc field (find_in q (get_coll c db))), db).

Definition count_documents (c : coll_name) (q : query) : M nat :=
  fun db => (Ok (List.length (find_in q (get_coll c db))), db).

(** [insert_one(d)]: the driver generates [new_id] and encodes the
    document; the unique index on [_id] rejects an identifier that is already
    stored.  Returns [inserted_id]. *)
Definition insert_one (c : coll_name) (new_id : ObjectId_t) (d : dict) : M ObjectId_t :=
  fun db =>
    match encode_error d with
    | Some err => (Raise err, db)
    | None =>
        if decide (new_id ∈ ids (get_coll c db))
        then (Raise DuplicateKeyError, db)
        else (Ok new_id, set_coll c (get_coll c db ++ [Doc new_id (stored <$> d)]) db)
    end.

(** [update_one(q, u)]; returns [matched_count]. *)
Definition update_one (c : coll_name) (q : query) (u : update_spec) : M nat :=
  fun db =>
    match update_encode_error u with
    | Some err => (Raise err, db)
    | None =>
        match update_first q u (get_coll c db) with
        | None => (Ok 0%nat, db)
        | Some None => (Raise WriteError, db)
        | Some (Some l) => (Ok 1%nat, set_coll c l db)
        end
    end.

(** [update_one] under an identifier that bson has just generated: it is
    the [_id] of no stored document. *)
Definition update_one_fresh (u : update_spec) : M nat :=
  fun db =>
    match update_encode_error u with
    | Some err => (Raise err, db)
    | None => (Ok 0%nat, db)
    end.

(** [update_one({}, u, upsert=True)]: with the empty filter the first
    document of the collection is updated; an empty collection receives a new
    document, [u] applied to no fields, under the identifier [new_id] that
    the server generates. *)
Definition update_one_upsert (c : coll_name) (u : update_spec) (new_id : ObjectId_t) : M nat :=
  fun db =>
    match update_encode_error u with
    | Some err => (Raise err, db)
    | None =>
        match update_first [] u (get_coll c db) with
        | None =>
            match apply_update u ∅ with
            | Some f => (Ok 0%nat, set_coll c (get_coll c db ++ [Doc new_id f]) db)
            | None => (Raise WriteError, db)
            end
        | Some None => (Raise WriteError, db)
        | Some (Some l) => (Ok 1%nat, set_coll c l db)
        end
    end.

(** [delete_one(q)]; returns [deleted_count]. *)
Definition delete_one (c : coll_name) (q : query) : M nat :=
  fun db =>
    match delete_first q (get_coll c db) with
    | None => (Ok 0%nat, db)
    | Some l => (Ok 1%nat, set_coll c l db)
    end.

Definition delete_many (c : coll_name) (q : query) : M unit :=
  fun db =>
    (Ok tt, set_coll c (List.filter (fun d => negb (matches q d)) (get_coll c db)) db).

End Mongo.
Export Mongo.

(** ** Request models (pydantic) and their [.dict()] *)

Definition opt_str (o : option string) : value :=
  match o with Some s => VStr s | None => VNull end.
Definition opt_int (o : option Z) : value :=
  match o with Some z => VInt z | None => VNull end.
Definition opt_bool (o : option bool) : value :=
  match o with Some b => VBool b | None => VNull end.
Definition opt_float (o : option spec_float) : value :=
  match o with Some f => VFloat f | None => VNull end.

Definition is_None (v : value) : bool :=
  match v with VNull => true | _ => false end.

(** [{k: v for k, v in d.items() if v is not None}] *)
Definition drop_None (d : dict) : dict :=
  filter (fun kv => is_None (snd kv) = false) d.

Record CategoryCreate := {
  cc_name : string;
  cc_name_ar : string;
  cc_slug : string;
  cc_image : string;
  cc_order : Z
}.

Definition CategoryCreate_dict (data : CategoryCreate) : dict :=
  list_to_map [("name", VStr (cc_name data)); ("name_ar", VStr (cc_name_ar data));
               ("slug", VStr (cc_slug data)); ("image", VStr (cc_image data));
               ("order", VInt (cc_order data))].

Record CategoryUpdate := {
  cu_name : option string;
  cu_name_ar : option string;
  cu_slug : option string;
  cu_image : option string;
  cu_order : option Z
}.

Definition CategoryUpdate_dict (data : CategoryUpdate) : dict :=
  list_to_map [("name", opt_str (cu_name data)); ("name_ar", opt_str (cu_name_ar data));
               ("slug", opt_str (cu_slug data)); ("image", opt_str (cu_image data));
               ("order", opt_int (cu_order data))].

Record MenuItemCreate := {
  mc_title : string;
  mc_title_ar : string;
  mc_description : string;
  mc_description_ar : string;
  mc_price : spec_float;
  mc_image : string;
  mc_category_id : string;
  mc_is_published : bool
}.

Definition MenuItemCreate_dict (data : MenuItemCreate) : dict :=
  list_to_map [("title", VStr (mc_title data)); ("title_ar", VStr (mc_title_ar data));
               ("description", VStr (mc_description data));
               ("description_ar", VStr (mc_description_ar data));
               ("price", VFloat (mc_price data)); ("image", VStr (mc_image data));
               ("category_id", VStr (mc_category_id data));
               ("is_published", VBool (mc_is_published data))].

Record MenuItemUpdate := {
  mu_title : option string;
  mu_title_ar : option string;
  mu_description : option string;
  mu_description_ar : option string;
  mu_price : option spec_float;
  mu_image : option string;
  mu_category_id : option string;
  mu_order : option Z;
  mu_is_published : option bool
}.

Definition MenuItemUpdate_dict (data : MenuItemUpdate) : dict :=
  list_to_map [("title", opt_str (mu_title data)); ("title_ar", opt_str (mu_title_ar data));
               ("description", opt_str (mu_description data));
               ("description_ar", opt_str (mu_description_ar data));
               ("price", opt_float (mu_price data)); ("image", opt_str (mu_image data));
               ("category_id", opt_str (mu_category_id data));
               ("order", opt_int (mu_order data));
               ("is_published", opt_bool (mu_is_published data))].

Record SettingsUpdate := {
  su_company_name : option string;
  su_company_name_ar : option string;
  su_company_subtitle : option string;
  su_company_subtitle_ar : option string;
  su_title_font : option string;
  su_subtitle_font : option string;
  su_bg_color : option string;
  su_text_color : option string;
  su_hero_video : option string;
  su_hero_image : option string;
  su_phone : option string;
  su_address : option string;
  su_address_ar : option string;
  su_opening_hours : option string;
  su_opening_hours_ar : option string;
  su_instagram : option string;
  su_google_maps : option string;
  su_about_story : option string;
  su_about_story_ar : option string;
  su_about_mission : option string;
  su_about_mission_ar : option string;
  su_about_vision : option string;
  su_about_vision_ar : option string;
  su_default_language : option string;
  su_restaurant_email : option string;
  su_enable_favorites : option bool;
  su_enable_cart : option bool;
  su_enable_menu : option bool;
  su_data_version : option Z
}.

Definition SettingsUpdate_dict (data : SettingsUpdate) : dict :=
  list_to_map
    [("company_name", opt_str (su_company_name data));
     ("company_name_ar", opt_str (su_company_name_ar data));
     ("company_subtitle", opt_str (su_company_subtitle data));
     ("company_subtitle_ar", opt_str (su_company_subtitle_ar data));
     ("title_font", opt_str (su_title_font data));
     ("subtitle_font", opt_str (su_subtitle_font data));
     ("bg_color", opt_str (su_bg_color data));
     ("text_color", opt_str (su_text_color data));
     ("hero_video", opt_str (su_hero_video data));
     ("hero_image", opt_str (su_hero_image data));
     ("phone", opt_str (su_phone data));
     ("address", opt_str (su_address data));
     ("address_ar", opt_str (su_address_ar data));
     ("opening_hours", opt_str (su_opening_hours data));
     ("opening_hours_ar", opt_str (su_opening_hours_ar data));
     ("instagram", opt_str (su_instagram data));
     ("google_maps", opt_str (su_google_maps data));
     ("about_story", opt_str (su_about_story data));
     ("about_story_ar", opt_str (su_about_story_ar data));
     ("about_mission", opt_str (su_about_mission data));
     ("about_mission_ar", opt_str (su_about_mission_ar data));
     ("about_vision", opt_str (su_about_vision data));
     ("about_vision_ar", opt_str (su_about_vision_ar data));
     ("default_language", opt_str (su_default_language data));
     ("restaurant_email", opt_str (su_restaurant_email data));
     ("enable_favorites", opt_bool (su_enable_favorites data));
     ("enable_cart", opt_bool (su_enable_cart data));
     ("enable_menu", opt_bool (su_enable_menu data));
     ("data_version", opt_int (su_data_version data))].

(** ** What a handler reads from its environment *)

Record Env := {
  utcnow : Z;                  (* datetime.utcnow(), in microseconds *)
  new_oid : ObjectId_t;        (* the _id generated for an insert_one *)
  upsert_oid : ObjectId_t;     (* the _id generated if an upsert inserts *)
  notification_oid : ObjectId_t;   (* the _id of a queued notification *)
  uuid4 : string               (* str(uuid.uuid4()) *)
}.

(** [calendar.timegm(t.utctimetuple())]: the whole seconds of a datetime,
    which is what python-jose puts into a token and compares at its
    verification. *)
Definition timegm (t : Z) : Z := (t / 1000000)%Z.

(** ** Helper functions of the source *)

Definition serialize_doc1 (d : Document) : dict :=
  <["id" := VStr (str_of_oid (doc_id d))]> (delete "_id" (to_dict d)).

Definition serialize_doc (doc : option Document) : option dict :=
  match doc with
  | None => None
  | Some d => Some (serialize_doc1 d)
  end.

Definition serialize_docs (docs : collection) : list dict :=
  List.map serialize_doc1 docs.

(** [ObjectId(s)] inside a handler. *)
Definition object_id (s : string) : M ObjectId_t :=
  match ObjectId s with
  | Some o => ret o
  | None => raise InvalidId
  end.

(** The call that every bumping handler repeats:
    [db.settings.update_one({}, {"$inc": {"data_version": 1}}, upsert=True)]. *)
Abbreviation inc_data_version e :=
  (update_one_upsert c_settings (UInc1 "data_version") (upsert_oid e)).

(** ** Categories routes *)

(** GET /api/categories *)
Definition get_categories : M (list dict) :=
  categories <- find_sorted c_categories [] "order" ;;
  ret (serialize_docs categories).

(** POST /api/categories *)
Definition create_category (data : CategoryCreate) (e : Env) : M dict :=
  let category := CategoryCreate_dict data in
  let category := <["created_at" := VDate (utcnow e)]> category in
  inserted_id <- insert_one c_categories (new_oid e) category ;;
  (* insert_one has put the new _id into the dict it was given *)
  let category := <["_id" := VOid inserted_id]> category in
  let category := <["id" := VStr (str_of_oid inserted_id)]> category in
  let category :=
    if decide (is_Some (category !! "_id")) then delete "_id" category else category in
  ret category.

(** PUT /api/categories/{category_id} *)
Definition update_category (category_id : string) (data : CategoryUpdate) (e : Env)
  : M (option dict) :=
  let update_data := drop_None (CategoryUpdate_dict data) in
  if decide (update_data = ∅) then raise (HTTPException 400 "No data to update") else
  let update_data := <["updated_at" := VDate (utcnow e)]> update_data in
  oid <- object_id category_id ;;
  matched_count <- update_one c_categories (by_id oid) (USet update_data) ;;
  if Nat.eqb matched_count 0 then raise (HTTPException 404 "Category not found") else
  inc_data_version e ;;;
  oid <- object_id category_id ;;
  category <- find_one c_categories (by_id oid) ;;
  ret (serialize_doc category).

(** DELETE /api/categories/{category_id} *)
Definition delete_category (category_id : string) : M string :=
  delete_many c_menu_items [("category_id", QEq (VStr category_id))] ;;;
  oid <- object_id category_id ;;
  deleted_count <- delete_one c_categories (by_id oid) ;;
  if Nat.eqb deleted_count 0 then raise (HTTPException 404 "Category not found") else
  ret "Category deleted".

(** ** Menu items routes *)

(** GET /api/menu-items *)
Definition get_menu_items (category_id : option string) (published_only : option bool)
  : M (list dict) :=
  let query : list (string * cond) := [] in
  let query :=
    match category_id with
    | Some c =>
        if String.eqb c "" then query
        else (query ++ [("category_id", QEq (VStr c))])%list
    | None => query
    end in
  let query :=
    match published_only with
    | Some true => (query ++ [("is_published", QNe (VBool false))])%list
    | _ => query
    end in
  items <- find_sorted c_menu_items query "order" ;;
  ret (serialize_docs items).

(** GET /api/menu-items/{item_id} *)
Definition get_menu_item (item_id : string) : M (option dict) :=
  oid <- object_id item_id ;;
  item <- find_one c_menu_items (by_id oid) ;;
  match item with
  | None => raise (HTTPException 404 "Item not found")
  | Some _ => ret (serialize_doc item)
  end.

(** POST /api/menu-items.  The dict that is returned still holds the
    ObjectId under [_id], next to its text under [id]. *)
Definition create_menu_item (data : MenuItemCreate) (e : Env) : M dict :=
  let item := MenuItemCreate_dict data in
  let item := <["created_at" := VDate (utcnow e)]> item in
  inserted_id <- insert_one c_menu_items (new_oid e) item ;;
  let item := <["_id" := VOid inserted_id]> item in
  let item := <["id" := VStr (str_of_oid inserted_id)]> item in
  inc_data_version e ;;;
  ret item.

(** PUT /api/menu-items/{item_id} *)
Definition update_menu_item (item_id : string) (data : MenuItemUpdate) (e : Env)
  : M (option dict) :=
  let update_data := drop_None (MenuItemUpdate_dict data) in
  if decide (update_data = ∅) then raise (HTTPException 400 "No data to update") else
  let update_data := <["updated_at" := VDate (utcnow e)]> update_data in
  oid <- object_id item_id ;;
  matched_count <- update_one c_menu_items (by_id oid) (USet update_data) ;;
  if Nat.eqb matched_count 0 then raise (HTTPException 404 "Item not found") else
  inc_data_version e ;;;
  oid <- object_id item_id ;;
  item <- find_one c_menu_items (by_id oid) ;;
  ret (serialize_doc item).

(** DELETE /api/menu-items/{item_id} *)
Definition delete_menu_item (item_id : string) (e : Env) : M string :=
  oid <- object_id item_id ;;
  deleted_count <- delete_one c_menu_items (by_id oid) ;;
  if Nat.eqb deleted_count 0 then raise (HTTPException 404 "Item not found") else
  inc_data_version e ;;;
  ret "Item deleted".

(** PUT /api/menu-items/{item_id}/toggle-publish; returns [item_id] and the
    new [is_published]. *)
Definition toggle_publish_menu_item (item_id : string) (e : Env) : M (string * bool) :=
  oid <- object_id item_id ;;
  item <- find_one c_menu_items (by_id oid) ;;
  match item with
  | None => raise (HTTPException 404 "Item not found")
  | Some item =>
      let current_status := default (VBool true) (to_dict item !! "is_published") in
      let new_status := negb (truthy current_status) in
      oid <- object_id item_id ;;
      update_one c_menu_items (by_id oid)
        (USet (<["is_published" := VBool new_status]>
                 (<["updated_at" := VDate (utcnow e)]> ∅))) ;;;
      inc_data_version e ;;;
      ret (item_id, new_status)
  end.

(** ** Bulk reorder *)

(** [item[k]] on a dict of the request body. *)
Definition getitem (item : gmap string json) (k : string) : M json :=
  match item !! k with
  | Some j => ret j
  | None => raise (KeyError k)
  end.

(** [ObjectId(x)] for a JSON value: a string is parsed, [None] makes bson
    generate a new identifier (the result [None] here: it is the [_id] of no
    stored document), anything else is a [TypeError]. *)
Definition object_id_json (j : json) : M (option ObjectId_t) :=
  match j with
  | JStr s => oid <- object_id s ;; ret (Some oid)
  | JNull => ret None
  | _ => raise TypeError
  end.

(** The loop [for item in orders: db.c.update_one({"_id": ObjectId(item["id"])},
    {"$set": {"order": item["order"]}})]. *)
Fixpoint reorder_loop (c : coll_name) (orders : list (gmap string json)) : M unit :=
  match orders with
  | [] => ret tt
  | item :: rest =>
      id <- getitem item "id" ;;
      oid <- object_id_json id ;;
      order <- getitem item "order" ;;
      match oid with
      | Some oid => update_one c (by_id oid) (USet (<["order" := value_of_json order]> ∅))
      | None => update_one_fresh (USet (<["order" := value_of_json order]> ∅))
      end ;;;
      reorder_loop c rest
  end.

(** POST /api/categories/reorder *)
Definition reorder_categories (orders : list (gmap string json)) (e : Env) : M string :=
  reorder_loop c_categories orders ;;;
  inc_data_version e ;;;
  ret "Categories reordered".

(** POST /api/menu-items/reorder *)
Definition reorder_menu_items (orders : list (gmap string json)) (e : Env) : M string :=
  reorder_loop c_menu_items orders ;;;
  inc_data_version e ;;;
  ret "Menu items reordered".

(** ** Settings routes *)

(** GET /api/settings: the document, or the empty dict. *)
Definition get_settings : M dict :=
  settings <- find_one c_settings [] ;;
  match settings with
  | Some _ => ret (default ∅ (serialize_doc settings))
  | None => ret ∅
  end.

(** PUT /api/settings *)
Definition update_settings (data : SettingsUpdate) (e : Env) : M (option dict) :=
  let update_data := drop_None (SettingsUpdate_dict data) in
  if decide (update_data = ∅) then raise (HTTPException 400 "No data to update") else
  let update_data := <["updated_at" := VDate (utcnow e)]> update_data in
  update_one_upsert c_settings (USet update_data) (upsert_oid e) ;;;
  inc_data_version e ;;;
  settings <- find_one c_settings [] ;;
  ret (serialize_doc settings).

(** ** Public data *)

Record PublicData := {
  pd_settings : dict;
  pd_categories : list dict;
  pd_items : list dict;
  pd_dataVersion : value;
  pd_lastUpdated : Z
}.

(** [d.get(k, dflt)] *)
Definition dict_get (d : dict) (k : string) (dflt : value) : value :=
  default dflt (d !! k).

(** GET /api/public/data.  [serialize_doc] rewrites the dict of the settings
    in place, so the [get] for [dataVersion] reads the serialized dict. *)
Definition get_public_data (e : Env) : M PublicData :=
  settings <- find_one c_settings [] ;;
  categories <- find_sorted c_categories [] "order" ;;
  items <- find_sorted c_menu_items [] "order" ;;
  let settings := serialize_doc settings in
  ret {| pd_settings := match settings with Some s => s | None => ∅ end;
         pd_categories := serialize_docs categories;
         pd_items := serialize_docs items;
         pd_dataVersion :=
           match settings with
           | Some s => dict_get s "data_version" (VInt 1)
           | None => VInt 1
           end;
         pd_lastUpdated := utcnow e |}.

Record VersionInfo := {
  vi_dataVersion : value;
  vi_timestamp : Z
}.

(** GET /api/public/version *)
Definition get_data_version (e : Env) : M VersionInfo :=
  settings <- find_one c_settings [] ;;
  ret {| vi_dataVersion :=
           match settings with
           | Some s => dict_get (to_dict s) "data_version" (VInt 1)
           | None => VInt 1
           end;
         vi_timestamp := utcnow e |}.

(** ** Orders, contact messages, notifications *)

Record OrderCreate := {
  oc_table_number : option string;
  oc_customer_name : option string;
  oc_customer_phone : option string;
  oc_customer_email : option string;
  oc_items : list (list (string * json));
  oc_total : spec_float;
  oc_notes : option string;
  oc_language : option string
}.

Definition OrderCreate_dict (order : OrderCreate) : dict :=
  list_to_map [("table_number", opt_str (oc_table_number order));
               ("customer_name", opt_str (oc_customer_name order));
               ("customer_phone", opt_str (oc_customer_phone order));
               ("customer_email", opt_str (oc_customer_email order));
               ("items", VArr (List.map JObj (oc_items order)));
               ("total", VFloat (oc_total order));
               ("notes", opt_str (oc_notes order));
               ("language", opt_str (oc_language order))].

Record ContactMessage := {
  cm_name : string;
  cm_phone : option string;
  cm_email : option string;
  cm_message : string;
  cm_language : option string
}.

Definition ContactMessage_dict (message : ContactMessage) : dict :=
  list_to_map [("name", VStr (cm_name message)); ("phone", opt_str (cm_phone message));
               ("email", opt_str (cm_email message)); ("message", VStr (cm_message message));
               ("language", opt_str (cm_language message))].

Definition send_email_notification (to_email : value) (subject body : string) (e : Env)
  : M bool :=
  insert_one c_notifications (notification_oid e)
    (list_to_map [("to", to_email); ("subject", VStr subject); ("body", VStr body);
                  ("created_at", VDate (utcnow e)); ("sent", VBool false)]) ;;;
  ret true.

(** [settings.get("restaurant_email") if settings else None] *)
Definition restaurant_email_of (settings : option Document) : value :=
  match settings with
  | Some s => dict_get (to_dict s) "restaurant_email" VNull
  | None => VNull
  end.

(** [cursor.sort(field, -1)] *)
Fixpoint insert_by_desc (field : string) (d : Document) (l : collection) : collection :=
  match l with
  | [] => [d]
  | x :: r =>
      if key_leb (sort_key_desc field x) (sort_key_desc field d)
      then d :: x :: r
      else x :: insert_by_desc field d r
  end.

Definition sort_desc (field : string) (l : collection) : collection :=
  List.fold_right (insert_by_desc field) [] l.

(** [list(db.c.find().sort(field, -1).limit(n))] *)
Definition find_latest (c : coll_name) (field : string) (n : nat) : M collection :=
  fun db => (Ok (firstn n (sort_desc field (get_coll c db))), db).

(** GET /api/orders *)
Definition get_orders : M (list dict) :=
  orders <- find_latest c_orders "created_at" 100 ;;
  ret (serialize_docs orders).

(** PUT /api/orders/{order_id}/status *)
Definition update_order_status (order_id status : string) (e : Env) : M string :=
  oid <- object_id order_id ;;
  matched_count <- update_one c_orders (by_id oid)
    (USet (<["status" := VStr status]> (<["updated_at" := VDate (utcnow e)]> ∅))) ;;
  if Nat.eqb matched_count 0 then raise (HTTPException 404 "Order not found") else
  ret ("Order status updated to " ++ status).

(** DELETE /api/orders/{order_id} *)
Definition delete_order (order_id : string) : M string :=
  oid <- object_id order_id ;;
  deleted_count <- delete_one c_orders (by_id oid) ;;
  if Nat.eqb deleted_count 0 then raise (HTTPException 404 "Order not found") else
  ret "Order deleted".

(** GET /api/contact-messages *)
Definition get_contact_messages : M (list dict) :=
  messages <- find_latest c_contact_messages "created_at" 100 ;;
  ret (serialize_docs messages).

(** PUT /api/contact-messages/{message_id}/read *)
Definition mark_message_read (message_id : string) (e : Env) : M string :=
  oid <- object_id message_id ;;
  matched_count <- update_one c_contact_messages (by_id oid)
    (USet (<["is_read" := VBool true]> (<["read_at" := VDate (utcnow e)]> ∅))) ;;
  if Nat.eqb matched_count 0 then raise (HTTPException 404 "Message not found") else
  ret "Message marked as read".

(** DELETE /api/contact-messages/{message_id} *)
Definition delete_message (message_id : string) : M string :=
  oid <- object_id message_id ;;
  deleted_count <- delete_one c_contact_messages (by_id oid) ;;
  if Nat.eqb deleted_count 0 then raise (HTTPException 404 "Message not found") else
  ret "Message deleted".

(** POST /api/upload answers with a path under a fresh name; the file goes to
    the upload directory, which is no part of the database. *)
Fixpoint last_segment (acc : string) (s : string) : string :=
  match s with
  | EmptyString => acc
  | String c r =>
      if Ascii.eqb c "."%char then last_segment "" r
      else last_segment (acc ++ String c "") r
  end.

Definition has_dot (s : string) : bool :=
  existsb (fun c => Ascii.eqb c "."%char) (list_ascii_of_string s).

Definition upload_file (filename : string) (e : Env) : M (string * string) :=
  let ext := if has_dot filename then last_segment "" filename else "jpg" in
  let filename := uuid4 e ++ "." ++ ext in
  ret ("uploads/" ++ filename, filename).

(** GET /api/health *)
Definition health (e : Env) : M Z := ret (utcnow e).

(** ** Authentication, intake and the request dispatcher

    What the source delegates to hashlib, python-jose and string formatting
    is taken as given: the functions below are parameters of the server. *)

Record TokenPayload := {
  tp_user_id : string;
  tp_username : value;
  tp_role : value;
  tp_exp : Z
}.

Record AdminLogin := {
  al_username : string;
  al_password : string
}.

Record External := {
  sha256_hexdigest : string -> string;
  jwt_encode : TokenPayload -> string;
  (** the payload of a token whose signature verifies *)
  jwt_decode_signed : string -> option TokenPayload;
  order_email_body : OrderCreate -> string -> Z -> string;
  contact_email_body : ContactMessage -> Z -> string
}.

Inductive response :=
| RLogin (token : string) (id : string) (username role : value)
| RUser (user : TokenPayload)
| RMessage (message : string)
| RDocs (key : string) (docs : list dict)
| RDoc (key : string) (doc : option dict)
| RToggle (item_id : string) (is_published : bool)
| RUpload (url filename : string)
| RPublicData (data : PublicData)
| RVersion (info : VersionInfo)
| ROrder (order_id message : string)
| RContact (message id : string)
| RHealth (timestamp : Z).

Inductive request :=
| POST_auth_login (data : AdminLogin)
| GET_auth_me (credentials : string)
| POST_auth_change_password (old_password new_password : string) (credentials : string)
| GET_categories
| POST_categories (data : CategoryCreate) (credentials : string)
| PUT_categories (category_id : string) (data : CategoryUpdate) (credentials : string)
| DELETE_categories (category_id : string) (credentials : string)
| GET_menu_items (category_id : option string) (published_only : option bool)
| GET_menu_item (item_id : string)
| POST_menu_items (data : MenuItemCreate) (credentials : string)
| PUT_menu_items (item_id : string) (data : MenuItemUpdate) (credentials : string)
| DELETE_menu_items (item_id : string) (credentials : string)
| PUT_menu_items_toggle_publish (item_id : string) (credentials : string)
| POST_categories_reorder (orders : list (gmap string json)) (credentials : string)
| POST_menu_items_reorder (orders : list (gmap string json)) (credentials : string)
| GET_settings
| PUT_settings (data : SettingsUpdate) (credentials : string)
| POST_upload (filename : string) (credentials : string)
| GET_public_data
| GET_public_version
| POST_orders (order : OrderCreate)
| POST_contact (message : ContactMessage)
| GET_orders (credentials : string)
| PUT_orders_status (order_id status : string) (credentials : string)
| DELETE_orders (order_id : string) (credentials : string)
| GET_contact_messages (credentials : string)
| PUT_contact_messages_read (message_id : string) (credentials : string)
| DELETE_contact_messages (message_id : string) (credentials : string)
| GET_health.

(** *** What FastAPI can turn into JSON *)

Definition float_finite (f : spec_float) : bool :=
  match f with
  | S754_nan | S754_infinity _ => false
  | _ => true
  end.

Fixpoint json_jsonable (j : json) : bool :=
  match j with
  | JFloat f => float_finite f
  | JArr l => forallb json_jsonable l
  | JObj l => forallb (fun kx => json_jsonable (snd kx)) l
  | _ => true
  end.

Definition value_jsonable (v : value) : bool :=
  match v with
  | VOid _ => false
  | VFloat f => float_finite f
  | VArr l => json_jsonable (JArr l)
  | VObj l => json_jsonable (JObj l)
  | _ => true
  end.

Definition dict_jsonable (d : dict) : bool :=
  bool_decide (map_Forall (fun _ v => value_jsonable v = true) d).

Definition response_jsonable (resp : response) : bool :=
  match resp with
  | RLogin _ _ username role => value_jsonable username && value_jsonable role
  | RUser user => value_jsonable (tp_username user) && value_jsonable (tp_role user)
  | RDocs _ docs => forallb dict_jsonable docs
  | RDoc _ (Some doc) => dict_jsonable doc
  | RPublicData data =>
      dict_jsonable (pd_settings data) && forallb dict_jsonable (pd_categories data)
      && forallb dict_jsonable (pd_items data) && value_jsonable (pd_dataVersion data)
  | RVersion info => value_jsonable (vi_dataVersion info)
  | _ => true
  end.

(** What the first boot draws: the clock and the identifiers of the
    documents it inserts. *)
Record BootEnv := {
  boot_utcnow : Z;
  admin_oid : ObjectId_t;
  settings_oid : ObjectId_t;
  category_oid : nat -> ObjectId_t
}.

Definition default_settings (now : Z) : dict :=
  list_to_map
    [("company_name", VStr "The Limon");
     ("company_subtitle", VStr "Turkish Cuisine");
     ("hero_video", VStr "hero-video-new.mp4");
     ("hero_image", VStr "menu-images/dish_01_01.jpeg");
     ("phone", VStr "+971 4 123 4567");
     ("address", VStr "Sheikh Zayed Road, Dubai, UAE");
     ("opening_hours", VStr "Daily: 8:00 AM - 11:00 PM");
     ("instagram", VStr "https://instagram.com");
     ("google_maps", VStr "https://maps.google.com");
     ("about_story", VStr "Welcome to The Limon Turkish Cuisine, where centuries-old Turkish culinary traditions meet contemporary dining excellence.");
     ("about_mission", VStr "To share the rich heritage of Turkish cuisine with our community, creating memorable dining experiences.");
     ("about_vision", VStr "To become the premier destination for Turkish cuisine, recognized for our commitment to authenticity.");
     ("updated_at", VDate now)].

Definition default_category (name slug image : string) (order : Z) : dict :=
  list_to_map [("name", VStr name); ("name_en", VStr name); ("slug", VStr slug);
               ("image", VStr image); ("order", VInt order)].

Definition default_categories : list dict :=
  [default_category "Turkish Breakfast" "breakfast" "menu-images/dish_01_01.jpeg" 1;
   default_category "Meze & Salad Selection" "mezze" "menu-images/dish_06_01.jpeg" 2;
   default_category "Charcoal Grill" "main" "menu-images/dish_09_03.jpeg" 3;
   default_category "Sweet Moments" "sweet" "menu-images/dish_12_04.jpeg" 4;
   default_category "Kids Meal" "kids" "menu-images/dish_13_05.jpeg" 5;
   default_category "Coffee & Teas" "coffee" "menu-images/dish_14_01.jpeg" 6;
   default_category "Fresh Juices & Cocktails" "juices" "menu-images/dish_16_01.jpeg" 7].

(** [insert_many(docs)]: one insert after the other, in order. *)
Fixpoint insert_many (c : coll_name) (new_id : nat -> ObjectId_t) (i : nat) (docs : list dict)
  : M unit :=
  match docs with
  | [] => ret tt
  | d :: rest => insert_one c (new_id i) d ;;; insert_many c new_id (S i) rest
  end.

Section Server.

Variable ext : External.

Definition hash_password (password : string) : string := sha256_hexdigest ext password.

(** [now] is the time of the call in whole seconds: python-jose encodes the
    [datetime] under [exp] by [timegm]. *)
Definition create_token (user_id : string) (username role : value) (now : Z) : string :=
  jwt_encode ext
    {| tp_user_id := user_id; tp_username := username; tp_role := role;
       tp_exp := now + 7 * 86400 |}.

(** The dependency of every admin route.  A token that does not decode
    makes [jwt.decode] raise an error that is no [ExpiredSignatureError]; the
    second [except] clause then evaluates [jwt.InvalidTokenError], an
    attribute that the module [jose.jwt] does not have. *)
Definition verify_token (credentials : string) (now : Z) : M TokenPayload :=
  match jwt_decode_signed ext credentials with
  | Some payload =>
      if Z.ltb (tp_exp payload) now
      then raise (HTTPException 401 "Token expired")
      else ret payload
  | None => raise AttributeError
  end.

Definition init_default_data (b : BootEnv) : M unit :=
  n <- count_documents c_admins [] ;;
  (if Nat.eqb n 0 then
     insert_one c_admins (admin_oid b)
       (list_to_map [("username", VStr "admin"); ("password", VStr (hash_password "admin123"));
                     ("role", VStr "admin"); ("created_at", VDate (boot_utcnow b))]) ;;; ret tt
   else ret tt) ;;;
  n <- count_documents c_settings [] ;;
  (if Nat.eqb n 0 then
     insert_one c_settings (settings_oid b) (default_settings (boot_utcnow b)) ;;; ret tt
   else ret tt) ;;;
  n <- count_documents c_categories [] ;;
  (if Nat.eqb n 0 then insert_many c_categories (category_oid b) 0 default_categories
   else ret tt).

(** [d[k]] on a stored document. *)
Definition doc_getitem (d : Document) (k : string) : M value :=
  match to_dict d !! k with
  | Some v => ret v
  | None => raise (KeyError k)
  end.

(** POST /api/auth/login *)
Definition login (data : AdminLogin) (e : Env) : M response :=
  admin <- find_one c_admins [("username", QEq (VStr (al_username data)));
                              ("password", QEq (VStr (hash_password (al_password data))))] ;;
  match admin with
  | None => raise (HTTPException 401 "Invalid credentials")
  | Some admin =>
      username <- doc_getitem admin "username" ;;
      role <- doc_getitem admin "role" ;;
      let token := create_token (str_of_oid (doc_id admin)) username role (timegm (utcnow e)) in
      ret (RLogin token (str_of_oid (doc_id admin)) username role)
  end.

(** GET /api/auth/me *)
Definition get_me (user : TokenPayload) : M response := ret (RUser user).

(** POST /api/auth/change-password *)
Definition change_password (old_password new_password : string) (user : TokenPayload)
  : M response :=
  oid <- object_id (tp_user_id user) ;;
  admin <- find_one c_admins [("_id", QEq (VOid oid));
                              ("password", QEq (VStr (hash_password old_password)))] ;;
  match admin with
  | None => raise (HTTPException 400 "Invalid old password")
  | Some _ =>
      oid <- object_id (tp_user_id user) ;;
      update_one c_admins (by_id oid)
        (USet (<["password" := VStr (hash_password new_password)]> ∅)) ;;;
      ret (RMessage "Password changed successfully")
  end.

(** POST /api/orders *)
Definition create_order (order : OrderCreate) (e : Env) : M response :=
  settings <- find_one c_settings [] ;;
  let restaurant_email := restaurant_email_of settings in
  let order_data := OrderCreate_dict order in
  let order_data := <["created_at" := VDate (utcnow e)]> order_data in
  let order_data := <["status" := VStr "pending"]> order_data in
  inserted_id <- insert_one c_orders (new_oid e) order_data ;;
  let order_id := str_of_oid inserted_id in
  (if truthy restaurant_email then
     send_email_notification restaurant_email
       ("New Order #" ++ substring 0 8 order_id)
       (order_email_body ext order order_id (utcnow e)) e ;;; ret tt
   else ret tt) ;;;
  ret (ROrder order_id "Order placed successfully").

(** POST /api/contact *)
Definition send_contact_message (message : ContactMessage) (e : Env) : M response :=
  settings <- find_one c_settings [] ;;
  let restaurant_email := restaurant_email_of settings in
  let message_data := ContactMessage_dict message in
  let message_data := <["created_at" := VDate (utcnow e)]> message_data in
  inserted_id <- insert_one c_contact_messages (new_oid e) message_data ;;
  (if truthy restaurant_email then
     send_email_notification restaurant_email
       ("Contact Message from " ++ cm_name message)
       (contact_email_body ext message (utcnow e)) e ;;; ret tt
   else ret tt) ;;;
  ret (RContact "Message sent successfully" (str_of_oid inserted_id)).

(** An admin route: the dependency [verify_token] runs first and the
    handler only if it returns. *)
Definition authed {A} (credentials : string) (e : Env) (h : TokenPayload -> M A) : M A :=
  user <- verify_token credentials (timegm (utcnow e)) ;; h user.

Definition fmap_M {A B} (f : A -> B) (m : M A) : M B := a <- m ;; ret (f a).

(** The routes of the application. *)
Definition handle (e : Env) (r : request) : M response :=
  match r with
  | POST_auth_login data => login data e
  | GET_auth_me cr => authed cr e get_me
  | POST_auth_change_password o n cr => authed cr e (change_password o n)
  | GET_categories => fmap_M (RDocs "categories") get_categories
  | POST_categories data cr =>
      authed cr e (fun _ => fmap_M (fun d => RDoc "category" (Some d)) (create_category data e))
  | PUT_categories id data cr =>
      authed cr e (fun _ => fmap_M (RDoc "category") (update_category id data e))
  | DELETE_categories id cr => authed cr e (fun _ => fmap_M RMessage (delete_category id))
  | GET_menu_items c p => fmap_M (RDocs "items") (get_menu_items c p)
  | GET_menu_item id => fmap_M (RDoc "item") (get_menu_item id)
  | POST_menu_items data cr =>
      authed cr e (fun _ => fmap_M (fun d => RDoc "item" (Some d)) (create_menu_item data e))
  | PUT_menu_items id data cr =>
      authed cr e (fun _ => fmap_M (RDoc "item") (update_menu_item id data e))
  | DELETE_menu_items id cr => authed cr e (fun _ => fmap_M RMessage (delete_menu_item id e))
  | PUT_menu_items_toggle_publish id cr =>
      authed cr e (fun _ => fmap_M (fun r => RToggle (fst r) (snd r)) (toggle_publish_menu_item id e))
  | POST_categories_reorder os cr =>
      authed cr e (fun _ => fmap_M RMessage (reorder_categories os e))
  | POST_menu_items_reorder os cr =>
      authed cr e (fun _ => fmap_M RMessage (reorder_menu_items os e))
  | GET_settings => fmap_M (fun d => RDoc "settings" (Some d)) get_settings
  | PUT_settings data cr =>
      authed cr e (fun _ => fmap_M (RDoc "settings") (update_settings data e))
  | POST_upload f cr =>
      authed cr e (fun _ => fmap_M (fun r => RUpload (fst r) (snd r)) (upload_file f e))
  | GET_public_data => fmap_M RPublicData (get_public_data e)
  | GET_public_version => fmap_M RVersion (get_data_version e)
  | POST_orders order => create_order order e
  | POST_contact message => send_contact_message message e
  | GET_orders cr => authed cr e (fun _ => fmap_M (RDocs "orders") get_orders)
  | PUT_orders_status id st cr =>
      authed cr e (fun _ => fmap_M RMessage (update_order_status id st e))
  | DELETE_orders id cr => authed cr e (fun _ => fmap_M RMessage (delete_order id))
  | GET_contact_messages cr => authed cr e (fun _ => fmap_M (RDocs "messages") get_contact_messages)
  | PUT_contact_messages_read id cr =>
      authed cr e (fun _ => fmap_M RMessage (mark_message_read id e))
  | DELETE_contact_messages id cr => authed cr e (fun _ => fmap_M RMessage (delete_message id))
  | GET_health => fmap_M RHealth (health e)
  end.

(** The answer to a request.  FastAPI turns what the route function returns
    into JSON: an ObjectId has no JSON form and a float that is NaN or
    infinite is refused, and either makes the request fail with [ValueError]
    after the handler has run. *)
Definition serve (e : Env) (r : request) : M response :=
  fun db =>
    match handle e r db with
    | (Ok resp, db') =>
        if response_jsonable resp then (Ok resp, db') else (Raise ValueError, db')
    | out => out
    end.

(** The database after a sequence of requests, each with its environment. *)
Fixpoint run (rs : list (Env * request)) (db : DB) : DB :=
  match rs with
  | [] => db
  | (e, r) :: rest => run rest (snd (handle e r db))
  end.

End Server.

(** ** Notions used to state the properties *)

(** Ascending in the BSON order of the sort field. *)
Definition key_le (field : string) (a b : Document) : Prop :=
  key_leb (sort_key field a) (sort_key field b) = true.

(** What the two public read routes report as the data version. *)
Definition stored_version (db : DB) : value :=
  match settings db with
  | s :: _ => dict_get (doc_fields s) "data_version" (VInt 1)
  | [] => VInt 1
  end.


(** "[isPublished] is not explicitly [false]": absent and [true] pass. *)
Definition not_unpublished (d : Document) : bool :=
  match doc_fields d !! "is_published" with
  | Some (VBool false) => false
  | _ => true
  end.

(** The item references the category [c]. *)
Definition in_category (c : string) (d : Document) : bool :=
  match doc_fields d !! "category_id" with
  | Some (VStr s) => String.eqb s c
  | _ => false
  end.

(** The filter of a published-only listing: a category filter is optional,
    an empty [category_id] counts as none. *)
Definition selected (category_id : option string) (d : Document) : bool :=
  not_unpublished d &&
  match category_id with
  | Some c => if String.eqb c "" then true else in_category c d
  | None => true
  end.


(** The [data_version] field of the settings document, if any. *)
Definition counter_field (db : DB) : option value :=
  match settings db with
  | s :: _ => doc_fields s !! "data_version"
  | [] => None
  end.

(** The reported version is an integer: the field is absent or holds one. *)
Definition version_wf (db : DB) : Prop := exists v, stored_version db = VInt v.

(** The reported version does not go down from [db] to [db']. *)
Definition version_le (db db' : DB) : Prop :=
  forall v, stored_version db = VInt v ->
            exists v', stored_version db' = VInt v' /\ (v <= v')%Z.

Definition monotone {A} (m : M A) : Prop := forall db, version_le db (snd (m db)).

(** The request does not write [data_version] itself. *)
Definition no_version_payload (r : request) : Prop :=
  match r with
  | PUT_settings data _ => su_data_version data = None
  | _ => True
  end.

(** [db'] differs from [db] at most in the collection [c]. *)
Definition same_except (c : coll_name) (db db' : DB) : Prop :=
  forall c', c' <> c -> get_coll c' db' = get_coll c' db.


(** ** A small database and requests to run the handlers on *)

Module Demo.

Definition id_grill : string := "64b7f0a1c2d3e4f5a6b7c8d1".
Definition id_sweet : string := "64b7f0a1c2d3e4f5a6b7c8d2".
Definition id_kebab : string := "64b7f0a1c2d3e4f5a6b7c8e1".
Definition id_baklava : string := "64b7f0a1c2d3e4f5a6b7c8e2".
Definition id_ghost : string := "64b7f0a1c2d3e4f5a6b7c8ff".   (* the _id of nothing *)

(** The identifier of the grill in upper case, and an identifier of eleven
    bytes: 22 digits and two spaces. *)
Definition id_GRILL : string := "64B7F0A1C2D3E4F5A6B7C8D1".
Definition id_short : string := "64b7f0a1c2d3e4f5a6b7c8  ".

(** 45.0 as a binary64 *)
Definition price_45 : spec_float := S754_finite false 6333186975989760 (-47).

Definition grill : Document :=
  Doc (Oid id_grill)
    (list_to_map [("name", VStr "Grill"); ("slug", VStr "grill"); ("order", VInt 1)]).

Definition sweet : Document :=
  Doc (Oid id_sweet)
    (list_to_map [("name", VStr "Sweet Moments"); ("slug", VStr "sweet"); ("order", VInt 2)]).

(** A legacy item: it has neither [is_published] nor [order]. *)
Definition kebab : Document :=
  Doc (Oid id_kebab)
    (list_to_map [("title", VStr "Kebab"); ("price", VFloat price_45);
                  ("category_id", VStr id_grill)]).

Definition baklava : Document :=
  Doc (Oid id_baklava)
    (list_to_map [("title", VStr "Baklava"); ("price", VFloat price_45);
                  ("category_id", VStr id_sweet); ("is_published", VBool true);
                  ("order", VInt 2)]).

Definition the_settings : Document :=
  Doc (Oid "64b7f0a1c2d3e4f5a6b7c8a0")
    (list_to_map [("company_name", VStr "The Limon"); ("data_version", VInt 5)]).

Definition db : DB :=
  MkDB [] [grill; sweet] [kebab; baklava] [the_settings] [] [] [].

Definition env : Env :=
  {| utcnow := 1700000000123456;
     new_oid := Oid "64b7f0a1c2d3e4f5a6b7c8b1";
     upsert_oid := Oid "64b7f0a1c2d3e4f5a6b7c8b2";
     notification_oid := Oid "64b7f0a1c2d3e4f5a6b7c8b3";
     uuid4 := "0b0e7a52-5c1c-4c2a-9d8e-3f1f6a7b8c9d" |}.

Definition boot_env : BootEnv :=
  {| boot_utcnow := 1690000000987654;
     admin_oid := Oid "64b7f0a1c2d3e4f5a6b7c800";
     settings_oid := Oid "64b7f0a1c2d3e4f5a6b7c801";
     category_oid := fun i =>
       Oid (String.append "64b7f0a1c2d3e4f5a6b7c81"
              (String (ascii_of_nat (48 + i)) EmptyString)) |}.

(** Stand-ins for the hash, the token codec and the mail texts; every
    credential but one verifies as the seeded administrator's. *)
Definition ext : External :=
  {| sha256_hexdigest := fun s => String.append "sha256:" s;
     jwt_encode := fun p => String.append "jwt:" (tp_user_id p);
     jwt_decode_signed := fun cr =>
       if String.eqb cr "not.a.token" then None
       else Some {| tp_user_id := "64b7f0a1c2d3e4f5a6b7c800"; tp_username := VStr "admin";
                    tp_role := VStr "admin"; tp_exp := 1800000000 |};
     order_email_body := fun _ id _ => String.append "New Order Received! " id;
     contact_email_body := fun m _ => String.append "New Contact Message! " (cm_name m) |}.

Definition no_category_update : CategoryUpdate :=
  {| cu_name := None; cu_name_ar := None; cu_slug := None; cu_image := None;
     cu_order := None |}.

Definition no_item_update : MenuItemUpdate :=
  {| mu_title := None; mu_title_ar := None; mu_description := None;
     mu_description_ar := None; mu_price := None; mu_image := None;
     mu_category_id := None; mu_order := None; mu_is_published := None |}.

Definition no_settings_update : SettingsUpdate :=
  {| su_company_name := None; su_company_name_ar := None; su_company_subtitle := None;
     su_company_subtitle_ar := None; su_title_font := None; su_subtitle_font := None;
     su_bg_color := None; su_text_color := None; su_hero_video := None;
     su_hero_image := None; su_phone := None; su_address := None; su_address_ar := None;
     su_opening_hours := None; su_opening_hours_ar := None; su_instagram := None;
     su_google_maps := None; su_about_story := None; su_about_story_ar := None;
     su_about_mission := None; su_about_mission_ar := None; su_about_vision := None;
     su_about_vision_ar := None; su_default_language := None; su_restaurant_email := None;
     su_enable_favorites := None; su_enable_cart := None; su_enable_menu := None;
     su_data_version := None |}.

(** {price: 45.0} *)
Definition price_update : MenuItemUpdate :=
  {| mu_title := None; mu_title_ar := None; mu_description := None;
     mu_description_ar := None; mu_price := Some price_45; mu_image := None;
     mu_category_id := None; mu_order := None; mu_is_published := None |}.

(** {name: "Mangal"} *)
Definition name_update : CategoryUpdate :=
  {| cu_name := Some "Mangal"; cu_name_ar := None; cu_slug := None; cu_image := None;
     cu_order := None |}.

(** {order: 7}, for a category and for a menu item *)
Definition move_category : CategoryUpdate :=
  {| cu_name := None; cu_name_ar := None; cu_slug := None; cu_image := None;
     cu_order := Some 7 |}.

Definition move_item : MenuItemUpdate :=
  {| mu_title := None; mu_title_ar := None; mu_description := None;
     mu_description_ar := None; mu_price := None; mu_image := None;
     mu_category_id := None; mu_order := Some 7; mu_is_published := None |}.

(** {order: 2^63}: one more than the largest integer of 8 bytes *)
Definition far_category : CategoryUpdate :=
  {| cu_name := None; cu_name_ar := None; cu_slug := None; cu_image := None;
     cu_order := Some 9223372036854775808 |}.

(** {"name": "Grill", "slug": "grill", "image": "grill.jpeg", "order": 1} *)
Definition new_category : CategoryCreate :=
  {| cc_name := "Grill"; cc_name_ar := ""; cc_slug := "grill"; cc_image := "grill.jpeg";
     cc_order := 1 |}.

(** {"title": "Iskender", "price": 45.0, "category_id": grill, ...} *)
Definition new_item : MenuItemCreate :=
  {| mc_title := "Iskender"; mc_title_ar := ""; mc_description := "Doner on pide";
     mc_description_ar := ""; mc_price := price_45; mc_image := "iskender.jpeg";
     mc_category_id := id_grill; mc_is_published := true |}.

(** The database of a first boot: the seeded administrator, the default
    settings (without [data_version]) and the seven default categories. *)
Definition booted : DB := snd (init_default_data ext boot_env empty_db).

(** A clock reading after the expiry of the credential. *)
Definition late_env : Env :=
  {| utcnow := 1900000000654321;
     new_oid := Oid "64b7f0a1c2d3e4f5a6b7c8b1";
     upsert_oid := Oid "64b7f0a1c2d3e4f5a6b7c8b2";
     notification_oid := Oid "64b7f0a1c2d3e4f5a6b7c8b3";
     uuid4 := "0b0e7a52-5c1c-4c2a-9d8e-3f1f6a7b8c9d" |}.

(** One PUT /api/settings that writes [data_version] itself. *)
Definition reset_request : list (Env * request) :=
  [(env, PUT_settings
           {| su_company_name := None; su_company_name_ar := None;
              su_company_subtitle := None; su_company_subtitle_ar := None;
              su_title_font := None; su_subtitle_font := None; su_bg_color := None;
              su_text_color := None; su_hero_video := None; su_hero_image := None;
              su_phone := None; su_address := None; su_address_ar := None;
              su_opening_hours := None; su_opening_hours_ar := None;
              su_instagram := None; su_google_maps := None; su_about_story := None;
              su_about_story_ar := None; su_about_mission := None;
              su_about_mission_ar := None; su_about_vision := None;
              su_about_vision_ar := None; su_default_language := None;
              su_restaurant_email := None; su_enable_favorites := None;
              su_enable_cart := None; su_enable_menu := None;
              su_data_version := Some 0 |}
           "a.bearer.token")].

(** {data_version: 0} *)
Definition version_reset : SettingsUpdate :=
  {| su_company_name := None; su_company_name_ar := None; su_company_subtitle := None;
     su_company_subtitle_ar := None; su_title_font := None; su_subtitle_font := None;
     su_bg_color := None; su_text_color := None; su_hero_video := None;
     su_hero_image := None; su_phone := None; su_address := None; su_address_ar := None;
     su_opening_hours := None; su_opening_hours_ar := None; su_instagram := None;
     su_google_maps := None; su_about_story := None; su_about_story_ar := None;
     su_about_mission := None; su_about_mission_ar := None; su_about_vision := None;
     su_about_vision_ar := None; su_default_language := None; su_restaurant_email := None;
     su_enable_favorites := None; su_enable_cart := None; su_enable_menu := None;
     su_data_version := Some 0 |}.

(** {phone: "+971 4 765 4321"} *)
Definition phone_update : SettingsUpdate :=
  {| su_company_name := None; su_company_name_ar := None; su_company_subtitle := None;
     su_company_subtitle_ar := None; su_title_font := None; su_subtitle_font := None;
     su_bg_color := None; su_text_color := None; su_hero_video := None;
     su_hero_image := None; su_phone := Some "+971 4 765 4321"; su_address := None;
     su_address_ar := None;
     su_opening_hours := None; su_opening_hours_ar := None; su_instagram := None;
     su_google_maps := None; su_about_story := None; su_about_story_ar := None;
     su_about_mission := None; su_about_mission_ar := None; su_about_vision := None;
     su_about_vision_ar := None; su_default_language := None; su_restaurant_email := None;
     su_enable_favorites := None; su_enable_cart := None; su_enable_menu := None;
     su_data_version := None |}.

(** A session: rename a category, list the menu, change the phone, toggle
    an item, place an order. *)
Definition session_1 : list (Env * request) :=
  [(env, PUT_categories id_grill name_update "a.bearer.token");
   (env, GET_menu_items None (Some true))].

Definition session_2 : list (Env * request) :=
  [(env, PUT_settings phone_update "a.bearer.token");
   (env, PUT_menu_items_toggle_publish id_kebab "a.bearer.token");
   (env, DELETE_categories id_sweet "a.bearer.token")].


End Demo.


(** A payload "carries zero non-null fields" / "at least one non-null
    field". *)
Definition no_field (payload : dict) : Prop :=
  forall k v, payload !! k = Some v -> v = VNull.

Definition has_field (payload : dict) : Prop :=
  exists k v, payload !! k = Some v /\ v <> VNull.


(** ** The order of a listing, read off the entries it returns

    The place of an entry by its [order]: entries without one (or with
    [null]) come first, then the integers in ascending order.  An [order] of
    another kind has no place here. *)

Inductive place :=
| Unplaced
| Placed (z : Z).

Definition place_of (item : dict) : option place :=
  match item !! "order" with
  | None | Some VNull => Some Unplaced
  | Some (VInt z) => Some (Placed z)
  | Some _ => None
  end.

Definition place_le (a b : place) : Prop :=
  match a, b with
  | Unplaced, _ => True
  | Placed _, Unplaced => False
  | Placed x, Placed y => (x <= y)%Z
  end.

(** Two neighbours that both have a place are in order; a listing in which
    every entry has a place is in order throughout. *)
Definition ascending (items : list dict) : Prop :=
  (forall i a b pa pb,
     items !! i = Some a -> items !! S i = Some b ->
     place_of a = Some pa -> place_of b = Some pb -> place_le pa pb) /\
  (forall ps, List.map place_of items = List.map Some ps -> StronglySorted place_le ps).

(** ** A menu stored out of order *)

Module Menu.

Definition lahmacun : Document :=
  Doc (Oid "64b7f0a1c2d3e4f5a6b7c8f1")
    (list_to_map [("title", VStr "Lahmacun"); ("category_id", VStr Demo.id_grill);
                  ("is_published", VBool true); ("order", VInt 9)]).

Definition kunefe : Document :=
  Doc (Oid "64b7f0a1c2d3e4f5a6b7c8f2")
    (list_to_map [("title", VStr "Kunefe"); ("category_id", VStr Demo.id_sweet);
                  ("is_published", VBool false); ("order", VInt 5)]).

Definition ayran : Document :=
  Doc (Oid "64b7f0a1c2d3e4f5a6b7c8f3")
    (list_to_map [("title", VStr "Ayran"); ("category_id", VStr Demo.id_grill);
                  ("is_published", VBool true); ("order", VInt 1)]).

Definition meze : Document :=
  Doc (Oid "64b7f0a1c2d3e4f5a6b7c8d3")
    (list_to_map [("name", VStr "Meze"); ("slug", VStr "meze"); ("order", VInt 0)]).

(** The categories are stored with the orders 1, 2, 0, the items with the
    orders 9, 5, none, 1. *)
Definition db : DB :=
  MkDB [] [Demo.grill; Demo.sweet; meze] [lahmacun; kunefe; Demo.kebab; ayran]
       [Demo.the_settings] [] [] [].

End Menu.

(** ** A database with an orphaned item: [kebab] references a category that
    is not stored *)

Module Orphan.

Definition db : DB :=
  MkDB [] [Demo.sweet] [Demo.kebab; Demo.baklava] [Demo.the_settings] [] [] [].

End Orphan.



(** [is_published] is absent or a boolean. *)
Definition flag_wf (d : Document) : Prop :=
  doc_fields d !! "is_published" = None \/
  exists b, doc_fields d !! "is_published" = Some (VBool b).





(** The identifier that an entry addresses. *)
Definition entry_oid (item : gmap string json) : option ObjectId_t :=
  match item !! "id" with
  | Some (JStr s) => ObjectId s
  | _ => None
  end.

(** The order value that the batch gives to [oid]: the one of the last entry
    that addresses it, if any does. *)
Fixpoint last_order (oid : ObjectId_t) (orders : list (gmap string json)) : option value :=
  match orders with
  | [] => None
  | item :: rest =>
      match last_order oid rest with
      | Some v => Some v
      | None =>
          if decide (entry_oid item = Some oid)
          then value_of_json <$> item !! "order"
          else None
      end
  end.

(** A document after the batch: its [order] replaced if the batch addresses
    it, untouched otherwise. *)
Definition reordered (orders : list (gmap string json)) (d : Document) : Document :=
  match last_order (doc_id d) orders with
  | Some v => Doc (doc_id d) (<["order" := v]> (doc_fields d))
  | None => d
  end.




(** The handler leaves the settings collection as it finds it. *)
Definition untouched {A} (m : M A) : Prop :=
  forall db, settings (snd (m db)) = settings db.


(** The handler returns the database it was given. *)
Definition pure {A} (m : M A) : Prop := forall db, snd (m db) = db.

(** The routes that only read: every GET, and the login. *)
Definition reads_only (r : request) : bool :=
  match r with
  | POST_auth_login _ | GET_auth_me _ | GET_categories | GET_menu_items _ _
  | GET_menu_item _ | GET_settings | GET_public_data | GET_public_version
  | GET_orders _ | GET_contact_messages _ | GET_health => true
  | _ => false
  end.

(** The bearer credential of a request to an admin route. *)
Definition credentials_of (r : request) : option string :=
  match r with
  | GET_auth_me cr | POST_auth_change_password _ _ cr
  | POST_categories _ cr | PUT_categories _ _ cr | DELETE_categories _ cr
  | POST_menu_items _ cr | PUT_menu_items _ _ cr | DELETE_menu_items _ cr
  | PUT_menu_items_toggle_publish _ cr
  | POST_categories_reorder _ cr | POST_menu_items_reorder _ cr
  | PUT_settings _ cr | POST_upload _ cr
  | GET_orders cr | PUT_orders_status _ _ cr | DELETE_orders _ cr
  | GET_contact_messages cr | PUT_contact_messages_read _ cr
  | DELETE_contact_messages _ cr => Some cr
  | _ => None
  end.


(** The counter after one increment: 1 in a field that is absent. *)
Definition next_version (counter : option value) : Z :=
  match counter with
  | Some (VInt v) => v + 1
  | _ => 1
  end.

(** The handler does not change the stored counter. *)
Definition keeps_counter {A} (m : M A) : Prop :=
  forall db, counter_field (snd (m db)) = counter_field db.

(** From a well-formed counter, a run of the handler that returns has
    incremented the counter exactly once. *)
Definition increments_once {A} (m : M A) : Prop :=
  forall db a db', version_wf db -> m db = (Ok a, db') ->
                   counter_field db' = Some (VInt (next_version (counter_field db))).

(** The routes whose handlers increment the data version. *)
Definition incrementing (r : request) : bool :=
  match r with
  | PUT_categories _ _ _ | POST_menu_items _ _ | PUT_menu_items _ _ _
  | DELETE_menu_items _ _ | PUT_menu_items_toggle_publish _ _
  | POST_categories_reorder _ _ | POST_menu_items_reorder _ _ | PUT_settings _ _ => true
  | _ => false
  end.


(** ** The invariants of the stored data *)

#[global] Instance coll_name_eq_dec : EqDecision coll_name.
Proof. solve_decision. Defined.

(** [data_version], in a dict of fields, is absent or an integer. *)
Definition counter_ok (f : dict) : Prop :=
  f !! "data_version" = None \/ exists v, f !! "data_version" = Some (VInt v).

(** [is_published], in a dict of fields, is absent or a boolean. *)
Definition flag_ok (f : dict) : Prop :=
  f !! "is_published" = None \/ exists b, f !! "is_published" = Some (VBool b).

(** What the fields of a document of the collection [c] must satisfy. *)
Definition fields_ok (c : coll_name) (f : dict) : Prop :=
  (c = c_menu_items -> flag_ok f) /\ (c = c_settings -> counter_ok f).

(** A collection in good order: identifiers are unique, the fields are as
    above, and the settings are at most one document. *)
Definition coll_ok (c : coll_name) (l : collection) : Prop :=
  NoDup (ids l) /\
  Forall (fun d => fields_ok c (doc_fields d)) l /\
  (c = c_settings -> (List.length l <= 1)%nat).

Definition db_ok (db : DB) : Prop := forall c, coll_ok c (get_coll c db).

Definition preserves {A} (m : M A) : Prop := forall db, db_ok db -> db_ok (snd (m db)).

(** The databases the server can be in: the one left by the first boot and
    those reached from it by requests. *)
Inductive reachable (ext : External) : DB -> Prop :=
| reach_boot (b : BootEnv) :
    reachable ext (snd (init_default_data ext b empty_db))
| reach_step (e : Env) (r : request) (db : DB) :
    reachable ext db -> reachable ext (snd (handle ext e r db)).

(** An identifier as the driver generates them: 12 bytes, printed as 24
    lower-case hexadecimal digits. *)
Definition is_lower_hex (c : ascii) : bool :=
  let n := nat_of_ascii c in
  ((48 <=? n) && (n <=? 57) || (97 <=? n) && (n <=? 102))%nat.

Definition generated (o : ObjectId_t) : Prop :=
  List.length (list_ascii_of_string (oid_hex o)) = 24%nat /\
  forallb is_lower_hex (list_ascii_of_string (oid_hex o)) = true.

(** An integer of a payload, when supplied, fits the 8 bytes of a BSON
    integer. *)
Definition fits_int64 (o : option Z) : Prop := forall z, o = Some z -> int64 z = true.

(** A dict without dates: it is read back as it was stored. *)
Definition dateless (d : dict) : Prop := forall k v, d !! k = Some v -> stored v = v.

(** ** Induction on JSON values *)

Section JsonInd.

Variable P : json -> Prop.
Hypothesis HNull : P JNull.
Hypothesis HBool : forall b, P (JBool b).
Hypothesis HInt : forall z, P (JInt z).
Hypothesis HFloat : forall f, P (JFloat f).
Hypothesis HStr : forall s, P (JStr s).
Hypothesis HArr : forall l, Forall P l -> P (JArr l).
Hypothesis HObj : forall l, Forall (fun kx => P (snd kx)) l -> P (JObj l).

Fixpoint json_ind' (j : json) : P j :=
  match j with
  | JNull => HNull
  | JBool b => HBool b
  | JInt z => HInt z
  | JFloat f => HFloat f
  | JStr s => HStr s
  | JArr l =>
      HArr l ((fix go (l : list json) : Forall P l :=
                 match l with
                 | [] => @List.Forall_nil _ P
                 | x :: r => @List.Forall_cons _ P x r (json_ind' x) (go r)
                 end) l)
  | JObj l =>
      HObj l ((fix go (l : list (string * json)) : Forall (fun kx => P (snd kx)) l :=
                 match l with
                 | [] => @List.Forall_nil _ _
                 | (k, x) :: r => @List.Forall_cons _ (fun kx => P (snd kx)) (k, x) r (json_ind' x) (go r)
                 end) l)
  end.

End JsonInd.

(** * Properties *)

Arguments matches : simpl never.
Arguments apply_update : simpl never.
Arguments set_coll : simpl never.

(** ** Collections of the database *)

Lemma get_set_coll c l db : get_coll c (set_coll c l db) = l.
Proof. by destruct c. Qed.

Lemma get_set_coll_ne c c' l db : c <> c' -> get_coll c' (set_coll c l db) = get_coll c' db.
Proof. by destruct c, c'. Qed.

Lemma set_get_coll c db : set_coll c (get_coll c db) db = db.
Proof. by destruct c, db. Qed.


(** ** Equality of BSON values *)

Lemma string_compare_refl s : String.compare s s = Eq.
Proof.
  induction s as [|a s IH]; simpl; [done|].
  unfold Ascii.compare. by rewrite N.compare_refl.
Qed.

Lemma string_compare_eq s t : String.compare s t = Eq <-> s = t.
Proof.
  split; [apply String.compare_eq_iff | intros ->; apply string_compare_refl].
Qed.

Lemma bson_eqb_oid o p : bson_eqb (VOid o) (VOid p) = true <-> o = p.
Proof.
  unfold bson_eqb; simpl. destruct o as [s], p as [t]; simpl.
  pose proof (string_compare_eq s t) as E.
  destruct (String.compare s t); split; intros H; try discriminate; try done.
  - f_equal. by apply E.
  - injection H as H. apply E in H. discriminate.
  - injection H as H. apply E in H. discriminate.
Qed.

Lemma bson_eqb_str w s : bson_eqb w (VStr s) = true <-> w = VStr s.
Proof.
  unfold bson_eqb. destruct w as [| | | |t| | | |]; simpl;
    try (split; [discriminate | discriminate]).
  pose proof (string_compare_eq t s) as E.
  destruct (String.compare t s); split; intros H; try discriminate; try done.
  - f_equal. by apply E.
  - injection H as H. apply E in H. discriminate.
  - injection H as H. apply E in H. discriminate.
Qed.

Lemma bson_eqb_false w : bson_eqb w (VBool false) = true <-> w = VBool false.
Proof.
  unfold bson_eqb. destruct w; simpl; try (split; [discriminate | discriminate]).
  destruct b; simpl; split; intros H; try discriminate; done.
Qed.

Lemma matches_by_id o d : matches (by_id o) d = true <-> doc_id d = o.
Proof.
  unfold matches, by_id, get_field; simpl. rewrite andb_true_r. apply bson_eqb_oid.
Qed.

Lemma matches_by_id_false o d : matches (by_id o) d = false <-> doc_id d <> o.
Proof.
  rewrite <- matches_by_id. destruct (matches (by_id o) d); split; intros; try done.
Qed.

Lemma matches_all d : matches [] d = true.
Proof. done. Qed.

(** ** The BSON order is total *)

Lemma num_cmp_antisym a b : num_cmp b a = CompOpp (num_cmp a b).
Proof.
  destruct a as [|[]|m1 e1], b as [|[]|m2 e2]; simpl; try done.
  rewrite (Z.min_comm e2 e1). apply Z.compare_antisym.
Qed.

Lemma bool_cmp_antisym a b : bool_cmp b a = CompOpp (bool_cmp a b).
Proof. by destruct a, b. Qed.

Lemma json_cmp_arr_cons x l y m :
  json_cmp (JArr (x :: l)) (JArr (y :: m)) =
    match json_cmp x y with
    | Eq => json_cmp (JArr l) (JArr m)
    | c => c
    end.
Proof. reflexivity. Qed.

Lemma json_cmp_obj_cons a x l b y m :
  json_cmp (JObj ((a, x) :: l)) (JObj ((b, y) :: m)) =
    match Nat.compare (jbracket x) (jbracket y) with
    | Eq =>
        match String.compare a b with
        | Eq =>
            match json_cmp x y with
            | Eq => json_cmp (JObj l) (JObj m)
            | c => c
            end
        | c => c
        end
    | c => c
    end.
Proof. reflexivity. Qed.

Lemma json_cmp_antisym j : forall k, json_cmp k j = CompOpp (json_cmp j k).
Proof.
  induction j as [|b|z|f|s|l IH|l IH] using json_ind'; intros k.
  - by destruct k.
  - destruct k; try done. apply bool_cmp_antisym.
  - destruct k; try done; [apply Z.compare_antisym | apply num_cmp_antisym].
  - destruct k; try done; apply num_cmp_antisym.
  - destruct k; try done. apply String.compare_antisym.
  - destruct k as [| | | | |m|]; try done.
    revert m. induction IH as [|x l Hx _ IHl]; intros [|y m]; try done.
    rewrite !json_cmp_arr_cons, (Hx y).
    destruct (json_cmp x y); cbn [CompOpp]; [apply IHl|reflexivity|reflexivity].
  - destruct k as [| | | | | |m]; try done.
    revert m. induction IH as [|[a x] l Hx _ IHl]; intros [|[b y] m]; try done.
    rewrite !json_cmp_obj_cons, (Nat.compare_antisym (jbracket x) (jbracket y)).
    destruct (Nat.compare (jbracket x) (jbracket y)); cbn [CompOpp]; try reflexivity.
    rewrite (String.compare_antisym b a).
    destruct (String.compare a b); cbn [CompOpp]; try reflexivity.
    cbn [snd] in Hx. rewrite (Hx y).
    destruct (json_cmp x y); cbn [CompOpp]; [apply IHl|reflexivity|reflexivity].
Qed.

Lemma bson_cmp_antisym a b : bson_cmp b a = CompOpp (bson_cmp a b).
Proof.
  destruct a, b; unfold bson_cmp;
    first [ apply Z.compare_antisym | apply String.compare_antisym
          | apply num_cmp_antisym | apply bool_cmp_antisym
          | apply json_cmp_antisym | done ].
Qed.

Lemma bson_leb_total a b : bson_leb a b = false -> bson_leb b a = true.
Proof.
  unfold bson_leb. rewrite (bson_cmp_antisym a b).
  by destruct (bson_cmp a b).
Qed.

Lemma key_leb_total a b : key_leb a b = false -> key_leb b a = true.
Proof.
  destruct a as [x|], b as [y|]; simpl; try done. apply bson_leb_total.
Qed.

Lemma bson_leb_int x y : bson_leb (VInt x) (VInt y) = true <-> (x <= y)%Z.
Proof.
  unfold bson_leb; simpl. unfold Z.le.
  destruct (x ?= y)%Z; split; intros H; try done.
Qed.

Lemma bson_leb_null v : bson_leb VNull v = true.
Proof. by destruct v. Qed.

(** ** [sort] returns a sorted rearrangement *)

Lemma insert_by_perm field d l : Permutation (insert_by field d l) (d :: l).
Proof.
  induction l as [|x r IH]; simpl; [done|].
  destruct (key_leb _ _); [done|].
  rewrite IH. apply perm_swap.
Qed.

Lemma sort_asc_perm field l : Permutation (sort_asc field l) l.
Proof.
  induction l as [|d l IH]; simpl; [done|].
  rewrite insert_by_perm. by constructor.
Qed.

Lemma insert_by_sorted field d l :
  Sorted (key_le field) l -> Sorted (key_le field) (insert_by field d l).
Proof.
  induction l as [|x r IH]; simpl; intros Hs.
  - repeat constructor.
  - destruct (key_leb (sort_key field d) (sort_key field x)) eqn:E.
    + constructor; [done|]. by constructor.
    + apply Sorted_inv in Hs as [Hr Hx].
      constructor; [by apply IH|].
      destruct r as [|y r]; simpl.
      * constructor. by apply key_leb_total.
      * destruct (key_leb (sort_key field d) (sort_key field y)).
        -- constructor. by apply key_leb_total.
        -- constructor. by apply HdRel_inv in Hx.
Qed.

Lemma sort_asc_sorted field l : Sorted (key_le field) (sort_asc field l).
Proof.
  induction l as [|d l IH]; simpl; [constructor|]. by apply insert_by_sorted.
Qed.

(** *** The order, as the entries of a listing show it *)

Lemma serialize_doc1_order d : serialize_doc1 d !! "order" = doc_fields d !! "order".
Proof.
  unfold serialize_doc1, to_dict.
  rewrite lookup_insert_ne by done. rewrite lookup_delete_ne by done.
  by rewrite lookup_insert_ne.
Qed.

Lemma key_le_place a b pa pb :
  key_le "order" a b ->
  place_of (serialize_doc1 a) = Some pa -> place_of (serialize_doc1 b) = Some pb ->
  place_le pa pb.
Proof.
  unfold key_le, sort_key, place_of, get_field. cbn [String.eqb Ascii.eqb Bool.eqb].
  rewrite !serialize_doc1_order.
  destruct (doc_fields a !! "order") as [[| |x| | | | | |]|];
    destruct (doc_fields b !! "order") as [[| |y| | | | | |]|];
    intros Hle Ha Hb; try discriminate Ha; try discriminate Hb;
    injection Ha as <-; injection Hb as <-; cbn [place_le]; try exact I;
    try discriminate Hle.
  apply Z.leb_le. unfold key_leb, bson_leb, bson_cmp in Hle. unfold Z.leb.
  by destruct (x ?= y)%Z.
Qed.

Lemma Sorted_neighbours {A} (R : A -> A -> Prop) l i a b :
  Sorted R l -> l !! i = Some a -> l !! S i = Some b -> R a b.
Proof.
  intros Hs. revert i. induction Hs as [|x l Hs IH Hx]; intros i Ha Hb; [discriminate Ha|].
  destruct i as [|i].
  - cbn in Ha, Hb. injection Ha as ->. destruct l as [|y l]; [discriminate Hb|].
    cbn in Hb. injection Hb as ->. by apply HdRel_inv in Hx.
  - by apply (IH i).
Qed.

Lemma place_le_trans a b c : place_le a b -> place_le b c -> place_le a c.
Proof. destruct a, b, c; cbn; try done. lia. Qed.

Lemma sorted_places docs : forall ps,
  Sorted (key_le "order") docs ->
  List.map place_of (serialize_docs docs) = List.map Some ps ->
  Sorted place_le ps.
Proof.
  induction docs as [|d docs IH]; intros [|p ps] Hs Hmap; try discriminate Hmap;
    [constructor|].
  cbn in Hmap. injection Hmap as Hp Hmap. apply Sorted_inv in Hs as [Hs Hd].
  constructor; [by apply IH|].
  destruct docs as [|d' docs]; destruct ps as [|p' ps]; try discriminate Hmap;
    [constructor|].
  cbn in Hmap. injection Hmap as Hp' _. constructor.
  apply HdRel_inv in Hd. by apply (key_le_place d d').
Qed.

(** What [sort("order", 1)] means for the entries returned. *)
Lemma sorted_ascending docs :
  Sorted (key_le "order") docs -> ascending (serialize_docs docs).
Proof.
  intros Hs. split.
  - intros i a b pa pb Ha Hb Hpa Hpb. unfold serialize_docs in Ha, Hb.
    change (List.map serialize_doc1 docs) with (serialize_doc1 <$> docs) in Ha, Hb.
    rewrite list_lookup_fmap in Ha, Hb.
    destruct (docs !! i) as [da|] eqn:Ea; [|discriminate Ha].
    destruct (docs !! S i) as [db0|] eqn:Eb; [|discriminate Hb].
    cbn in Ha, Hb. injection Ha as <-. injection Hb as <-.
    apply (key_le_place da db0); try done.
    by apply (Sorted_neighbours _ docs i).
  - intros ps Hmap. apply Sorted_StronglySorted.
    + intros a b c. apply place_le_trans.
    + by apply (sorted_places docs).
Qed.

(** ** Addressing a document by its [_id] *)

Lemma find_in_by_id_nil o l : o ∉ ids l -> find_in (by_id o) l = [].
Proof.
  induction l as [|d r IH]; simpl; intros Hn; [done|].
  rewrite not_elem_of_cons in Hn. destruct Hn as [Hd Hr].
  destruct (matches (by_id o) d) eqn:E.
  - apply matches_by_id in E. congruence.
  - by apply IH.
Qed.

Lemma find_one_in_by_id_None o l : o ∉ ids l -> find_one_in (by_id o) l = None.
Proof. intros H. unfold find_one_in. by rewrite find_in_by_id_nil. Qed.

Lemma find_one_in_by_id_split o l1 d l2 :
  doc_id d = o -> o ∉ ids l1 -> find_one_in (by_id o) (l1 ++ d :: l2) = Some d.
Proof.
  intros Hd Hn. unfold find_one_in, find_in.
  rewrite List.filter_app. fold (find_in (by_id o) l1). rewrite find_in_by_id_nil by done.
  simpl. apply matches_by_id in Hd. by rewrite Hd.
Qed.

(** The first document with a given [_id], when there is one. *)
Lemma ids_split o l :
  o ∈ ids l -> exists l1 d l2, l = (l1 ++ d :: l2)%list /\ doc_id d = o /\ o ∉ ids l1.
Proof.
  induction l as [|x r IH]; simpl; intros Hin; [by apply elem_of_nil in Hin|].
  destruct (decide (doc_id x = o)) as [E|E].
  - exists [], x, r. split; [done|]. split; [done|]. apply not_elem_of_nil.
  - apply elem_of_cons in Hin as [Hin|Hin]; [congruence|].
    destruct (IH Hin) as (l1 & d & l2 & -> & Hd & Hn).
    exists (x :: l1), d, l2. split; [done|]. split; [done|].
    simpl. apply not_elem_of_cons. split; [congruence|done].
Qed.

Lemma update_first_by_id_None o u l : o ∉ ids l -> update_first (by_id o) u l = None.
Proof.
  induction l as [|d r IH]; simpl; intros Hn; [done|].
  rewrite not_elem_of_cons in Hn. destruct Hn as [Hd Hr].
  destruct (matches (by_id o) d) eqn:E.
  - apply matches_by_id in E. congruence.
  - by rewrite IH.
Qed.

Lemma update_first_by_id_split o u l1 d l2 :
  doc_id d = o -> o ∉ ids l1 ->
  update_first (by_id o) u (l1 ++ d :: l2) =
    Some (match apply_update u (doc_fields d) with
          | Some f => Some (l1 ++ Doc o f :: l2)%list
          | None => None
          end).
Proof.
  intros Hd. induction l1 as [|x l1 IH]; simpl; intros Hn.
  - apply matches_by_id in Hd as Hm. rewrite Hm. rewrite Hd. by destruct (apply_update _ _).
  - rewrite not_elem_of_cons in Hn. destruct Hn as [Hx Hn].
    assert (matches (by_id o) x = false) as ->.
    { apply matches_by_id_false. congruence. }
    rewrite IH by done. by destruct (apply_update _ _).
Qed.

Lemma update_first_by_id_inv o u l r :
  update_first (by_id o) u l = Some r ->
  exists l1 d l2, l = (l1 ++ d :: l2)%list /\ doc_id d = o /\ (o ∉ ids l1) /\
    r = match apply_update u (doc_fields d) with
        | Some f => Some (l1 ++ Doc o f :: l2)%list
        | None => None
        end.
Proof.
  intros H. destruct (decide (o ∈ ids l)) as [Hin|Hn].
  - destruct (ids_split o l Hin) as (l1 & d & l2 & -> & Hd & Hn).
    exists l1, d, l2. rewrite update_first_by_id_split in H by done.
    injection H as <-. done.
  - rewrite update_first_by_id_None in H by done. discriminate.
Qed.

Lemma delete_first_by_id_None o l : o ∉ ids l -> delete_first (by_id o) l = None.
Proof.
  induction l as [|d r IH]; simpl; intros Hn; [done|].
  rewrite not_elem_of_cons in Hn. destruct Hn as [Hd Hr].
  destruct (matches (by_id o) d) eqn:E.
  - apply matches_by_id in E. congruence.
  - by rewrite IH.
Qed.

Lemma delete_first_by_id_split o l1 d l2 :
  doc_id d = o -> o ∉ ids l1 ->
  delete_first (by_id o) (l1 ++ d :: l2) = Some (l1 ++ l2)%list.
Proof.
  intros Hd. induction l1 as [|x l1 IH]; simpl; intros Hn.
  - apply matches_by_id in Hd as Hm. by rewrite Hm.
  - rewrite not_elem_of_cons in Hn. destruct Hn as [Hx Hn].
    assert (matches (by_id o) x = false) as ->.
    { apply matches_by_id_false. congruence. }
    by rewrite IH.
Qed.

Lemma ids_app l1 l2 : ids (l1 ++ l2) = (ids l1 ++ ids l2)%list.
Proof. apply List.map_app. Qed.

(** With unique identifiers, nothing is left under an identifier once its
    first document is gone. *)
Lemma NoDup_ids_split o l1 d l2 :
  NoDup (ids (l1 ++ d :: l2)) -> doc_id d = o -> (o ∉ ids l1) /\ (o ∉ ids l2).
Proof.
  rewrite ids_app. simpl. intros Hnd Hd.
  apply NoDup_app in Hnd as (H1 & H12 & H2).
  apply NoDup_cons in H2 as [Hd2 H2]. split; [|congruence].
  intros Hin. apply (H12 _ Hin). rewrite <- Hd. apply elem_of_cons. by left.
Qed.

(** ** Python and bson helpers *)

Lemma ObjectId_nonempty s o : ObjectId s = Some o -> s <> "".
Proof. intros H ->. discriminate. Qed.

Lemma object_id_Some s o db : ObjectId s = Some o -> object_id s db = (Ok o, db).
Proof. unfold object_id. by intros ->. Qed.

Lemma object_id_None s db : ObjectId s = None -> object_id s db = (Raise InvalidId, db).
Proof. unfold object_id. by intros ->. Qed.

Lemma to_dict_lookup d k : k <> "_id" -> to_dict d !! k = doc_fields d !! k.
Proof. intros H. unfold to_dict. by rewrite lookup_insert_ne. Qed.

Lemma get_field_ne d k : k <> "_id" -> get_field d k = doc_fields d !! k.
Proof.
  intros H. unfold get_field. destruct (String.eqb_spec k "_id"); [done|done].
Qed.

(** ** Reading the data version *)

Lemma find_in_all l : find_in [] l = l.
Proof.
  unfold find_in. induction l as [|d r IH]; simpl; [done|]. by rewrite IH.
Qed.

Lemma find_one_settings db : find_one c_settings [] db = (Ok (head (settings db)), db).
Proof. unfold find_one, find_one_in. by rewrite find_in_all. Qed.

Lemma serialize_doc1_lookup d k :
  k <> "id" -> k <> "_id" -> serialize_doc1 d !! k = doc_fields d !! k.
Proof.
  intros H1 H2. unfold serialize_doc1, to_dict.
  rewrite lookup_insert_ne by done. rewrite lookup_delete_ne by done.
  by rewrite lookup_insert_ne.
Qed.

Lemma get_data_version_eq e db :
  get_data_version e db =
    (Ok {| vi_dataVersion := stored_version db; vi_timestamp := utcnow e |}, db).
Proof.
  unfold get_data_version, bind. rewrite find_one_settings. unfold ret, stored_version.
  destruct (settings db) as [|s r]; simpl; [done|].
  unfold dict_get. by rewrite to_dict_lookup.
Qed.

Lemma get_public_data_version e db :
  exists pd, get_public_data e db = (Ok pd, db) /\ pd_dataVersion pd = stored_version db.
Proof.
  unfold get_public_data, bind. rewrite find_one_settings. unfold find_sorted, ret.
  eexists. split; [reflexivity|]. simpl. unfold stored_version.
  destruct (settings db) as [|s r]; simpl; [done|].
  unfold dict_get. by rewrite serialize_doc1_lookup.
Qed.

(** C4.  On one and the same database (no mutation between the two calls)
    the [dataVersion] of GET /api/public/data equals the one of
    GET /api/public/version, neither call changes the database, and both
    report 1 when the settings collection holds no document or its document
    has no [data_version] field. *)
Theorem snapshot_version_agrees (e1 e2 : Env) (db : DB) :
  exists pd vi,
    get_public_data e1 db = (Ok pd, db) /\
    get_data_version e2 db = (Ok vi, db) /\
    pd_dataVersion pd = vi_dataVersion vi /\
    ((settings db = [] \/
      exists s r, settings db = s :: r /\ doc_fields s !! "data_version" = None) ->
     pd_dataVersion pd = VInt 1 /\ vi_dataVersion vi = VInt 1).
Proof.
  destruct (get_public_data_version e1 db) as (pd & Hpd & Hv).
  exists pd. eexists. split; [done|]. split; [apply get_data_version_eq|].
  simpl. split; [done|]. rewrite Hv.
  intros [Hs | (s & r & Hs & Hf)]; unfold stored_version; rewrite Hs; [done|].
  unfold dict_get. by rewrite Hf.
Qed.

(** ** Listing menu items *)

Lemma field_eqb_str o c :
  field_eqb o (VStr c) = match o with Some (VStr s) => String.eqb s c | _ => false end.
Proof.
  destruct o as [w|]; simpl; [|done].
  destruct (bson_eqb w (VStr c)) eqn:E.
  - apply bson_eqb_str in E as ->. by rewrite String.eqb_refl.
  - destruct w; try done. destruct (String.eqb_spec s c) as [->|]; [|done].
    assert (bson_eqb (VStr c) (VStr c) = true) by by apply bson_eqb_str. congruence.
Qed.

Lemma field_eqb_false o :
  field_eqb o (VBool false) = match o with Some (VBool false) => true | _ => false end.
Proof.
  destruct o as [w|]; simpl; [|done].
  destruct (bson_eqb w (VBool false)) eqn:E.
  - by apply bson_eqb_false in E as ->.
  - destruct w as [|[]| | | | | | |]; try done.
Qed.

Lemma matches_category c d :
  matches [("category_id", QEq (VStr c))] d = in_category c d.
Proof.
  unfold matches; simpl. rewrite andb_true_r. rewrite get_field_ne by done.
  apply field_eqb_str.
Qed.

Lemma matches_published d :
  matches [("is_published", QNe (VBool false))] d = not_unpublished d.
Proof.
  unfold matches; simpl. rewrite andb_true_r. rewrite get_field_ne by done.
  rewrite field_eqb_false. unfold not_unpublished.
  by destruct (doc_fields d !! "is_published") as [[|[]| | | | | | |]|].
Qed.

Lemma matches_app q1 q2 d : matches (q1 ++ q2) d = matches q1 d && matches q2 d.
Proof. unfold matches. apply forallb_app. Qed.

Lemma filter_ext_bool {A} (f g : A -> bool) l :
  (forall x, f x = g x) -> List.filter f l = List.filter g l.
Proof. intros H. induction l as [|x l IH]; simpl; [done|]. by rewrite H, IH. Qed.

Lemma get_menu_items_published category_id db :
  exists docs,
    get_menu_items category_id (Some true) db = (Ok (serialize_docs docs), db) /\
    Permutation docs (List.filter (selected category_id) (menu_items db)) /\
    Sorted (key_le "order") docs.
Proof.
  unfold get_menu_items, bind, find_sorted, ret. simpl get_coll.
  eexists. split; [reflexivity|]. split; [|apply sort_asc_sorted].
  rewrite sort_asc_perm. unfold find_in.
  erewrite filter_ext_bool; [reflexivity|]. intros d. unfold selected.
  destruct category_id as [c|]; [destruct (String.eqb c "")|];
    rewrite ?matches_app, ?matches_category, ?matches_published, ?matches_all;
    by destruct (not_unpublished d); try destruct (in_category c d).
Qed.

(** C8.  A listing with [published_only = true] returns, serialized, exactly
    the stored items whose [is_published] is not explicitly [false] (absent
    and [true] both pass) that also lie in the category when a non-empty
    [category_id] is given, in ascending order of their [order] field: in the
    order of MongoDB on the stored values, which for the entries returned
    means that items without an [order] come first and integer orders follow
    from the smallest to the largest; the database is left as it was. *)
Theorem published_only_listing (category_id : option string) (db : DB) :
  exists docs,
    get_menu_items category_id (Some true) db = (Ok (serialize_docs docs), db) /\
    Permutation docs (List.filter (selected category_id) (menu_items db)) /\
    Sorted (key_le "order") docs /\
    ascending (serialize_docs docs).
Proof.
  destruct (get_menu_items_published category_id db) as (docs & Hget & Hperm & Hs).
  exists docs. split; [exact Hget|]. split; [exact Hperm|]. split; [exact Hs|].
  by apply sorted_ascending.
Qed.

(** On the menu stored with the orders 9, 5 (unpublished), none, 1: the
    published items come back as none, 1, 9. *)
Lemma published_only_listing_witness :
  List.map (fun d => doc_fields d !! "order") (menu_items Menu.db)
    = [Some (VInt 9); Some (VInt 5); None; Some (VInt 1)] /\
  exists items,
    get_menu_items None (Some true) Menu.db = (Ok items, Menu.db) /\
    List.map (fun item => item !! "order") items = [None; Some (VInt 1); Some (VInt 9)] /\
    ascending items /\
    StronglySorted place_le [Unplaced; Placed 1; Placed 9].
Proof.
  split; [reflexivity|].
  destruct (published_only_listing None Menu.db) as (docs & Hget & _ & _ & [Hn Hall]).
  exists (serialize_docs docs). split; [exact Hget|].
  assert (fst (get_menu_items None (Some true) Menu.db)
          = Ok (serialize_docs [Demo.kebab; Menu.ayran; Menu.lahmacun])) as Hrun
    by (vm_compute; reflexivity).
  rewrite Hget in Hrun. cbn [fst] in Hrun. injection Hrun as Hrun.
  split; [rewrite Hrun; reflexivity|]. split; [exact (conj Hn Hall)|].
  apply Hall. rewrite Hrun. reflexivity.
Defined.

(** ** Running the handler monad *)

Lemma bind_Ok {A B} (m : M A) (k : A -> M B) db a db1 :
  m db = (Ok a, db1) -> bind m k db = k a db1.
Proof. unfold bind. by intros ->. Qed.

Lemma bind_Raise {A B} (m : M A) (k : A -> M B) db e db1 :
  m db = (Raise e, db1) -> bind m k db = (Raise e, db1).
Proof. unfold bind. by intros ->. Qed.

Lemma bind_Ok_inv {A B} (m : M A) (k : A -> M B) db b db' :
  bind m k db = (Ok b, db') ->
  exists a db1, m db = (Ok a, db1) /\ k a db1 = (Ok b, db').
Proof.
  unfold bind. destruct (m db) as [[a|e] db1]; intros H; [|discriminate].
  by exists a, db1.
Qed.

Lemma same_except_refl c db : same_except c db db.
Proof. by intros c' _. Qed.

Lemma same_except_set c l db : same_except c db (set_coll c l db).
Proof. intros c' H. by apply get_set_coll_ne. Qed.

(** ** Encoding a dict, and reading it back *)

Lemma encode_error_None (d : dict) :
  encode_error d = None <->
  forall k v, d !! k = Some v -> field_encode_error (k, v) = None.
Proof.
  unfold encode_error. split.
  - intros H k v Hkv.
    destruct (omap field_encode_error (map_to_list d)) as [|e0 l] eqn:E; [|discriminate].
    destruct (field_encode_error (k, v)) as [err|] eqn:F; [|reflexivity].
    assert (err ∈ omap field_encode_error (map_to_list d)) as Hin.
    { apply list_elem_of_omap. exists (k, v). split; [|exact F].
      by apply elem_of_map_to_list. }
    rewrite E in Hin. by apply elem_of_nil in Hin.
  - intros H.
    destruct (omap field_encode_error (map_to_list d)) as [|e0 l] eqn:E; [reflexivity|].
    assert (e0 ∈ omap field_encode_error (map_to_list d)) as Hin.
    { rewrite E. apply elem_of_cons. by left. }
    apply list_elem_of_omap in Hin as ([k v] & Hin & F).
    apply elem_of_map_to_list in Hin. rewrite (H k v Hin) in F. discriminate F.
Qed.

Lemma encode_error_Some (d : dict) err :
  encode_error d = Some err ->
  exists k v, d !! k = Some v /\ field_encode_error (k, v) = Some err.
Proof.
  unfold encode_error. intros H.
  destruct (omap field_encode_error (map_to_list d)) as [|e0 l] eqn:E; [discriminate H|].
  injection H as ->.
  assert (err ∈ omap field_encode_error (map_to_list d)) as Hin.
  { rewrite E. apply elem_of_cons. by left. }
  apply list_elem_of_omap in Hin as ([k v] & Hin & F).
  apply elem_of_map_to_list in Hin. by exists k, v.
Qed.

Lemma encode_error_empty : encode_error ∅ = None.
Proof. apply encode_error_None. intros k v H. by rewrite lookup_empty in H. Qed.

Lemma encode_error_insert (d : dict) k v :
  field_encode_error (k, v) = None -> encode_error d = None ->
  encode_error (<[k := v]> d) = None.
Proof.
  rewrite !encode_error_None. intros Hv Hd k' v' H.
  destruct (decide (k = k')) as [<-|Hne].
  - rewrite lookup_insert_eq in H. by injection H as <-.
  - rewrite lookup_insert_ne in H by done. by apply Hd.
Qed.

Lemma encode_error_drop_None (d : dict) :
  encode_error d = None -> encode_error (drop_None d) = None.
Proof.
  rewrite !encode_error_None. intros Hd k v H.
  apply map_lookup_filter_Some in H as [H _]. by apply Hd.
Qed.

Lemma encode_error_list (l : list (string * value)) :
  Forall (fun kv => field_encode_error kv = None) l -> encode_error (list_to_map l) = None.
Proof.
  induction 1 as [|[k v] l Hv Hl IH]; cbn [list_to_map foldr uncurry];
    [apply encode_error_empty|].
  by apply encode_error_insert.
Qed.

(** An update dict whose only field that can fail is an integer. *)
Lemma encode_error_overflow (d : dict) :
  (forall k v, d !! k = Some v ->
     field_encode_error (k, v) = None \/ field_encode_error (k, v) = Some OverflowError) ->
  (exists k v, d !! k = Some v /\ field_encode_error (k, v) <> None) ->
  encode_error d = Some OverflowError.
Proof.
  intros Hall (k & v & Hkv & Hbad).
  destruct (encode_error d) as [err|] eqn:E.
  - apply encode_error_Some in E as (k' & v' & Hkv' & F).
    destruct (Hall k' v' Hkv') as [H|H]; congruence.
  - exfalso. apply Hbad. by apply (proj1 (encode_error_None d)).
Qed.

Lemma stored_dateless (d : dict) : dateless d -> stored <$> d = d.
Proof.
  intros H. apply map_eq. intros k. rewrite lookup_fmap.
  destruct (d !! k) as [v|] eqn:E; [|reflexivity]. simpl. by rewrite (H k v E).
Qed.

Lemma dateless_empty : dateless ∅.
Proof. intros k v H. by rewrite lookup_empty in H. Qed.

Lemma dateless_insert (d : dict) k v : stored v = v -> dateless d -> dateless (<[k := v]> d).
Proof.
  intros Hv Hd k' v' H. destruct (decide (k = k')) as [<-|Hne].
  - rewrite lookup_insert_eq in H. by injection H as <-.
  - rewrite lookup_insert_ne in H by done. by apply (Hd k').
Qed.

Lemma dateless_drop_None (d : dict) : dateless d -> dateless (drop_None d).
Proof.
  intros Hd k v H. apply map_lookup_filter_Some in H as [H _]. by apply (Hd k).
Qed.

Lemma dateless_list (l : list (string * value)) :
  Forall (fun kv => stored (snd kv) = snd kv) l -> dateless (list_to_map l).
Proof.
  induction 1 as [|[k v] l Hv Hl IH]; cbn [list_to_map foldr uncurry];
    [apply dateless_empty|].
  by apply dateless_insert.
Qed.


Lemma stored_opt_str o : stored (opt_str o) = opt_str o.
Proof. by destruct o. Qed.

Lemma stored_opt_int o : stored (opt_int o) = opt_int o.
Proof. by destruct o. Qed.

Lemma stored_opt_bool o : stored (opt_bool o) = opt_bool o.
Proof. by destruct o. Qed.

Lemma stored_opt_float o : stored (opt_float o) = opt_float o.
Proof. by destruct o. Qed.

Ltac dateless_fields :=
  apply dateless_list;
  repeat first [ apply List.Forall_nil | apply List.Forall_cons ];
  cbn [snd];
  first [ reflexivity | apply stored_opt_str | apply stored_opt_int
        | apply stored_opt_bool | apply stored_opt_float ].

Lemma dateless_CategoryCreate data : dateless (CategoryCreate_dict data).
Proof. unfold CategoryCreate_dict. dateless_fields. Qed.

Lemma dateless_CategoryUpdate data : dateless (CategoryUpdate_dict data).
Proof. unfold CategoryUpdate_dict. dateless_fields. Qed.

Lemma dateless_MenuItemCreate data : dateless (MenuItemCreate_dict data).
Proof. unfold MenuItemCreate_dict. dateless_fields. Qed.

Lemma dateless_MenuItemUpdate data : dateless (MenuItemUpdate_dict data).
Proof. unfold MenuItemUpdate_dict. dateless_fields. Qed.

Lemma dateless_SettingsUpdate data : dateless (SettingsUpdate_dict data).
Proof. unfold SettingsUpdate_dict. dateless_fields. Qed.

(** The time stamp is stored in milliseconds, the payload as it is. *)
Lemma stored_stamped (payload : dict) k now :
  dateless payload ->
  stored <$> (<[k := VDate now]> payload) = <[k := VDate (millis now)]> payload.
Proof. intros H. by rewrite fmap_insert, (stored_dateless _ H). Qed.

(** ** The calls on a collection, by cases *)

Lemma update_one_absent c o u db :
  update_encode_error u = None ->
  o ∉ ids (get_coll c db) -> update_one c (by_id o) u db = (Ok 0%nat, db).
Proof. intros He H. unfold update_one. rewrite He. by rewrite update_first_by_id_None. Qed.

Lemma update_one_unencodable c q u db err :
  update_encode_error u = Some err -> update_one c q u db = (Raise err, db).
Proof. intros He. unfold update_one. by rewrite He. Qed.


Lemma update_one_set_inv c o f db n db' :
  update_one c (by_id o) (USet f) db = (Ok n, db') ->
  encode_error f = None /\
  ((n = 0%nat /\ db' = db /\ o ∉ ids (get_coll c db)) \/
   (n = 1%nat /\ exists l1 d l2,
       get_coll c db = (l1 ++ d :: l2)%list /\ doc_id d = o /\ (o ∉ ids l1) /\
       db' = set_coll c (l1 ++ Doc o ((stored <$> f) ∪ doc_fields d) :: l2) db)).
Proof.
  unfold update_one. cbn [update_encode_error].
  destruct (encode_error f) as [err|]; [discriminate|]. split; [reflexivity|].
  revert H. destruct (update_first _ _ _) as [r|] eqn:E.
  - apply update_first_by_id_inv in E as (l1 & d & l2 & Hl & Hd & Hn & ->).
    unfold apply_update. intros H. injection H as <- <-.
    right. split; [done|]. by exists l1, d, l2.
  - intros H. injection H as <- <-. left. split; [done|]. split; [done|].
    intros Hin. apply ids_split in Hin as (l1 & d & l2 & Hl & Hd & Hn).
    rewrite Hl in E. rewrite update_first_by_id_split in E by done. discriminate.
Qed.

Lemma delete_one_absent c o db :
  o ∉ ids (get_coll c db) -> delete_one c (by_id o) db = (Ok 0%nat, db).
Proof. intros H. unfold delete_one. by rewrite delete_first_by_id_None. Qed.

Lemma delete_one_split c o db l1 d l2 :
  get_coll c db = (l1 ++ d :: l2)%list -> doc_id d = o -> o ∉ ids l1 ->
  delete_one c (by_id o) db = (Ok 1%nat, set_coll c (l1 ++ l2) db).
Proof.
  intros Hl Hd Hn. unfold delete_one. rewrite Hl.
  by rewrite delete_first_by_id_split.
Qed.

Lemma find_one_absent c o db :
  o ∉ ids (get_coll c db) -> find_one c (by_id o) db = (Ok None, db).
Proof. intros H. unfold find_one. by rewrite find_one_in_by_id_None. Qed.

Lemma find_one_split c o db l1 d l2 :
  get_coll c db = (l1 ++ d :: l2)%list -> doc_id d = o -> o ∉ ids l1 ->
  find_one c (by_id o) db = (Ok (Some d), db).
Proof.
  intros Hl Hd Hn. unfold find_one. rewrite Hl. by rewrite find_one_in_by_id_split.
Qed.

(** ** The increment of the data version *)

Lemma update_first_all u d r :
  update_first [] u (d :: r) =
    Some (match apply_update u (doc_fields d) with
          | Some f => Some (Doc (doc_id d) f :: r)
          | None => None
          end).
Proof. done. Qed.

Lemma upsert_same_except u o db :
  same_except c_settings db (snd (update_one_upsert c_settings u o db)).
Proof.
  unfold update_one_upsert.
  destruct (update_encode_error u); [apply same_except_refl|].
  destruct (update_first _ _ _) as [[l|]|]; simpl; try apply same_except_refl;
    try apply same_except_set.
  destruct (apply_update u ∅); simpl; [apply same_except_set | apply same_except_refl].
Qed.

Lemma settings_set_coll l db : settings (set_coll c_settings l db) = l.
Proof. done. Qed.

(** The increment on a well-formed counter: it returns, touches only the
    settings, stores 1 in an absent field and [v + 1] over [v]. *)
Lemma inc_data_version_wf e db :
  version_wf db ->
  exists n db',
    inc_data_version e db = (Ok n, db') /\
    same_except c_settings db db' /\
    counter_field db' =
      Some (VInt (match counter_field db with Some (VInt v) => v + 1 | _ => 1 end)).
Proof.
  intros [v Hv]. pose proof (upsert_same_except (UInc1 "data_version") (upsert_oid e) db) as Hfr.
  unfold update_one_upsert in *. change (update_encode_error (UInc1 "data_version")) with (@None error) in *.
  cbv iota in *. unfold stored_version, dict_get in Hv.
  unfold counter_field. simpl get_coll in *.
  destruct (settings db) as [|s r] eqn:Hs.
  - simpl in *. eexists _, _. split; [reflexivity|]. split; [done|].
    rewrite settings_set_coll. simpl. by rewrite lookup_insert_eq.
  - rewrite update_first_all in *. unfold apply_update in *.
    destruct (doc_fields s !! "data_version") as [[| |z| | | | | |]|] eqn:Hf;
      simpl in Hv; try discriminate.
    + eexists _, _. split; [reflexivity|]. split; [done|].
      rewrite settings_set_coll. simpl. by rewrite lookup_insert_eq.
    + eexists _, _. split; [reflexivity|]. split; [done|].
      rewrite settings_set_coll. simpl. by rewrite lookup_insert_eq.
Qed.

(** ** Partial updates *)

Lemma drop_None_lookup_Some d k v :
  d !! k = Some v -> v <> VNull -> drop_None d !! k = Some v.
Proof.
  intros H Hv. unfold drop_None. apply map_lookup_filter_Some. split; [done|].
  simpl. by destruct v.
Qed.

Lemma drop_None_lookup_None d k :
  d !! k = None \/ d !! k = Some VNull -> drop_None d !! k = None.
Proof.
  intros H. unfold drop_None. apply map_lookup_filter_None.
  destruct H as [H|H]; [by left|]. right. intros v Hv. simpl.
  rewrite H in Hv. injection Hv as <-. done.
Qed.

(** What [$set] of the non-null fields and the time stamp does to the fields
    of a document. *)
Lemma set_update_data_fields (payload f : dict) now :
  dateless payload ->
  let f' := (stored <$> <["updated_at" := VDate now]> (drop_None payload)) ∪ f in
  f' !! "updated_at" = Some (VDate (millis now)) /\
  (forall k v, k <> "updated_at" -> payload !! k = Some v -> v <> VNull -> f' !! k = Some v) /\
  (forall k, k <> "updated_at" -> payload !! k = None \/ payload !! k = Some VNull ->
             f' !! k = f !! k).
Proof.
  intros Hd. cbv zeta. rewrite (stored_stamped _ _ _ (dateless_drop_None _ Hd)).
  split; [|split].
  - apply lookup_union_Some_l. apply lookup_insert_eq.
  - intros k v Hk Hp Hv. apply lookup_union_Some_l.
    rewrite lookup_insert_ne by done. by apply drop_None_lookup_Some.
  - intros k Hk Hp. apply lookup_union_r.
    rewrite lookup_insert_ne by done. by apply drop_None_lookup_None.
Qed.

(** The common course of the two update handlers once the payload is known
    to be non-empty. *)
Lemma update_by_id_inv c id (update_data : dict) e msg db r db' :
  (oid <- object_id id ;;
   matched_count <- update_one c (by_id oid) (USet update_data) ;;
   if Nat.eqb matched_count 0 then raise (HTTPException 404 msg) else
   inc_data_version e ;;;
   oid <- object_id id ;;
   doc <- find_one c (by_id oid) ;;
   ret (serialize_doc doc)) db = (Ok r, db') ->
  c <> c_settings ->
  exists oid l1 d l2,
    ObjectId id = Some oid /\
    get_coll c db = (l1 ++ d :: l2)%list /\ doc_id d = oid /\ (oid ∉ ids l1) /\
    get_coll c db' = (l1 ++ Doc oid ((stored <$> update_data) ∪ doc_fields d) :: l2)%list /\
    r = Some (serialize_doc1 (Doc oid ((stored <$> update_data) ∪ doc_fields d))) /\
    (forall c', c' <> c -> c' <> c_settings -> get_coll c' db' = get_coll c' db).
Proof.
  intros H Hc.
  apply bind_Ok_inv in H as (oid & db1 & Hoid & H).
  unfold object_id in Hoid. destruct (ObjectId id) as [o|] eqn:Eo; [|discriminate].
  injection Hoid as <- <-.
  apply bind_Ok_inv in H as (n & db1 & Hup & H).
  apply update_one_set_inv in Hup
    as [_ [(-> & _ & _)|(-> & l1 & d & l2 & Hl & Hd & Hn & ->)]]; [discriminate|].
  simpl in H.
  apply bind_Ok_inv in H as (n & db2 & Hinc & H).
  pose proof (upsert_same_except (UInc1 "data_version") (upsert_oid e)
                (set_coll c (l1 ++ Doc o ((stored <$> update_data) ∪ doc_fields d) :: l2) db))
    as Hfr.
  rewrite Hinc in Hfr. simpl in Hfr.
  assert (get_coll c db2 = (l1 ++ Doc o ((stored <$> update_data) ∪ doc_fields d) :: l2)%list)
    as Hl2.
  { rewrite Hfr by done. apply get_set_coll. }
  rewrite (bind_Ok _ _ _ _ _ (object_id_Some _ _ _ Eo)) in H.
  rewrite (bind_Ok _ _ _ _ _ (find_one_split c o db2 l1 _ l2 Hl2 eq_refl Hn)) in H.
  injection H as <- <-.
  exists o, l1, d, l2. repeat split; try done.
  intros c' H1 H2. rewrite Hfr by done. by apply get_set_coll_ne.
Qed.

(** C6.  A successful update of a menu item changes the one stored item
    with that [_id] and nothing else in the collection (nor in any collection
    but the settings, which take the version increment): in that item
    [updated_at] is the time of the call (to the millisecond, as BSON keeps
    a date), every field supplied with a non-null value holds that value,
    and every other field, the [_id] included, is what it was. *)
Theorem update_menu_item_frame (item_id : string) (data : MenuItemUpdate) (e : Env)
    (db db' : DB) (r : option dict) :
  update_menu_item item_id data e db = (Ok r, db') ->
  exists oid l1 d l2 d',
    ObjectId item_id = Some oid /\
    menu_items db = (l1 ++ d :: l2)%list /\ doc_id d = oid /\ (oid ∉ ids l1) /\
    menu_items db' = (l1 ++ d' :: l2)%list /\ doc_id d' = oid /\
    r = Some (serialize_doc1 d') /\
    doc_fields d' !! "updated_at" = Some (VDate (millis (utcnow e))) /\
    (forall k v, k <> "updated_at" -> MenuItemUpdate_dict data !! k = Some v ->
                 v <> VNull -> doc_fields d' !! k = Some v) /\
    (forall k, k <> "updated_at" ->
               MenuItemUpdate_dict data !! k = None \/
               MenuItemUpdate_dict data !! k = Some VNull ->
               doc_fields d' !! k = doc_fields d !! k) /\
    (forall c, c <> c_menu_items -> c <> c_settings -> get_coll c db' = get_coll c db).
Proof.
  unfold update_menu_item. intros H.
  destruct (decide (drop_None (MenuItemUpdate_dict data) = ∅)) as [|_]; [discriminate|].
  apply update_by_id_inv in H as (oid & l1 & d & l2 & Ho & Hl & Hd & Hn & Hl' & -> & Hfr);
    [|done].
  exists oid, l1, d, l2,
    (Doc oid ((stored <$> <["updated_at" := VDate (utcnow e)]>
                             (drop_None (MenuItemUpdate_dict data))) ∪ doc_fields d)).
  destruct (set_update_data_fields (MenuItemUpdate_dict data) (doc_fields d) (utcnow e)
              (dateless_MenuItemUpdate data))
    as (H1 & H2 & H3).
  repeat split; try done.
Qed.

(** A handler that evaluates to a result has returned. *)
Lemma returns_inv {A} (out : result A * DB) :
  match fst out with Ok _ => True | Raise _ => False end ->
  exists a db', out = (Ok a, db').
Proof. destruct out as [[a|e] db']; simpl; [by exists a, db' | done]. Qed.

Lemma update_menu_item_frame_witness :
  exists r db',
    update_menu_item Demo.id_kebab Demo.price_update Demo.env Demo.db = (Ok r, db') /\
    exists oid l1 d l2 d',
      ObjectId Demo.id_kebab = Some oid /\
      menu_items Demo.db = (l1 ++ d :: l2)%list /\ doc_id d = oid /\ (oid ∉ ids l1) /\
      menu_items db' = (l1 ++ d' :: l2)%list /\ doc_id d' = oid /\
      r = Some (serialize_doc1 d') /\
      doc_fields d' !! "updated_at" = Some (VDate (millis (utcnow Demo.env))) /\
      (forall k v, k <> "updated_at" -> MenuItemUpdate_dict Demo.price_update !! k = Some v ->
                   v <> VNull -> doc_fields d' !! k = Some v) /\
      (forall k, k <> "updated_at" ->
                 MenuItemUpdate_dict Demo.price_update !! k = None \/
                 MenuItemUpdate_dict Demo.price_update !! k = Some VNull ->
                 doc_fields d' !! k = doc_fields d !! k) /\
      (forall c, c <> c_menu_items -> c <> c_settings -> get_coll c db' = get_coll c Demo.db).
Proof.
  destruct (returns_inv (update_menu_item Demo.id_kebab Demo.price_update Demo.env Demo.db))
    as (r & db' & E); [vm_compute; exact I|].
  exists r, db'. split; [exact E|].
  apply update_menu_item_frame. exact E.
Defined.

(** ** Rejected updates *)

Lemma drop_None_empty payload : no_field payload -> drop_None payload = ∅.
Proof.
  intros H. apply map_eq. intros k. rewrite lookup_empty.
  apply drop_None_lookup_None. destruct (payload !! k) as [v|] eqn:E; [|by left].
  right. by rewrite (H k v E).
Qed.

Lemma drop_None_nonempty payload : has_field payload -> drop_None payload <> ∅.
Proof.
  intros (k & v & Hk & Hv) He.
  pose proof (drop_None_lookup_Some payload k v Hk Hv) as H.
  rewrite He in H. by rewrite lookup_empty in H.
Qed.

Lemma update_category_empty id cu e db :
  no_field (CategoryUpdate_dict cu) ->
  update_category id cu e db = (Raise (HTTPException 400 "No data to update"), db).
Proof.
  intros H. unfold update_category. rewrite (drop_None_empty _ H).
  by destruct (decide _).
Qed.

Lemma update_menu_item_empty id mu e db :
  no_field (MenuItemUpdate_dict mu) ->
  update_menu_item id mu e db = (Raise (HTTPException 400 "No data to update"), db).
Proof.
  intros H. unfold update_menu_item. rewrite (drop_None_empty _ H).
  by destruct (decide _).
Qed.

Lemma update_settings_empty su e db :
  no_field (SettingsUpdate_dict su) ->
  update_settings su e db = (Raise (HTTPException 400 "No data to update"), db).
Proof.
  intros H. unfold update_settings. rewrite (drop_None_empty _ H).
  by destruct (decide _).
Qed.

(** *** Which update payloads pymongo encodes *)

Lemma fields_of_stamped (P : string * value -> Prop) (l : list (string * value)) k0 v0 :
  P (k0, v0) -> Forall P l ->
  forall k v, <[k0 := v0]> (drop_None (list_to_map l)) !! k = Some v -> P (k, v).
Proof.
  intros H0 Hl k v H. destruct (decide (k0 = k)) as [<-|Hne].
  - rewrite lookup_insert_eq in H. by injection H as <-.
  - rewrite lookup_insert_ne in H by done.
    apply map_lookup_filter_Some in H as [H _].
    apply elem_of_list_to_map_2 in H. rewrite Forall_forall in Hl. by apply Hl.
Qed.

Lemma field_ok_opt_str k o : has_nul k = false -> field_encode_error (k, opt_str o) = None.
Proof. unfold field_encode_error; cbn [fst snd]. intros ->. by destruct o. Qed.

Lemma field_ok_opt_bool k o : has_nul k = false -> field_encode_error (k, opt_bool o) = None.
Proof. unfold field_encode_error; cbn [fst snd]. intros ->. by destruct o. Qed.

Lemma field_ok_opt_float k o : has_nul k = false -> field_encode_error (k, opt_float o) = None.
Proof. unfold field_encode_error; cbn [fst snd]. intros ->. by destruct o. Qed.

Lemma field_ok_opt_int k o :
  has_nul k = false -> fits_int64 o -> field_encode_error (k, opt_int o) = None.
Proof.
  unfold field_encode_error; cbn [fst snd]. intros -> H.
  destruct o as [z|]; [|reflexivity]. cbn [opt_int value_encode_error]. by rewrite (H z eq_refl).
Qed.

Lemma field_opt_int_cases k o :
  has_nul k = false ->
  field_encode_error (k, opt_int o) = None \/
  field_encode_error (k, opt_int o) = Some OverflowError.
Proof.
  unfold field_encode_error; cbn [fst snd]. intros ->.
  destruct o as [z|]; [|by left]. cbn [opt_int value_encode_error].
  destruct (int64 z); [by left | by right].
Qed.

Lemma field_opt_int_overflow k z :
  has_nul k = false -> int64 z = false ->
  field_encode_error (k, opt_int (Some z)) = Some OverflowError.
Proof.
  unfold field_encode_error; cbn [fst snd]. intros -> H.
  cbn [opt_int value_encode_error]. by rewrite H.
Qed.

Ltac encode_fields :=
  repeat first [ apply List.Forall_nil | apply List.Forall_cons ];
  first [ apply field_ok_opt_str; reflexivity
        | apply field_ok_opt_bool; reflexivity
        | apply field_ok_opt_float; reflexivity
        | apply field_ok_opt_int; [reflexivity | assumption]
        | left; apply field_ok_opt_str; reflexivity
        | left; apply field_ok_opt_bool; reflexivity
        | left; apply field_ok_opt_float; reflexivity
        | apply field_opt_int_cases; reflexivity
        | reflexivity ].

Lemma encode_CategoryUpdate cu now :
  fits_int64 (cu_order cu) ->
  encode_error (<["updated_at" := VDate now]> (drop_None (CategoryUpdate_dict cu))) = None.
Proof.
  intros H. apply encode_error_None. unfold CategoryUpdate_dict.
  apply (fields_of_stamped (fun kv => field_encode_error kv = None)); [reflexivity|].
  encode_fields.
Qed.

Lemma encode_MenuItemUpdate mu now :
  fits_int64 (mu_order mu) ->
  encode_error (<["updated_at" := VDate now]> (drop_None (MenuItemUpdate_dict mu))) = None.
Proof.
  intros H. apply encode_error_None. unfold MenuItemUpdate_dict.
  apply (fields_of_stamped (fun kv => field_encode_error kv = None)); [reflexivity|].
  encode_fields.
Qed.

Lemma encode_SettingsUpdate su now :
  fits_int64 (su_data_version su) ->
  encode_error (<["updated_at" := VDate now]> (drop_None (SettingsUpdate_dict su))) = None.
Proof.
  intros H. apply encode_error_None. unfold SettingsUpdate_dict.
  apply (fields_of_stamped (fun kv => field_encode_error kv = None)); [reflexivity|].
  encode_fields.
Qed.

Lemma overflow_CategoryUpdate cu now z :
  cu_order cu = Some z -> int64 z = false ->
  encode_error (<["updated_at" := VDate now]> (drop_None (CategoryUpdate_dict cu)))
    = Some OverflowError.
Proof.
  intros Hz Hbig. apply encode_error_overflow.
  - unfold CategoryUpdate_dict.
    apply (fields_of_stamped
             (fun kv => field_encode_error kv = None \/
                        field_encode_error kv = Some OverflowError)); [by left|].
    encode_fields.
  - exists "order", (VInt z). split.
    + rewrite lookup_insert_ne by discriminate.
      apply drop_None_lookup_Some; [|discriminate].
      unfold CategoryUpdate_dict. rewrite Hz. reflexivity.
    + pose proof (field_opt_int_overflow "order" z eq_refl Hbig) as F.
      cbn [opt_int] in F. rewrite F. discriminate.
Qed.

Lemma overflow_MenuItemUpdate mu now z :
  mu_order mu = Some z -> int64 z = false ->
  encode_error (<["updated_at" := VDate now]> (drop_None (MenuItemUpdate_dict mu)))
    = Some OverflowError.
Proof.
  intros Hz Hbig. apply encode_error_overflow.
  - unfold MenuItemUpdate_dict.
    apply (fields_of_stamped
             (fun kv => field_encode_error kv = None \/
                        field_encode_error kv = Some OverflowError)); [by left|].
    encode_fields.
  - exists "order", (VInt z). split.
    + rewrite lookup_insert_ne by discriminate.
      apply drop_None_lookup_Some; [|discriminate].
      unfold MenuItemUpdate_dict. rewrite Hz. reflexivity.
    + pose proof (field_opt_int_overflow "order" z eq_refl Hbig) as F.
      cbn [opt_int] in F. rewrite F. discriminate.
Qed.

Lemma update_category_unknown id oid cu e db :
  ObjectId id = Some oid -> has_field (CategoryUpdate_dict cu) ->
  fits_int64 (cu_order cu) ->
  oid ∉ ids (categories db) ->
  update_category id cu e db = (Raise (HTTPException 404 "Category not found"), db).
Proof.
  intros Ho Hf Hfit Hn. unfold update_category.
  destruct (decide _) as [E|_]; [exfalso; exact (drop_None_nonempty _ Hf E)|].
  rewrite (bind_Ok _ _ _ _ _ (object_id_Some _ _ _ Ho)).
  by rewrite (bind_Ok _ _ _ _ _
                (update_one_absent c_categories oid (USet _) db
                   (encode_CategoryUpdate cu (utcnow e) Hfit) Hn)).
Qed.

Lemma update_menu_item_unknown id oid mu e db :
  ObjectId id = Some oid -> has_field (MenuItemUpdate_dict mu) ->
  fits_int64 (mu_order mu) ->
  oid ∉ ids (menu_items db) ->
  update_menu_item id mu e db = (Raise (HTTPException 404 "Item not found"), db).
Proof.
  intros Ho Hf Hfit Hn. unfold update_menu_item.
  destruct (decide _) as [E|_]; [exfalso; exact (drop_None_nonempty _ Hf E)|].
  rewrite (bind_Ok _ _ _ _ _ (object_id_Some _ _ _ Ho)).
  by rewrite (bind_Ok _ _ _ _ _
                (update_one_absent c_menu_items oid (USet _) db
                   (encode_MenuItemUpdate mu (utcnow e) Hfit) Hn)).
Qed.

(** An integer that does not fit 8 bytes stops the update before anything
    is written, whether the identifier is stored or not. *)
Lemma update_category_overflow id oid cu z e db :
  ObjectId id = Some oid -> cu_order cu = Some z -> int64 z = false ->
  update_category id cu e db = (Raise OverflowError, db).
Proof.
  intros Ho Hz Hbig. unfold update_category.
  destruct (decide _) as [E|_].
  { exfalso. refine (drop_None_nonempty _ _ E). exists "order", (VInt z).
    split; [|discriminate]. unfold CategoryUpdate_dict. rewrite Hz. reflexivity. }
  rewrite (bind_Ok _ _ _ _ _ (object_id_Some _ _ _ Ho)).
  by rewrite (bind_Raise _ _ _ _ _
                (update_one_unencodable c_categories (by_id oid) (USet _) db _
                   (overflow_CategoryUpdate cu (utcnow e) z Hz Hbig))).
Qed.

Lemma update_menu_item_overflow id oid mu z e db :
  ObjectId id = Some oid -> mu_order mu = Some z -> int64 z = false ->
  update_menu_item id mu e db = (Raise OverflowError, db).
Proof.
  intros Ho Hz Hbig. unfold update_menu_item.
  destruct (decide _) as [E|_].
  { exfalso. refine (drop_None_nonempty _ _ E). exists "order", (VInt z).
    split; [|discriminate]. unfold MenuItemUpdate_dict. rewrite Hz. reflexivity. }
  rewrite (bind_Ok _ _ _ _ _ (object_id_Some _ _ _ Ho)).
  by rewrite (bind_Raise _ _ _ _ _
                (update_one_unencodable c_menu_items (by_id oid) (USet _) db _
                   (overflow_MenuItemUpdate mu (utcnow e) z Hz Hbig))).
Qed.

(** An update whose [id] is not the text of an ObjectId does not reach the
    lookup: the conversion raises, and no handler catches it. *)
Lemma update_menu_item_malformed id mu e db :
  ObjectId id = None -> has_field (MenuItemUpdate_dict mu) ->
  update_menu_item id mu e db = (Raise InvalidId, db).
Proof.
  intros Ho Hf. unfold update_menu_item.
  destruct (decide _) as [E|_]; [exfalso; exact (drop_None_nonempty _ Hf E)|].
  by rewrite (bind_Raise _ _ _ _ _ (object_id_None _ _ Ho)).
Qed.

(** C5.  An update of a category, of a menu item or of the settings whose
    payload has no non-null field is answered with 400 "No data to update"
    (InvalidArgument), whatever the [id]; an update of a category or of a
    menu item with at least one non-null field (an [order], if supplied,
    being an integer of at most 8 bytes, the integers that the database
    stores), under an identifier that no stored entity of the collection
    has, is answered with 404 (NotFound).  Either way the database is
    untouched. *)
Theorem update_rejections (id : string) (e : Env) (db : DB) :
  (forall cu, no_field (CategoryUpdate_dict cu) ->
     update_category id cu e db = (Raise (HTTPException 400 "No data to update"), db)) /\
  (forall mu, no_field (MenuItemUpdate_dict mu) ->
     update_menu_item id mu e db = (Raise (HTTPException 400 "No data to update"), db)) /\
  (forall su, no_field (SettingsUpdate_dict su) ->
     update_settings su e db = (Raise (HTTPException 400 "No data to update"), db)) /\
  (forall oid cu, ObjectId id = Some oid -> has_field (CategoryUpdate_dict cu) ->
     fits_int64 (cu_order cu) ->
     oid ∉ ids (categories db) ->
     update_category id cu e db = (Raise (HTTPException 404 "Category not found"), db)) /\
  (forall oid mu, ObjectId id = Some oid -> has_field (MenuItemUpdate_dict mu) ->
     fits_int64 (mu_order mu) ->
     oid ∉ ids (menu_items db) ->
     update_menu_item id mu e db = (Raise (HTTPException 404 "Item not found"), db)).
Proof.
  split; [intros; by apply update_category_empty|].
  split; [intros; by apply update_menu_item_empty|].
  split; [intros; by apply update_settings_empty|].
  split; [intros; by eapply update_category_unknown|].
  intros; by eapply update_menu_item_unknown.
Qed.

Lemma no_field_list (l : list (string * value)) :
  Forall (fun kv => snd kv = VNull) l -> no_field (list_to_map l).
Proof.
  induction 1 as [|[k0 v0] l Hv Hl IH]; intros k v; simpl.
  - by rewrite lookup_empty.
  - rewrite lookup_insert. case_decide; [|by apply IH].
    intros Hkv. injection Hkv as <-. done.
Qed.

Ltac by_compute := refine (bool_decide_unpack _ _); vm_compute; exact I.

Lemma update_rejections_witness :
  no_field (CategoryUpdate_dict Demo.no_category_update) /\
  update_category Demo.id_ghost Demo.no_category_update Demo.env Demo.db
    = (Raise (HTTPException 400 "No data to update"), Demo.db) /\
  no_field (MenuItemUpdate_dict Demo.no_item_update) /\
  update_menu_item Demo.id_ghost Demo.no_item_update Demo.env Demo.db
    = (Raise (HTTPException 400 "No data to update"), Demo.db) /\
  no_field (SettingsUpdate_dict Demo.no_settings_update) /\
  update_settings Demo.no_settings_update Demo.env Demo.db
    = (Raise (HTTPException 400 "No data to update"), Demo.db) /\
  ObjectId Demo.id_ghost = Some (Oid Demo.id_ghost) /\
  has_field (CategoryUpdate_dict Demo.move_category) /\
  fits_int64 (cu_order Demo.move_category) /\
  (Oid Demo.id_ghost ∉ ids (categories Demo.db)) /\
  update_category Demo.id_ghost Demo.move_category Demo.env Demo.db
    = (Raise (HTTPException 404 "Category not found"), Demo.db) /\
  has_field (MenuItemUpdate_dict Demo.move_item) /\
  fits_int64 (mu_order Demo.move_item) /\
  (Oid Demo.id_ghost ∉ ids (menu_items Demo.db)) /\
  update_menu_item Demo.id_ghost Demo.move_item Demo.env Demo.db
    = (Raise (HTTPException 404 "Item not found"), Demo.db).
Proof.
  assert (no_field (CategoryUpdate_dict Demo.no_category_update)) as H1
    by (apply no_field_list; repeat constructor).
  assert (no_field (MenuItemUpdate_dict Demo.no_item_update)) as H2
    by (apply no_field_list; repeat constructor).
  assert (no_field (SettingsUpdate_dict Demo.no_settings_update)) as H3
    by (apply no_field_list; repeat constructor).
  assert (has_field (CategoryUpdate_dict Demo.move_category)) as H4
    by (exists "order", (VInt 7); split; [reflexivity | discriminate]).
  assert (has_field (MenuItemUpdate_dict Demo.move_item)) as H5
    by (exists "order", (VInt 7); split; [reflexivity | discriminate]).
  assert (Oid Demo.id_ghost ∉ ids (categories Demo.db)) as H6 by by_compute.
  assert (Oid Demo.id_ghost ∉ ids (menu_items Demo.db)) as H7 by by_compute.
  assert (fits_int64 (cu_order Demo.move_category)) as H8
    by (intros z Hz; injection Hz as <-; reflexivity).
  assert (fits_int64 (mu_order Demo.move_item)) as H9
    by (intros z Hz; injection Hz as <-; reflexivity).
  destruct (update_rejections Demo.id_ghost Demo.env Demo.db) as (R1 & R2 & R3 & R4 & R5).
  exact (conj H1 (conj (R1 _ H1) (conj H2 (conj (R2 _ H2) (conj H3 (conj (R3 _ H3)
          (conj eq_refl (conj H4 (conj H8 (conj H6 (conj (R4 _ _ eq_refl H4 H8 H6)
          (conj H5 (conj H9 (conj H7 (R5 _ _ eq_refl H5 H9 H7))))))))))))))).
Defined.

(** ** Deleting a category *)

Lemma delete_many_category id db :
  delete_many c_menu_items [("category_id", QEq (VStr id))] db =
    (Ok tt, set_coll c_menu_items
              (List.filter (fun d => negb (in_category id d)) (menu_items db)) db).
Proof.
  unfold delete_many. do 2 f_equal. apply filter_ext_bool. intros d.
  by rewrite matches_category.
Qed.

Lemma filter_not_in_category id l d :
  d ∈ List.filter (fun d => negb (in_category id d)) l -> in_category id d = false.
Proof.
  rewrite list_elem_of_In. intros H. apply List.filter_In in H as [_ H].
  by destruct (in_category id d).
Qed.

Lemma find_in_none q l : (forall d, d ∈ l -> matches q d = false) -> find_in q l = [].
Proof.
  unfold find_in. induction l as [|d r IH]; simpl; intros H; [done|].
  rewrite (H d) by (apply elem_of_cons; by left).
  apply IH. intros x Hx. apply H. apply elem_of_cons. by right.
Qed.

Lemma filter_twice {A} (f : A -> bool) l : List.filter f (List.filter f l) = List.filter f l.
Proof.
  induction l as [|x l IH]; simpl; [done|].
  destruct (f x) eqn:E; simpl; [by rewrite E, IH | done].
Qed.

(** No item of the category is left: the listing of the category is empty,
    with or without the published-only flag. *)
Lemma get_menu_items_category_empty id po db :
  id <> "" ->
  (forall d, d ∈ menu_items db -> in_category id d = false) ->
  get_menu_items (Some id) po db = (Ok [], db).
Proof.
  intros Hid Hnone. unfold get_menu_items, bind, find_sorted, ret.
  destruct (String.eqb_spec id "") as [|_]; [done|].
  rewrite find_in_none; [done|].
  intros d Hd. unfold get_coll in Hd.
  destruct po as [[]|]; rewrite ?matches_app, matches_category, (Hnone d Hd); done.
Qed.

Lemma delete_category_unknown_eq id oid db :
  ObjectId id = Some oid ->
  oid ∉ ids (categories db) ->
  delete_category id db =
    (Raise (HTTPException 404 "Category not found"),
     set_coll c_menu_items
       (List.filter (fun d => negb (in_category id d)) (menu_items db)) db).
Proof.
  intros Ho Hn. unfold delete_category.
  rewrite (bind_Ok _ _ _ _ _ (delete_many_category id db)).
  rewrite (bind_Ok _ _ _ _ _ (object_id_Some _ _ _ Ho)).
  rewrite (bind_Ok _ _ _ _ _
             (delete_one_absent c_categories oid (set_coll c_menu_items _ db) Hn)).
  reflexivity.
Qed.

(** C10.  Deleting a category under an identifier that no stored category
    has is answered with 404 "Category not found", and the database that is
    left is not the one that was found: the menu items whose [category_id]
    is that identifier have been deleted before the lookup of the category,
    and stay deleted. *)
Theorem delete_unknown_category_not_atomic (id : string) (oid : ObjectId_t) (db : DB) :
  ObjectId id = Some oid ->
  oid ∉ ids (categories db) ->
  exists db',
    delete_category id db = (Raise (HTTPException 404 "Category not found"), db') /\
    menu_items db' = List.filter (fun d => negb (in_category id d)) (menu_items db) /\
    same_except c_menu_items db db' /\
    (forall d, d ∈ menu_items db -> in_category id d = true -> d ∉ menu_items db').
Proof.
  intros Ho Hn. eexists. split; [|split; [|split]].
  - by apply (delete_category_unknown_eq id oid).
  - done.
  - apply same_except_set.
  - intros d _ Hd Hin. apply filter_not_in_category in Hin. congruence.
Qed.

Lemma delete_unknown_category_not_atomic_witness :
  ObjectId Demo.id_grill = Some (Oid Demo.id_grill) /\
  (Oid Demo.id_grill ∉ ids (categories Orphan.db)) /\
  menu_items Orphan.db = [Demo.kebab; Demo.baklava] /\
  exists db',
    delete_category Demo.id_grill Orphan.db
      = (Raise (HTTPException 404 "Category not found"), db') /\
    menu_items db' = [Demo.baklava].
Proof.
  assert (Oid Demo.id_grill ∉ ids (categories Orphan.db)) as Hn by by_compute.
  split; [reflexivity|]. split; [exact Hn|]. split; [reflexivity|].
  destruct (delete_unknown_category_not_atomic Demo.id_grill (Oid Demo.id_grill) Orphan.db
              eq_refl Hn) as (db' & Hdel & Hitems & _).
  exists db'. split; [exact Hdel|]. rewrite Hitems. reflexivity.
Defined.

Lemma in_category_eq c c' d : in_category c d = true -> in_category c' d = true -> c = c'.
Proof.
  unfold in_category. destruct (doc_fields d !! "category_id") as [[| | | |s| | | |]|]; try done.
  intros H1 H2. apply String.eqb_eq in H1, H2. congruence.
Qed.

(** C3.  After a successful delete of the category under the text [C] of
    its identifier: no stored category has that identifier (the lookup by
    [_id] finds nothing, an update or a second delete is answered with 404),
    the menu items whose [category_id] is [C] were deleted first and the
    category on the database so obtained, and the listing of the menu items
    of [C] is empty.  When [C] is the identifier as the API prints it, that
    leaves no item that references the category.  (A request may spell the
    same identifier otherwise, in upper case say; the items stored under the
    printed identifier then all stay.) *)
Theorem delete_category_cascade (C : string) (db db' : DB) (msg : string) :
  NoDup (ids (categories db)) ->
  delete_category C db = (Ok msg, db') ->
  exists oid,
    ObjectId C = Some oid /\ oid ∈ ids (categories db) /\
    (forall po, get_menu_items (Some C) po db' = (Ok [], db')) /\
    (oid ∉ ids (categories db')) /\
    find_one c_categories (by_id oid) db' = (Ok None, db') /\
    (forall cu e, has_field (CategoryUpdate_dict cu) -> fits_int64 (cu_order cu) ->
       update_category C cu e db'
         = (Raise (HTTPException 404 "Category not found"), db')) /\
    delete_category C db' = (Raise (HTTPException 404 "Category not found"), db') /\
    (exists db1,
      delete_many c_menu_items [("category_id", QEq (VStr C))] db = (Ok tt, db1) /\
      delete_one c_categories (by_id oid) db1 = (Ok 1%nat, db')) /\
    menu_items db' = List.filter (fun d => negb (in_category C d)) (menu_items db) /\
    (C = str_of_oid oid ->
       (forall d, d ∈ menu_items db' -> in_category (str_of_oid oid) d = false) /\
       (forall po, get_menu_items (Some (str_of_oid oid)) po db' = (Ok [], db'))) /\
    (C <> str_of_oid oid ->
       forall d, d ∈ menu_items db -> in_category (str_of_oid oid) d = true ->
                 d ∈ menu_items db').
Proof.
  intros Hnd H. unfold delete_category in H.
  rewrite (bind_Ok _ _ _ _ _ (delete_many_category C db)) in H.
  apply bind_Ok_inv in H as (oid & db1 & Hoid & H).
  unfold object_id in Hoid. destruct (ObjectId C) as [o|] eqn:Eo; [|discriminate].
  injection Hoid as <- <-.
  set (items' := List.filter (fun d => negb (in_category C d)) (menu_items db)) in *.
  destruct (decide (o ∈ ids (categories db))) as [Hin|Hn].
  2:{ rewrite (bind_Ok _ _ _ _ _
                 (delete_one_absent c_categories o (set_coll c_menu_items items' db) Hn)) in H.
      discriminate. }
  destruct (ids_split o _ Hin) as (l1 & d & l2 & Hl & Hd & Hn1).
  rewrite Hl in Hnd. destruct (NoDup_ids_split o l1 d l2 Hnd Hd) as [_ Hn2].
  assert (delete_one c_categories (by_id o) (set_coll c_menu_items items' db)
          = (Ok 1%nat, set_coll c_categories (l1 ++ l2) (set_coll c_menu_items items' db)))
    as Hdel by (by apply (delete_one_split c_categories o _ l1 d l2)).
  rewrite (bind_Ok _ _ _ _ _ Hdel) in H. injection H as <- <-.
  set (db2 := set_coll c_categories (l1 ++ l2) (set_coll c_menu_items items' db)).
  assert (o ∉ ids (categories db2)) as Hgone.
  { change (o ∉ ids (l1 ++ l2)). rewrite ids_app.
    intros Hx. apply elem_of_app in Hx as [?|?]; done. }
  assert (menu_items db2 = items') as Hitems by done.
  assert (forall po, get_menu_items (Some C) po db2 = (Ok [], db2)) as Hlist.
  { intros po. apply get_menu_items_category_empty; [by eapply ObjectId_nonempty|].
    intros x Hx. rewrite Hitems in Hx. by apply filter_not_in_category in Hx. }
  exists o. split; [done|]. split; [done|].
  split; [exact Hlist|].
  split; [|split; [|split; [|split; [|split; [|split; [|split]]]]]].
  - done.
  - by apply find_one_absent.
  - intros cu e Hf Hfit. by eapply update_category_unknown.
  - rewrite (delete_category_unknown_eq C o db2 Eo Hgone). f_equal.
    rewrite Hitems. unfold items'. rewrite filter_twice. fold items'.
    rewrite <- Hitems. apply (set_get_coll c_menu_items).
  - exists (set_coll c_menu_items items' db). split; [apply delete_many_category | exact Hdel].
  - exact Hitems.
  - intros <-. split; [|exact Hlist].
    intros x Hx. rewrite Hitems in Hx. by apply filter_not_in_category in Hx.
  - intros Hne x Hx Hc. rewrite Hitems. unfold items'.
    apply list_elem_of_In, List.filter_In. split; [by apply list_elem_of_In|].
    destruct (in_category C x) eqn:E; [|reflexivity].
    exfalso. apply Hne. exact (in_category_eq _ _ _ E Hc).
Qed.

(** The two spellings on the demo database: under the printed identifier of
    the grill its kebab goes with it, under the upper-case text of the same
    identifier the category goes and the kebab stays. *)
Lemma delete_category_cascade_witness :
  NoDup (ids (categories Demo.db)) /\
  (exists msg db',
    delete_category Demo.id_grill Demo.db = (Ok msg, db') /\
    get_menu_items (Some Demo.id_grill) None db' = (Ok [], db') /\
    (Oid Demo.id_grill ∉ ids (categories db')) /\
    delete_category Demo.id_grill db'
      = (Raise (HTTPException 404 "Category not found"), db') /\
    menu_items db' = [Demo.baklava] /\
    (forall d, d ∈ menu_items db' -> in_category Demo.id_grill d = false)) /\
  (exists msg db',
    delete_category Demo.id_GRILL Demo.db = (Ok msg, db') /\
    (Oid Demo.id_grill ∉ ids (categories db')) /\
    Demo.kebab ∈ menu_items db').
Proof.
  assert (NoDup (ids (categories Demo.db))) as Hnd by by_compute.
  split; [exact Hnd|]. split.
  - destruct (returns_inv (delete_category Demo.id_grill Demo.db))
      as (msg & db' & E); [vm_compute; exact I|].
    exists msg, db'. split; [exact E|].
    destruct (delete_category_cascade Demo.id_grill Demo.db db' msg Hnd E)
      as (oid & Ho & _ & Hlist & Hgone & _ & _ & Hagain & _ & Hitems & Hcanon & _).
    assert (ObjectId Demo.id_grill = Some (Oid Demo.id_grill)) as Hup
      by (vm_compute; reflexivity).
    rewrite Hup in Ho. injection Ho as <-.
    destruct (Hcanon eq_refl) as [Hnone _].
    exact (conj (Hlist None) (conj Hgone (conj Hagain (conj Hitems Hnone)))).
  - destruct (returns_inv (delete_category Demo.id_GRILL Demo.db))
      as (msg & db' & E); [vm_compute; exact I|].
    exists msg, db'. split; [exact E|].
    destruct (delete_category_cascade Demo.id_GRILL Demo.db db' msg Hnd E)
      as (oid & Ho & _ & _ & Hgone & _ & _ & _ & _ & _ & _ & Hother).
    assert (ObjectId Demo.id_GRILL = Some (Oid Demo.id_grill)) as Hup
      by (vm_compute; reflexivity).
    rewrite Hup in Ho. injection Ho as <-. split; [exact Hgone|].
    apply (Hother ltac:(discriminate) Demo.kebab); [|reflexivity].
    apply elem_of_cons. by left.
Defined.

(** ** Toggling the publication of an item *)

Lemma NoDup_ids_eq l (d x : Document) :
  NoDup (ids l) -> d ∈ l -> x ∈ l -> doc_id d = doc_id x -> d = x.
Proof.
  induction l as [|y l IH]; simpl; intros Hnd Hd Hx E; [by apply elem_of_nil in Hd|].
  apply NoDup_cons in Hnd as [Hy Hnd].
  apply elem_of_cons in Hd as [->|Hd]; apply elem_of_cons in Hx as [->|Hx]; try done.
  - exfalso. apply Hy. rewrite E. by apply list_elem_of_fmap_2.
  - exfalso. apply Hy. rewrite <- E. by apply list_elem_of_fmap_2.
  - by apply IH.
Qed.

Lemma stored_version_counter db :
  stored_version db = default (VInt 1) (counter_field db).
Proof. unfold stored_version, counter_field. by destruct (settings db). Qed.

Lemma version_wf_same_settings db db' : settings db' = settings db -> version_wf db -> version_wf db'.
Proof. unfold version_wf, stored_version. by intros ->. Qed.






(** ** Reordering *)

(** With unique identifiers, [update_one] by [_id] with [$set] acts on the
    collection as a map, whether or not the identifier is stored. *)










Lemma last_order_None oid orders :
  (forall item, item ∈ orders -> entry_oid item <> Some oid) -> last_order oid orders = None.
Proof.
  induction orders as [|item rest IH]; simpl; intros H; [done|].
  rewrite IH by (intros x Hx; apply H; apply elem_of_cons; by right).
  destruct (decide _) as [E|_]; [|done].
  exfalso. apply (H item); [apply elem_of_cons; by left | done].
Qed.

(** In a batch that addresses [oid] once, [oid] is given the order of that
    entry. *)
Lemma last_order_once oid l1 item l2 o :
  entry_oid item = Some oid -> item !! "order" = Some o ->
  (forall x, x ∈ l2 -> entry_oid x <> Some oid) ->
  last_order oid (l1 ++ item :: l2) = Some (value_of_json o).
Proof.
  intros Hid Ho Hl2. induction l1 as [|x l1 IH]; simpl.
  - rewrite (last_order_None oid l2 Hl2). destruct (decide _); [|done]. by rewrite Ho.
  - by rewrite IH.
Qed.

Lemma reordered_id orders d : doc_id (reordered orders d) = doc_id d.
Proof. unfold reordered. by destruct (last_order _ _). Qed.


(** A reorder request with an [id] that is not the text of an ObjectId stops
    at that entry with the conversion error: the entries before it stay
    applied and the data version is not incremented. *)
Lemma reorder_loop_malformed c item rest db s :
  item !! "id" = Some (JStr s) -> ObjectId s = None ->
  reorder_loop c (item :: rest) db = (Raise InvalidId, db).
Proof.
  intros Hid Ho. cbn [reorder_loop]. unfold getitem. rewrite Hid.
  unfold bind at 1. unfold ret at 1. unfold bind at 1. unfold object_id_json.
  by rewrite (bind_Raise _ _ _ _ _ (object_id_None _ _ Ho)).
Qed.



(** ** Which handlers write the settings *)

Create HintDb settings_db.

Lemma untouched_ret {A} (a : A) : untouched (ret a).
Proof. by intros db. Qed.

Lemma untouched_raise {A} e : untouched (@raise A e).
Proof. by intros db. Qed.

Lemma untouched_bind {A B} (m : M A) (k : A -> M B) :
  untouched m -> (forall a, untouched (k a)) -> untouched (bind m k).
Proof.
  intros Hm Hk db. unfold bind. specialize (Hm db).
  destruct (m db) as [[a|e] db1]; simpl in *; [|done].
  by rewrite Hk.
Qed.

Lemma untouched_find_one c q : untouched (find_one c q).
Proof. by intros db. Qed.

Lemma untouched_find_sorted c q f : untouched (find_sorted c q f).
Proof. by intros db. Qed.

Lemma untouched_find_latest c f n : untouched (find_latest c f n).
Proof. by intros db. Qed.

Lemma untouched_count_documents c q : untouched (count_documents c q).
Proof. by intros db. Qed.

Lemma settings_set_coll_ne c l db : c <> c_settings -> settings (set_coll c l db) = settings db.
Proof. intros H. by destruct c. Qed.

Lemma untouched_insert_one c o d : c <> c_settings -> untouched (insert_one c o d).
Proof.
  intros Hc db. unfold insert_one. destruct (encode_error d); [done|].
  destruct (decide _); simpl; [done|].
  by apply settings_set_coll_ne.
Qed.

Lemma untouched_update_one c q u : c <> c_settings -> untouched (update_one c q u).
Proof.
  intros Hc db. unfold update_one. destruct (update_encode_error u); [done|].
  destruct (update_first _ _ _) as [[l|]|]; simpl; try done.
  by apply settings_set_coll_ne.
Qed.

Lemma untouched_update_one_fresh u : untouched (update_one_fresh u).
Proof. intros db. unfold update_one_fresh. by destruct (update_encode_error u). Qed.

Lemma untouched_delete_one c q : c <> c_settings -> untouched (delete_one c q).
Proof.
  intros Hc db. unfold delete_one. destruct (delete_first _ _) as [l|]; simpl; try done.
  by apply settings_set_coll_ne.
Qed.

Lemma untouched_delete_many c q : c <> c_settings -> untouched (delete_many c q).
Proof. intros Hc db. unfold delete_many. simpl. by apply settings_set_coll_ne. Qed.

Lemma untouched_object_id s : untouched (object_id s).
Proof. unfold object_id. destruct (ObjectId s); [apply untouched_ret | apply untouched_raise]. Qed.

Lemma untouched_getitem item k : untouched (getitem item k).
Proof. unfold getitem. destruct (item !! k); [apply untouched_ret | apply untouched_raise]. Qed.

#[export] Hint Resolve untouched_ret untouched_raise untouched_find_one untouched_find_sorted
  untouched_find_latest untouched_count_documents untouched_object_id untouched_getitem
  : settings_db.
#[export] Hint Extern 1 (untouched (insert_one _ _ _)) =>
  apply untouched_insert_one; discriminate : settings_db.
#[export] Hint Extern 1 (untouched (update_one _ _ _)) =>
  apply untouched_update_one; discriminate : settings_db.
#[export] Hint Extern 1 (untouched (delete_one _ _)) =>
  apply untouched_delete_one; discriminate : settings_db.
#[export] Hint Extern 1 (untouched (delete_many _ _)) =>
  apply untouched_delete_many; discriminate : settings_db.

(** Walks through a handler: binds, branches, and the calls above. *)
Ltac untouched_walk :=
  repeat first
    [ progress auto with settings_db
    | apply untouched_bind; [|intros ?]
    | match goal with
      | |- untouched (if ?b then _ else _) => destruct b
      | |- untouched (match ?x with _ => _ end) => destruct x
      end ].

Lemma untouched_object_id_json j : untouched (object_id_json j).
Proof. unfold object_id_json. untouched_walk. Qed.

Lemma untouched_reorder_loop c orders : c <> c_settings -> untouched (reorder_loop c orders).
Proof.
  intros Hc. induction orders as [|item rest IH]; cbn [reorder_loop].
  - apply untouched_ret.
  - apply untouched_bind; [apply untouched_getitem|intros id].
    apply untouched_bind; [apply untouched_object_id_json|intros oid].
    apply untouched_bind; [apply untouched_getitem|intros order].
    apply untouched_bind; [|intros _; exact IH].
    destruct oid; [by apply untouched_update_one | apply untouched_update_one_fresh].
Qed.

Lemma untouched_create_category data e : untouched (create_category data e).
Proof. unfold create_category. untouched_walk. Qed.

Lemma untouched_delete_category id : untouched (delete_category id).
Proof. unfold delete_category. untouched_walk. Qed.

Lemma untouched_get_categories : untouched get_categories.
Proof. unfold get_categories. untouched_walk. Qed.

Lemma untouched_get_menu_items c p : untouched (get_menu_items c p).
Proof. unfold get_menu_items. untouched_walk. Qed.

Lemma untouched_get_menu_item id : untouched (get_menu_item id).
Proof. unfold get_menu_item. untouched_walk. Qed.

Lemma untouched_get_settings : untouched get_settings.
Proof. unfold get_settings. untouched_walk. Qed.

Lemma untouched_get_public_data e : untouched (get_public_data e).
Proof. unfold get_public_data. untouched_walk. Qed.

Lemma untouched_get_data_version e : untouched (get_data_version e).
Proof. unfold get_data_version. untouched_walk. Qed.

Lemma untouched_get_orders : untouched get_orders.
Proof. unfold get_orders. untouched_walk. Qed.

Lemma untouched_update_order_status id st e : untouched (update_order_status id st e).
Proof. unfold update_order_status. untouched_walk. Qed.

Lemma untouched_delete_order id : untouched (delete_order id).
Proof. unfold delete_order. untouched_walk. Qed.

Lemma untouched_get_contact_messages : untouched get_contact_messages.
Proof. unfold get_contact_messages. untouched_walk. Qed.

Lemma untouched_mark_message_read id e : untouched (mark_message_read id e).
Proof. unfold mark_message_read. untouched_walk. Qed.

Lemma untouched_delete_message id : untouched (delete_message id).
Proof. unfold delete_message. untouched_walk. Qed.

Lemma untouched_upload_file f e : untouched (upload_file f e).
Proof. unfold upload_file. untouched_walk. Qed.

Lemma untouched_health e : untouched (health e).
Proof. unfold health. untouched_walk. Qed.

Lemma untouched_send_email_notification t s b e : untouched (send_email_notification t s b e).
Proof. unfold send_email_notification. untouched_walk. Qed.

Lemma untouched_verify_token ext cr now : untouched (verify_token ext cr now).
Proof. unfold verify_token. untouched_walk. Qed.

Lemma untouched_login ext data e : untouched (login ext data e).
Proof. unfold login, doc_getitem. untouched_walk. Qed.

Lemma untouched_change_password ext o n u : untouched (change_password ext o n u).
Proof. unfold change_password. untouched_walk. Qed.

Lemma untouched_create_order ext order e : untouched (create_order ext order e).
Proof.
  unfold create_order. pose proof untouched_send_email_notification. untouched_walk.
Qed.

Lemma untouched_send_contact_message ext m e : untouched (send_contact_message ext m e).
Proof.
  unfold send_contact_message. pose proof untouched_send_email_notification. untouched_walk.
Qed.

(** ** The data version along the requests *)

Lemma version_le_refl db : version_le db db.
Proof. intros v Hv. exists v. split; [done|lia]. Qed.

Lemma version_le_trans db1 db2 db3 :
  version_le db1 db2 -> version_le db2 db3 -> version_le db1 db3.
Proof.
  intros H12 H23 v Hv. destruct (H12 v Hv) as (v2 & Hv2 & Hle2).
  destruct (H23 v2 Hv2) as (v3 & Hv3 & Hle3). exists v3. split; [done|lia].
Qed.

Lemma version_le_same_settings db db' : settings db' = settings db -> version_le db db'.
Proof.
  intros Hs v Hv. exists v. split; [|lia]. unfold stored_version in *. by rewrite Hs.
Qed.

Lemma monotone_untouched {A} (m : M A) : untouched m -> monotone m.
Proof. intros H db. apply version_le_same_settings, H. Qed.

Lemma monotone_bind {A B} (m : M A) (k : A -> M B) :
  monotone m -> (forall a, monotone (k a)) -> monotone (bind m k).
Proof.
  intros Hm Hk db. unfold bind. specialize (Hm db).
  destruct (m db) as [[a|e] db1]; simpl in *; [|done].
  eapply version_le_trans; [exact Hm | apply Hk].
Qed.

Lemma monotone_inc_data_version e : monotone (inc_data_version e).
Proof.
  intros db v Hv.
  destruct (inc_data_version_wf e db) as (n & db' & Hinc & _ & Hcnt); [by exists v|].
  rewrite Hinc. simpl. rewrite stored_version_counter in Hv |- *. rewrite Hcnt. simpl.
  destruct (counter_field db) as [[| |z| | | | | |]|]; simpl in Hv; try discriminate;
    injection Hv as <-; eexists; (split; [reflexivity|lia]).
Qed.

(** A [$set] on the settings that does not name [data_version] leaves the
    reported version alone, also when it creates the document. *)
Lemma monotone_set_settings (f : dict) o :
  f !! "data_version" = None -> monotone (update_one_upsert c_settings (USet f) o).
Proof.
  intros Hf db v Hv. exists v. split; [|lia].
  assert ((stored <$> f) !! "data_version" = None) as Hf'.
  { by rewrite lookup_fmap, Hf. }
  unfold update_one_upsert. destruct (update_encode_error (USet f)); [exact Hv|].
  unfold get_coll. unfold stored_version in *.
  destruct (settings db) as [|s r] eqn:Hs.
  - simpl. unfold apply_update. simpl.
    unfold dict_get in *. rewrite lookup_union_r by done. by rewrite lookup_empty.
  - rewrite update_first_all. unfold apply_update. simpl.
    unfold dict_get in *. simpl. by rewrite lookup_union_r.
Qed.

Lemma SettingsUpdate_dict_version data :
  SettingsUpdate_dict data !! "data_version" = Some (opt_int (su_data_version data)).
Proof.
  unfold SettingsUpdate_dict. cbn [list_to_map foldr uncurry].
  rewrite !lookup_insert_ne by done. apply lookup_insert_eq.
Qed.

Ltac monotone_walk :=
  repeat first
    [ apply monotone_inc_data_version
    | apply monotone_untouched; solve [untouched_walk]
    | apply monotone_bind; [|intros ?]
    | match goal with
      | |- monotone (if ?b then _ else _) => destruct b
      | |- monotone (match ?x with _ => _ end) => destruct x
      end ].

Lemma monotone_update_category id data e : monotone (update_category id data e).
Proof. unfold update_category. monotone_walk. Qed.

Lemma monotone_create_menu_item data e : monotone (create_menu_item data e).
Proof. unfold create_menu_item. monotone_walk. Qed.

Lemma monotone_update_menu_item id data e : monotone (update_menu_item id data e).
Proof. unfold update_menu_item. monotone_walk. Qed.

Lemma monotone_delete_menu_item id e : monotone (delete_menu_item id e).
Proof. unfold delete_menu_item. monotone_walk. Qed.

Lemma monotone_toggle_publish_menu_item id e : monotone (toggle_publish_menu_item id e).
Proof. unfold toggle_publish_menu_item. monotone_walk. Qed.

Lemma monotone_reorder_categories os e : monotone (reorder_categories os e).
Proof.
  unfold reorder_categories. apply monotone_bind; [|intros _; monotone_walk].
  by apply monotone_untouched, untouched_reorder_loop.
Qed.

Lemma monotone_reorder_menu_items os e : monotone (reorder_menu_items os e).
Proof.
  unfold reorder_menu_items. apply monotone_bind; [|intros _; monotone_walk].
  by apply monotone_untouched, untouched_reorder_loop.
Qed.

Lemma monotone_update_settings data e :
  su_data_version data = None -> monotone (update_settings data e).
Proof.
  intros Hnone. unfold update_settings. destruct (decide _); [monotone_walk|].
  apply monotone_bind; [|intros _; monotone_walk].
  apply monotone_set_settings. rewrite lookup_insert_ne by done.
  apply drop_None_lookup_None. right.
  by rewrite SettingsUpdate_dict_version, Hnone.
Qed.

#[export] Hint Resolve untouched_create_category untouched_delete_category
  untouched_get_categories untouched_get_menu_items untouched_get_menu_item
  untouched_get_settings untouched_get_public_data untouched_get_data_version
  untouched_get_orders untouched_update_order_status untouched_delete_order
  untouched_get_contact_messages untouched_mark_message_read untouched_delete_message
  untouched_upload_file untouched_health untouched_verify_token untouched_login
  untouched_change_password untouched_create_order untouched_send_contact_message
  : settings_db.

#[export] Hint Resolve monotone_update_category monotone_create_menu_item
  monotone_update_menu_item monotone_delete_menu_item monotone_toggle_publish_menu_item
  monotone_reorder_categories monotone_reorder_menu_items monotone_update_settings
  : settings_db.

Lemma monotone_authed {A} ext cr e (h : TokenPayload -> M A) :
  (forall u, monotone (h u)) -> monotone (authed ext cr e h).
Proof.
  intros Hh. unfold authed. apply monotone_bind; [|done].
  apply monotone_untouched. auto with settings_db.
Qed.

Lemma monotone_fmap_M {A B} (f : A -> B) (m : M A) : monotone m -> monotone (fmap_M f m).
Proof.
  intros Hm. unfold fmap_M. apply monotone_bind; [done|].
  intros a. apply monotone_untouched, untouched_ret.
Qed.

(** Every route but a PUT /api/settings that carries [data_version] keeps
    or raises the reported version. *)
Lemma monotone_handle ext e r : no_version_payload r -> monotone (handle ext e r).
Proof.
  intros Hr. destruct r; simpl in *;
    repeat first
      [ apply monotone_authed; intros ?
      | apply monotone_fmap_M
      | solve [auto with settings_db]
      | apply monotone_untouched; solve [auto with settings_db] ].
Qed.

Lemma run_app ext rs1 rs2 db : run ext (rs1 ++ rs2) db = run ext rs2 (run ext rs1 db).
Proof.
  revert db. induction rs1 as [|[e r] rs1 IH]; intros db; simpl; [done|]. apply IH.
Qed.

Lemma version_le_run ext rs db :
  Forall (fun er => no_version_payload (snd er)) rs -> version_le db (run ext rs db).
Proof.
  intros H. revert db. induction H as [|[e r] rs Hr Hrs IH]; intros db; simpl.
  - apply version_le_refl.
  - eapply version_le_trans; [|apply IH]. by apply monotone_handle.
Qed.

(** What a PUT /api/settings that carries [data_version = v] does to the
    counter: it is [v + 1] afterwards, whatever it was. *)
Lemma update_settings_overwrites_version data e db v :
  su_data_version data = Some v -> int64 v = true ->
  exists r db', update_settings data e db = (Ok r, db') /\ stored_version db' = VInt (v + 1).
Proof.
  intros Hv Hfit. unfold update_settings.
  assert (encode_error (<["updated_at" := VDate (utcnow e)]>
                          (drop_None (SettingsUpdate_dict data))) = None) as Henc.
  { apply encode_SettingsUpdate. intros z Hz. congruence. }
  assert (drop_None (SettingsUpdate_dict data) !! "data_version" = Some (VInt v)) as Hp.
  { apply drop_None_lookup_Some; [|discriminate].
    rewrite SettingsUpdate_dict_version, Hv. reflexivity. }
  generalize dependent (drop_None (SettingsUpdate_dict data)). intros payload Henc Hp.
  destruct (decide (payload = ∅)) as [E|_].
  { rewrite E in Hp. rewrite lookup_empty in Hp. discriminate Hp. }
  assert ((stored <$> <["updated_at" := VDate (utcnow e)]> payload) !! "data_version"
          = Some (VInt v))
    as Hu.
  { rewrite lookup_fmap, lookup_insert_ne; [|discriminate]. rewrite Hp. reflexivity. }
  generalize dependent (<["updated_at" := VDate (utcnow e)]> payload). intros upd Henc Hu.
  assert (exists n dba s r, update_one_upsert c_settings (USet upd) (upsert_oid e) db
                            = (Ok n, dba) /\ settings dba = s :: r /\
                              doc_fields s !! "data_version" = Some (VInt v))
    as (n & dba & s & r & Hup & Hs & Hf).
  { unfold update_one_upsert, get_coll. cbn [update_encode_error]. rewrite Henc.
    destruct (settings db) as [|s r] eqn:Es.
    - cbn [update_first app]. unfold apply_update. eexists _, _, _, _.
      split; [reflexivity|]. rewrite settings_set_coll.
      split; [reflexivity|]. cbn [doc_fields]. apply lookup_union_Some_l. exact Hu.
    - rewrite update_first_all. unfold apply_update. eexists _, _, _, _.
      split; [reflexivity|]. rewrite settings_set_coll.
      split; [reflexivity|]. cbn [doc_fields]. apply lookup_union_Some_l. exact Hu. }
  rewrite (bind_Ok _ _ _ _ _ Hup).
  destruct (inc_data_version_wf e dba) as (n' & db' & Hinc & _ & Hcnt).
  { exists v. unfold stored_version, dict_get. rewrite Hs, Hf. reflexivity. }
  rewrite (bind_Ok _ _ _ _ _ Hinc).
  rewrite (bind_Ok _ _ _ _ _ (find_one_settings db')). unfold ret.
  eexists _, _. split; [reflexivity|].
  rewrite stored_version_counter, Hcnt. unfold counter_field. rewrite Hs, Hf. reflexivity.
Qed.

(** C2, amended.  From a database whose counter is absent or an integer,
    along any sequence of requests to the routes of the application in which
    no PUT /api/settings carries a [data_version], the version that
    GET /api/public/version reports after a prefix of the sequence is at
    most the one it reports after the whole sequence. *)
Theorem version_never_decreases (ext : External) (rs1 rs2 : list (Env * request))
    (e1 e2 : Env) (db : DB) :
  version_wf db ->
  Forall (fun er => no_version_payload (snd er)) (rs1 ++ rs2) ->
  exists v1 v2,
    fst (get_data_version e1 (run ext rs1 db))
      = Ok {| vi_dataVersion := VInt v1; vi_timestamp := utcnow e1 |} /\
    fst (get_data_version e2 (run ext (rs1 ++ rs2) db))
      = Ok {| vi_dataVersion := VInt v2; vi_timestamp := utcnow e2 |} /\
    (v1 <= v2)%Z.
Proof.
  intros [v Hv] Hrs. apply Forall_app in Hrs as [H1 H2].
  destruct (version_le_run ext rs1 db H1 v Hv) as (v1 & Hv1 & _).
  destruct (version_le_run ext rs2 (run ext rs1 db) H2 v1 Hv1) as (v2 & Hv2 & Hle).
  exists v1, v2. rewrite run_app, !get_data_version_eq. simpl.
  by rewrite Hv1, Hv2.
Qed.

Lemma version_never_decreases_witness :
  version_wf Demo.db /\
  Forall (fun er => no_version_payload (snd er)) (Demo.session_1 ++ Demo.session_2) /\
  fst (get_data_version Demo.env (run Demo.ext Demo.session_1 Demo.db))
    = Ok {| vi_dataVersion := VInt 6; vi_timestamp := utcnow Demo.env |} /\
  fst (get_data_version Demo.env (run Demo.ext (Demo.session_1 ++ Demo.session_2) Demo.db))
    = Ok {| vi_dataVersion := VInt 8; vi_timestamp := utcnow Demo.env |} /\
  exists v1 v2,
    fst (get_data_version Demo.env (run Demo.ext Demo.session_1 Demo.db))
      = Ok {| vi_dataVersion := VInt v1; vi_timestamp := utcnow Demo.env |} /\
    fst (get_data_version Demo.env
           (run Demo.ext (Demo.session_1 ++ Demo.session_2) Demo.db))
      = Ok {| vi_dataVersion := VInt v2; vi_timestamp := utcnow Demo.env |} /\
    (v1 <= v2)%Z.
Proof.
  assert (version_wf Demo.db) as Hwf by (by exists 5%Z).
  assert (Forall (fun er => no_version_payload (snd er)) (Demo.session_1 ++ Demo.session_2))
    as Hrs by (repeat constructor).
  split; [exact Hwf|]. split; [exact Hrs|].
  split; [vm_compute; reflexivity|]. split; [vm_compute; reflexivity|].
  exact (version_never_decreases Demo.ext Demo.session_1 Demo.session_2 Demo.env Demo.env
           Demo.db Hwf Hrs).
Defined.

(** C2 as stated fails: one PUT /api/settings with [data_version = 0] takes
    the reported version from 5 down to 1. *)
Lemma version_decreases_on_reset :
  fst (get_data_version Demo.env Demo.db)
    = Ok {| vi_dataVersion := VInt 5; vi_timestamp := utcnow Demo.env |} /\
  fst (get_data_version Demo.env (run Demo.ext Demo.reset_request Demo.db))
    = Ok {| vi_dataVersion := VInt 1; vi_timestamp := utcnow Demo.env |} /\
  ~ (5 <= 1)%Z.
Proof. split; [|split]; [vm_compute; reflexivity | vm_compute; reflexivity | lia]. Qed.

(** ** Which mutations increment the data version *)

Lemma counter_field_same_settings db db' :
  settings db' = settings db -> counter_field db' = counter_field db.
Proof. unfold counter_field. by intros ->. Qed.

(** The sibling routes do increment: a successful POST or DELETE of a menu
    item stores [v + 1] over [v]. *)
Lemma create_menu_item_increments data e db r db' :
  version_wf db -> create_menu_item data e db = (Ok r, db') ->
  counter_field db' =
    Some (VInt (match counter_field db with Some (VInt v) => v + 1 | _ => 1 end)).
Proof.
  intros Hwf H. unfold create_menu_item in H.
  apply bind_Ok_inv in H as (oid & db1 & Hins & H).
  pose proof (untouched_insert_one c_menu_items (new_oid e)
                (<["created_at" := VDate (utcnow e)]> (MenuItemCreate_dict data))
                ltac:(discriminate) db) as Hs.
  rewrite Hins in Hs. simpl in Hs.
  destruct (inc_data_version_wf e db1) as (n & db2 & Hinc & _ & Hcnt).
  { by apply (version_wf_same_settings db). }
  rewrite (bind_Ok _ _ _ _ _ Hinc) in H. injection H as _ <-.
  by rewrite Hcnt, (counter_field_same_settings db db1).
Qed.

Lemma delete_menu_item_increments id e db r db' :
  version_wf db -> delete_menu_item id e db = (Ok r, db') ->
  counter_field db' =
    Some (VInt (match counter_field db with Some (VInt v) => v + 1 | _ => 1 end)).
Proof.
  intros Hwf H. unfold delete_menu_item in H.
  apply bind_Ok_inv in H as (oid & db0 & Hoid & H).
  pose proof (untouched_object_id id db) as Hs0. rewrite Hoid in Hs0. simpl in Hs0.
  apply bind_Ok_inv in H as (n & db1 & Hdel & H).
  pose proof (untouched_delete_one c_menu_items (by_id oid) ltac:(discriminate) db0) as Hs.
  rewrite Hdel in Hs. simpl in Hs.
  destruct (Nat.eqb n 0); [discriminate|].
  destruct (inc_data_version_wf e db1) as (n' & db2 & Hinc & _ & Hcnt).
  { apply (version_wf_same_settings db); [congruence|done]. }
  rewrite (bind_Ok _ _ _ _ _ Hinc) in H. injection H as _ <-.
  rewrite Hcnt, (counter_field_same_settings db db1); [done|congruence].
Qed.

(** C1 fails on the code.  POST /api/categories and DELETE /api/categories
    never touch the settings, so the reported version is the same before and
    after them, for every input; on the sample database both calls succeed
    and the version reads 5 before and 5 after, while the corresponding
    calls on menu items take it to 6. *)
Theorem category_create_delete_skip_increment :
  (forall data e db, stored_version (snd (create_category data e db)) = stored_version db) /\
  (forall id db, stored_version (snd (delete_category id db)) = stored_version db) /\
  stored_version Demo.db = VInt 5 /\
  (exists r db',
     handle Demo.ext Demo.env (POST_categories Demo.new_category "a.bearer.token") Demo.db
       = (Ok r, db') /\ stored_version db' = VInt 5) /\
  (exists r db',
     handle Demo.ext Demo.env (DELETE_categories Demo.id_sweet "a.bearer.token") Demo.db
       = (Ok r, db') /\ stored_version db' = VInt 5) /\
  (exists r db',
     handle Demo.ext Demo.env (POST_menu_items Demo.new_item "a.bearer.token") Demo.db
       = (Ok r, db') /\ stored_version db' = VInt 6) /\
  (exists r db',
     handle Demo.ext Demo.env (DELETE_menu_items Demo.id_kebab "a.bearer.token") Demo.db
       = (Ok r, db') /\ stored_version db' = VInt 6).
Proof.
  split; [intros; unfold stored_version; by rewrite untouched_create_category|].
  split; [intros; unfold stored_version; by rewrite untouched_delete_category|].
  split; [reflexivity|].
  repeat split;
    match goal with
    | |- exists r db', ?h = _ /\ _ =>
        destruct (returns_inv h) as (r & db' & E); [vm_compute; exact I|];
        exists r, db'; split; [exact E|];
        change db' with (snd (Ok r, db')); rewrite <- E; vm_compute; reflexivity
    end.
Qed.

(** The first increment after a first boot is not observed: the default
    settings have no [data_version], readers report 1 for the missing field,
    and the increment stores 1. *)
Lemma first_increment_not_observed :
  counter_field Demo.booted = None /\
  stored_version Demo.booted = VInt 1 /\
  exists r db',
    create_menu_item Demo.new_item Demo.env Demo.booted = (Ok r, db') /\
    counter_field db' = Some (VInt 1) /\
    stored_version db' = VInt 1.
Proof.
  split; [vm_compute; reflexivity|]. split; [vm_compute; reflexivity|].
  destruct (returns_inv (create_menu_item Demo.new_item Demo.env Demo.booted))
    as (r & db' & E); [vm_compute; exact I|].
  exists r, db'. split; [exact E|].
  change db' with (snd (Ok r, db')). rewrite <- E.
  split; vm_compute; reflexivity.
Qed.

(** * Further properties of the routes *)

(** ** Listings and the public snapshot *)

(** X1.  GET /api/categories returns every stored category, serialized, in
    ascending order of [order], and a menu listing without the published-only
    flag (absent or [false]) returns every item, the unpublished ones
    included, restricted to the category when a non-empty one is given, in
    ascending order of [order] as well: entries without an [order] first,
    then the integer orders from the smallest to the largest. *)
Theorem plain_listings (db : DB) (category_id : option string) (po : option bool) :
  po <> Some true ->
  (exists docs,
     get_categories db = (Ok (serialize_docs docs), db) /\
     Permutation docs (categories db) /\ Sorted (key_le "order") docs /\
     ascending (serialize_docs docs)) /\
  (exists docs,
     get_menu_items category_id po db = (Ok (serialize_docs docs), db) /\
     Permutation docs
       (List.filter (fun d => match category_id with
                              | Some c => if String.eqb c "" then true else in_category c d
                              | None => true
                              end) (menu_items db)) /\
     Sorted (key_le "order") docs /\
     ascending (serialize_docs docs)).
Proof.
  intros Hpo. split.
  - unfold get_categories, bind, find_sorted, ret. eexists. split; [reflexivity|].
    split; [|split; [apply sort_asc_sorted | apply sorted_ascending, sort_asc_sorted]].
    rewrite sort_asc_perm, find_in_all. reflexivity.
  - unfold get_menu_items, bind, find_sorted, ret. eexists. split; [reflexivity|].
    split; [|split; [apply sort_asc_sorted | apply sorted_ascending, sort_asc_sorted]].
    rewrite sort_asc_perm. unfold find_in.
    cbn [get_coll].
    erewrite filter_ext_bool; [reflexivity|]. intros d.
    destruct po as [[]|]; [congruence| |];
      (destruct category_id as [c|]; [destruct (String.eqb c "")|];
       rewrite ?matches_app, ?matches_category, ?matches_all;
       try destruct (in_category c d); reflexivity).
Qed.

(** On the menu stored out of order: the categories stored as 1, 2, 0 come
    back as 0, 1, 2, and the items of the grill, stored as 9, none, 1, as
    none, 1, 9. *)
Lemma plain_listings_witness :
  (None : option bool) <> Some true /\
  (exists cats,
     get_categories Menu.db = (Ok cats, Menu.db) /\
     List.map (fun c => c !! "order") cats = [Some (VInt 0); Some (VInt 1); Some (VInt 2)] /\
     ascending cats) /\
  (exists items,
     get_menu_items (Some Demo.id_grill) None Menu.db = (Ok items, Menu.db) /\
     List.map (fun item => item !! "order") items = [None; Some (VInt 1); Some (VInt 9)] /\
     ascending items).
Proof.
  assert ((None : option bool) <> Some true) as H by discriminate.
  split; [exact H|].
  destruct (plain_listings Menu.db (Some Demo.id_grill) None H)
    as [(cats & Hc & _ & _ & Hcasc) (docs & Hg & _ & _ & Hasc)].
  split.
  - exists (serialize_docs cats). split; [exact Hc|]. split; [|exact Hcasc].
    assert (fst (get_categories Menu.db)
            = Ok (serialize_docs [Menu.meze; Demo.grill; Demo.sweet])) as Hrun
      by (vm_compute; reflexivity).
    rewrite Hc in Hrun. cbn [fst] in Hrun. injection Hrun as ->. reflexivity.
  - exists (serialize_docs docs). split; [exact Hg|]. split; [|exact Hasc].
    assert (fst (get_menu_items (Some Demo.id_grill) None Menu.db)
            = Ok (serialize_docs [Demo.kebab; Menu.ayran; Menu.lahmacun])) as Hrun
      by (vm_compute; reflexivity).
    rewrite Hg in Hrun. cbn [fst] in Hrun. injection Hrun as ->. reflexivity.
Defined.

(** X2.  The public snapshot is what the three public reads return on the
    same database: the settings of GET /api/settings, the categories of
    GET /api/categories and the unfiltered menu listing, so items with
    [is_published = false] are part of it; [lastUpdated] is the time of the
    call and the database is not changed. *)
Theorem public_data_is_the_three_reads (e : Env) (db : DB) :
  exists pd st cats items,
    get_public_data e db = (Ok pd, db) /\
    get_settings db = (Ok st, db) /\
    get_categories db = (Ok cats, db) /\
    get_menu_items None None db = (Ok items, db) /\
    pd_settings pd = st /\ pd_categories pd = cats /\ pd_items pd = items /\
    pd_lastUpdated pd = utcnow e /\
    forall d, d ∈ menu_items db -> serialize_doc1 d ∈ pd_items pd.
Proof.
  unfold get_public_data, get_settings, get_categories, get_menu_items, bind.
  rewrite find_one_settings. unfold find_sorted, ret. cbn [get_coll].
  eexists _, (match head (settings db) with Some s => serialize_doc1 s | None => ∅ end), _, _.
  split; [reflexivity|].
  split; [destruct (head (settings db)); reflexivity|].
  split; [reflexivity|]. split; [reflexivity|].
  cbn [pd_settings pd_categories pd_items pd_lastUpdated].
  split; [destruct (head (settings db)); reflexivity|].
  split; [reflexivity|]. split; [reflexivity|]. split; [reflexivity|].
  intros d Hd. apply list_elem_of_fmap_2.
  rewrite find_in_all. by rewrite sort_asc_perm.
Qed.

(** ** The authentication gate and the routes that only read *)

Lemma pure_ret {A} (a : A) : pure (ret a).
Proof. by intros db. Qed.

Lemma pure_raise {A} e : pure (@raise A e).
Proof. by intros db. Qed.

Lemma pure_bind {A B} (m : M A) (k : A -> M B) :
  pure m -> (forall a, pure (k a)) -> pure (bind m k).
Proof.
  intros Hm Hk db. unfold bind. specialize (Hm db).
  destruct (m db) as [[a|e] db1]; simpl in *; subst; [apply Hk | reflexivity].
Qed.

Lemma pure_find_one c q : pure (find_one c q).
Proof. by intros db. Qed.

Lemma pure_find_sorted c q f : pure (find_sorted c q f).
Proof. by intros db. Qed.

Lemma pure_find_latest c f n : pure (find_latest c f n).
Proof. by intros db. Qed.

Lemma pure_object_id s : pure (object_id s).
Proof. unfold object_id. destruct (ObjectId s); [apply pure_ret | apply pure_raise]. Qed.

Lemma pure_verify_token ext cr now : pure (verify_token ext cr now).
Proof.
  unfold verify_token. destruct (jwt_decode_signed ext cr); [|apply pure_raise].
  destruct (Z.ltb _ _); [apply pure_raise | apply pure_ret].
Qed.

Lemma pure_doc_getitem d k : pure (doc_getitem d k).
Proof. unfold doc_getitem. destruct (_ !! _); [apply pure_ret | apply pure_raise]. Qed.

Create HintDb pure_db.

#[export] Hint Resolve pure_ret pure_raise pure_find_one pure_find_sorted pure_find_latest
  pure_object_id pure_verify_token pure_doc_getitem : pure_db.

Ltac pure_walk :=
  repeat first
    [ progress auto with pure_db
    | apply pure_bind; [|intros ?]
    | match goal with
      | |- pure (if ?b then _ else _) => destruct b
      | |- pure (match ?x with _ => _ end) => destruct x
      end ].

(** X3.  The routes that only read (every GET and the login) return the
    database exactly as they found it, whether they answer or raise. *)
Theorem reads_leave_database (ext : External) (e : Env) (r : request) (db : DB) :
  reads_only r = true -> snd (handle ext e r db) = db.
Proof.
  intros Hr. revert db. change (pure (handle ext e r)).
  destruct r; try discriminate Hr; cbn [handle];
    unfold authed, fmap_M, login, get_me, get_categories, get_menu_items, get_menu_item,
      get_settings, get_public_data, get_data_version, get_orders, get_contact_messages,
      health;
    pure_walk.
Qed.

Lemma reads_leave_database_witness :
  reads_only (GET_menu_item Demo.id_ghost) = true /\
  handle Demo.ext Demo.env (GET_menu_item Demo.id_ghost) Demo.db
    = (Raise (HTTPException 404 "Item not found"), Demo.db) /\
  snd (handle Demo.ext Demo.env (GET_menu_item Demo.id_ghost) Demo.db) = Demo.db.
Proof.
  split; [reflexivity|]. split; [vm_compute; reflexivity|].
  exact (reads_leave_database Demo.ext Demo.env (GET_menu_item Demo.id_ghost) Demo.db eq_refl).
Defined.

Lemma authed_rejected {A} ext cr e (h : TokenPayload -> M A) db err :
  verify_token ext cr (timegm (utcnow e)) db = (Raise err, db) ->
  authed ext cr e h db = (Raise err, db).
Proof. intros H. unfold authed. by rewrite (bind_Raise _ _ _ _ _ H). Qed.

Lemma handle_rejected ext e r cr db err :
  credentials_of r = Some cr ->
  verify_token ext cr (timegm (utcnow e)) db = (Raise err, db) ->
  handle ext e r db = (Raise err, db).
Proof.
  intros Hc Hv.
  destruct r; try discriminate Hc; cbn [credentials_of] in Hc; injection Hc as ->;
    cbn [handle]; by apply authed_rejected.
Qed.

(** X4.  No admin route runs on a credential that does not verify.  A token
    whose [exp] lies before the second of the call is answered with 401
    "Token expired".  A token that does not decode is not answered with the
    401 "Invalid token" that the source spells out: the [except] clause meant
    for it names [jwt.InvalidTokenError], which python-jose does not have, and
    the request fails with [AttributeError].  In both cases the database is
    not touched; so a request to an admin route that returns, or that changes
    the database, came with a token that decodes and has not expired. *)
Theorem admin_routes_need_a_valid_token (ext : External) (e : Env) (r : request)
    (cr : string) (db : DB) :
  credentials_of r = Some cr ->
  (jwt_decode_signed ext cr = None ->
   handle ext e r db = (Raise AttributeError, db)) /\
  (forall p, jwt_decode_signed ext cr = Some p -> (tp_exp p < timegm (utcnow e))%Z ->
   handle ext e r db = (Raise (HTTPException 401 "Token expired"), db)) /\
  ((snd (handle ext e r db) <> db \/ exists resp, fst (handle ext e r db) = Ok resp) ->
   exists p, jwt_decode_signed ext cr = Some p /\ (timegm (utcnow e) <= tp_exp p)%Z).
Proof.
  intros Hc.
  assert (jwt_decode_signed ext cr = None ->
          handle ext e r db = (Raise AttributeError, db)) as H1.
  { intros Hnone. apply (handle_rejected ext e r cr); [exact Hc|].
    unfold verify_token. by rewrite Hnone. }
  assert (forall p, jwt_decode_signed ext cr = Some p -> (tp_exp p < timegm (utcnow e))%Z ->
          handle ext e r db = (Raise (HTTPException 401 "Token expired"), db)) as H2.
  { intros p Hp Hexp. apply (handle_rejected ext e r cr); [exact Hc|].
    unfold verify_token. rewrite Hp. apply Z.ltb_lt in Hexp. by rewrite Hexp. }
  split; [exact H1|]. split; [exact H2|].
  intros Hrun. destruct (jwt_decode_signed ext cr) as [p|] eqn:Hp.
  - exists p. split; [reflexivity|].
    destruct (Z.lt_ge_cases (tp_exp p) (timegm (utcnow e))) as [Hlt|Hge]; [|exact Hge].
    exfalso. rewrite (H2 p eq_refl Hlt) in Hrun.
    destruct Hrun as [Hne|[resp Hresp]]; [by apply Hne | discriminate Hresp].
  - exfalso. rewrite (H1 eq_refl) in Hrun.
    destruct Hrun as [Hne|[resp Hresp]]; [by apply Hne | discriminate Hresp].
Qed.

Lemma admin_routes_need_a_valid_token_witness :
  credentials_of (DELETE_categories Demo.id_grill "an.old.token") = Some "an.old.token" /\
  (exists p, jwt_decode_signed Demo.ext "an.old.token" = Some p /\
             (tp_exp p < timegm (utcnow Demo.late_env))%Z) /\
  handle Demo.ext Demo.late_env (DELETE_categories Demo.id_grill "an.old.token") Demo.db
    = (Raise (HTTPException 401 "Token expired"), Demo.db) /\
  jwt_decode_signed Demo.ext "not.a.token" = None /\
  handle Demo.ext Demo.env (DELETE_categories Demo.id_grill "not.a.token") Demo.db
    = (Raise AttributeError, Demo.db).
Proof.
  assert (exists p, jwt_decode_signed Demo.ext "an.old.token" = Some p /\
                    (tp_exp p < timegm (utcnow Demo.late_env))%Z) as Hexp.
  { eexists. split; [reflexivity|]. reflexivity. }
  split; [reflexivity|]. split; [exact Hexp|].
  destruct (admin_routes_need_a_valid_token Demo.ext Demo.late_env
              (DELETE_categories Demo.id_grill "an.old.token") "an.old.token" Demo.db
              eq_refl) as (_ & Hold & _).
  destruct (admin_routes_need_a_valid_token Demo.ext Demo.env
              (DELETE_categories Demo.id_grill "not.a.token") "not.a.token" Demo.db
              eq_refl) as (Hbad & _ & _).
  split; [|split; [reflexivity | exact (Hbad eq_refl)]].
  destruct Hexp as (p & Hp & Hlt). exact (Hold p Hp Hlt).
Defined.



(** ** Identifiers *)

Lemma is_lower_hex_spec c :
  is_lower_hex c = true ->
  is_space c = false /\ is_hex_digit c = true /\ lower_hex c = c.
Proof.
  destruct c as [[] [] [] [] [] [] [] []]; vm_compute; intros H;
    first [ discriminate H | repeat split ].
Qed.

Lemma fromhex_lower n : forall cs,
  List.length cs = (2 * n)%nat -> forallb is_lower_hex cs = true -> fromhex cs = Some cs.
Proof.
  induction n as [|n IH]; intros cs Hlen Hall.
  - by destruct cs.
  - destruct cs as [|c [|d cs]]; cbn [List.length] in Hlen; [lia | lia |].
    cbn [forallb] in Hall. apply andb_true_iff in Hall as [Hc Hall].
    apply andb_true_iff in Hall as [Hd Hall].
    destruct (is_lower_hex_spec c Hc) as (Hsc & Hhc & Hlc).
    destruct (is_lower_hex_spec d Hd) as (_ & Hhd & Hld).
    cbn [fromhex]. rewrite Hsc, Hhc, Hhd, Hlc, Hld.
    rewrite (IH cs); [reflexivity | lia | exact Hall].
Qed.

(** The text printed for a generated identifier converts back to it. *)
Lemma ObjectId_printed o : generated o -> ObjectId (str_of_oid o) = Some o.
Proof.
  intros [Hlen Hall]. unfold ObjectId, str_of_oid. rewrite Hlen. cbn [Nat.eqb].
  rewrite (fromhex_lower 12 _ Hlen Hall). cbn [option_map].
  rewrite string_of_list_ascii_of_string. by destruct o.
Qed.

Lemma length_string_of_list_ascii l :
  String.length (string_of_list_ascii l) = List.length l.
Proof. induction l as [|c l IH]; simpl; [done|]. by rewrite IH. Qed.

Lemma length_list_ascii_of_string s :
  List.length (list_ascii_of_string s) = String.length s.
Proof. induction s as [|c s IH]; simpl; [done|]. by rewrite IH. Qed.

(** X6.  On a collection whose identifiers are unique and generated by the
    driver, the [id] of an entry that a menu listing returns is a text of 24
    characters, and GET /api/menu-items/{id} under that text returns the
    same entry: what [serialize_doc] prints for an [_id] is read back by
    [ObjectId] as that [_id]. *)
Theorem listed_item_fetches (db : DB) (category_id : option string) (po : option bool)
    (items : list dict) (item : dict) :
  NoDup (ids (menu_items db)) ->
  Forall (fun d => generated (doc_id d)) (menu_items db) ->
  get_menu_items category_id po db = (Ok items, db) ->
  item ∈ items ->
  exists s, item !! "id" = Some (VStr s) /\ String.length s = 24%nat /\
            get_menu_item s db = (Ok (Some item), db).
Proof.
  intros Hnd Hgen Hget Hin. unfold get_menu_items, bind, find_sorted, ret in Hget.
  injection Hget as <-. apply list_elem_of_fmap in Hin as (d & -> & Hd).
  rewrite sort_asc_perm in Hd. unfold find_in in Hd.
  apply list_elem_of_In, List.filter_In in Hd as [Hd _]. apply list_elem_of_In in Hd.
  cbn [get_coll] in Hd.
  rewrite Forall_forall in Hgen. pose proof (Hgen d Hd) as Hg.
  exists (str_of_oid (doc_id d)). split; [apply lookup_insert_eq|]. split.
  { unfold str_of_oid. rewrite <- length_list_ascii_of_string. apply Hg. }
  unfold get_menu_item.
  rewrite (bind_Ok _ _ _ _ _ (object_id_Some _ _ _ (ObjectId_printed _ Hg))).
  assert (doc_id d ∈ ids (menu_items db)) as Hid by by apply list_elem_of_fmap_2.
  destruct (ids_split _ _ Hid) as (l1 & d0 & l2 & Hl & Hd0 & Hn1).
  assert (d = d0) as <-.
  { apply (NoDup_ids_eq (menu_items db)); try done.
    rewrite Hl. apply elem_of_app. right. apply elem_of_cons. by left. }
  by rewrite (bind_Ok _ _ _ _ _ (find_one_split c_menu_items _ db l1 d l2 Hl eq_refl Hn1)).
Qed.

Lemma listed_item_fetches_witness :
  NoDup (ids (menu_items Demo.db)) /\
  Forall (fun d => generated (doc_id d)) (menu_items Demo.db) /\
  exists items item,
    get_menu_items (Some Demo.id_sweet) None Demo.db = (Ok items, Demo.db) /\
    items = [item] /\
    item !! "id" = Some (VStr Demo.id_baklava) /\
    get_menu_item Demo.id_baklava Demo.db = (Ok (Some item), Demo.db).
Proof.
  assert (NoDup (ids (menu_items Demo.db))) as Hnd by by_compute.
  assert (Forall (fun d => generated (doc_id d)) (menu_items Demo.db)) as Hgen.
  { repeat constructor. }
  split; [exact Hnd|]. split; [exact Hgen|].
  exists [serialize_doc1 Demo.baklava], (serialize_doc1 Demo.baklava).
  assert (get_menu_items (Some Demo.id_sweet) None Demo.db
          = (Ok [serialize_doc1 Demo.baklava], Demo.db)) as Hget by reflexivity.
  split; [exact Hget|]. split; [reflexivity|]. split; [reflexivity|].
  destruct (listed_item_fetches Demo.db (Some Demo.id_sweet) None _
              (serialize_doc1 Demo.baklava) Hnd Hgen Hget)
    as (s & Hs & _ & Hfetch).
  { apply elem_of_cons. by left. }
  assert (serialize_doc1 Demo.baklava !! "id" = Some (VStr Demo.id_baklava)) as Hs'
    by reflexivity.
  rewrite Hs' in Hs. injection Hs as <-. exact Hfetch.
Defined.

(** ** Creating, fetching and deleting *)

Lemma insert_one_inv c o d db r db' :
  insert_one c o d db = (Ok r, db') ->
  encode_error d = None /\ r = o /\ (o ∉ ids (get_coll c db)) /\
  db' = set_coll c (get_coll c db ++ [Doc o (stored <$> d)]) db.
Proof.
  unfold insert_one. destruct (encode_error d); [discriminate|].
  destruct (decide _) as [|Hn]; [discriminate|].
  intros H. injection H as <- <-. done.
Qed.

Lemma find_one_appended c o f db l :
  get_coll c db = (l ++ [Doc o f])%list -> o ∉ ids l ->
  find_one c (by_id o) db = (Ok (Some (Doc o f)), db).
Proof. intros Hl Hn. by apply (find_one_split c o db l (Doc o f) []). Qed.

(** X7.  A successful POST /api/categories appends one document, the
    payload with [created_at], under an identifier that was not stored, and
    touches no other collection.  The dict it returns has the identifier as
    text under [id] and no [_id]; it is the entry that GET /api/categories
    then lists for the new category but for [created_at], which the returned
    dict holds to the microsecond and the stored document to the
    millisecond. *)
Theorem create_category_round_trip (data : CategoryCreate) (e : Env) (db db' : DB)
    (r : dict) :
  create_category data e db = (Ok r, db') ->
  let d := Doc (new_oid e)
             (<["created_at" := VDate (millis (utcnow e))]> (CategoryCreate_dict data)) in
  (new_oid e ∉ ids (categories db)) /\
  categories db' = (categories db ++ [d])%list /\
  same_except c_categories db db' /\
  r = <["id" := VStr (str_of_oid (new_oid e))]>
        (<["created_at" := VDate (utcnow e)]> (CategoryCreate_dict data)) /\
  r !! "id" = Some (VStr (str_of_oid (new_oid e))) /\ r !! "_id" = None /\
  r !! "created_at" = Some (VDate (utcnow e)) /\
  serialize_doc1 d = <["created_at" := VDate (millis (utcnow e))]> r /\
  exists cats, get_categories db' = (Ok cats, db') /\ serialize_doc1 d ∈ cats.
Proof.
  intros H d. unfold create_category in H.
  apply bind_Ok_inv in H as (oid & db1 & Hins & H).
  apply insert_one_inv in Hins as (_ & -> & Hn & ->).
  rewrite (stored_stamped _ _ _ (dateless_CategoryCreate data)) in H. fold d in H.
  destruct (decide _) as [_|Hno] in H.
  2:{ exfalso. apply Hno. rewrite lookup_insert_ne by done. rewrite lookup_insert_eq. by eexists. }
  injection H as <- <-.
  assert (CategoryCreate_dict data !! "_id" = None) as Hnoid by reflexivity.
  assert (delete "_id"
            (<["id" := VStr (str_of_oid (new_oid e))]>
               (<["_id" := VOid (new_oid e)]>
                  (<["created_at" := VDate (utcnow e)]> (CategoryCreate_dict data))))
          = <["id" := VStr (str_of_oid (new_oid e))]>
              (<["created_at" := VDate (utcnow e)]> (CategoryCreate_dict data))) as Hret.
  { rewrite delete_insert_ne by done. rewrite delete_insert_eq.
    rewrite delete_id; [reflexivity|]. by rewrite lookup_insert_ne. }
  rewrite Hret.
  split; [exact Hn|]. split; [exact (get_set_coll c_categories _ db)|].
  split; [apply same_except_set|].
  split; [reflexivity|].
  split; [apply lookup_insert_eq|].
  split.
  { rewrite !lookup_insert_ne by done. exact Hnoid. }
  split.
  { rewrite lookup_insert_ne by done. apply lookup_insert_eq. }
  split.
  { unfold serialize_doc1, to_dict, d. cbn [doc_id doc_fields].
    rewrite delete_insert_eq. rewrite delete_id by (by rewrite lookup_insert_ne).
    rewrite (insert_insert_ne _ "created_at" "id") by done.
    by rewrite insert_insert_eq. }
  unfold get_categories, bind, find_sorted, ret. eexists. split; [reflexivity|].
  apply list_elem_of_fmap_2. rewrite sort_asc_perm, find_in_all, get_set_coll.
  apply elem_of_app. right. apply elem_of_cons. left. reflexivity.
Qed.

Lemma create_category_round_trip_witness :
  exists r db',
    create_category Demo.new_category Demo.env Demo.db = (Ok r, db') /\
    r !! "id" = Some (VStr (str_of_oid (new_oid Demo.env))) /\ r !! "_id" = None /\
    r !! "created_at" = Some (VDate 1700000000123456) /\
    exists cats listed,
      get_categories db' = (Ok cats, db') /\ listed ∈ cats /\
      listed = <["created_at" := VDate 1700000000123000]> r.
Proof.
  destruct (returns_inv (create_category Demo.new_category Demo.env Demo.db))
    as (r & db' & E); [vm_compute; exact I|].
  exists r, db'. split; [exact E|].
  destruct (create_category_round_trip Demo.new_category Demo.env Demo.db db' r E)
    as (_ & _ & _ & _ & Hid & Hno & Hat & Hser & (cats & Hl & Hin)).
  split; [exact Hid|]. split; [exact Hno|]. split; [exact Hat|].
  eexists cats, _. split; [exact Hl|]. split; [exact Hin|]. exact Hser.
Defined.

(** An identifier that is already stored makes the insert fail and nothing
    is written; so does an [order] that does not fit 8 bytes. *)
Lemma create_category_duplicate data e db :
  int64 (cc_order data) = true ->
  new_oid e ∈ ids (categories db) ->
  create_category data e db = (Raise DuplicateKeyError, db).
Proof.
  intros Hfit Hin. unfold create_category, bind, insert_one. cbn [get_coll].
  assert (encode_error (<["created_at" := VDate (utcnow e)]> (CategoryCreate_dict data))
          = None) as ->.
  { apply encode_error_insert; [reflexivity|]. unfold CategoryCreate_dict.
    apply encode_error_list. repeat first [ apply List.Forall_nil | apply List.Forall_cons ];
      try reflexivity.
    unfold field_encode_error; cbn [fst snd value_encode_error has_nul].
    change (has_nul "order") with false. cbv iota. by rewrite Hfit. }
  by destruct (decide _).
Qed.

Lemma create_menu_item_returned data e db r db' :
  create_menu_item data e db = (Ok r, db') -> r !! "_id" = Some (VOid (new_oid e)).
Proof.
  unfold create_menu_item. intros H.
  apply bind_Ok_inv in H as (oid & db1 & Hins & H).
  apply insert_one_inv in Hins as (_ & -> & _ & _).
  apply bind_Ok_inv in H as (n & db2 & _ & H). injection H as <- _.
  rewrite lookup_insert_ne by done. apply lookup_insert_eq.
Qed.

Lemma not_jsonable_with_oid (r : dict) k o :
  r !! k = Some (VOid o) -> dict_jsonable r = false.
Proof.
  intros Hk. unfold dict_jsonable. apply bool_decide_eq_false. intros Hall.
  specialize (Hall k (VOid o) Hk). discriminate Hall.
Qed.

(** X8.  No POST /api/menu-items is answered with the new item.  When the
    handler returns it has appended the payload with [created_at] as one
    document and incremented the data version, and the dict it returns still
    holds the ObjectId under [_id] (the one of POST /api/categories does not):
    FastAPI cannot turn it into JSON and the request fails, with the item
    stored, the version incremented, and GET /api/menu-items/{id} returning
    the item under the new identifier. *)
Theorem create_menu_item_round_trip (ext : External) (data : MenuItemCreate) (e : Env)
    (cr : string) (db : DB) :
  (forall resp db', serve ext e (POST_menu_items data cr) db <> (Ok resp, db')) /\
  (forall r db',
     version_wf db -> generated (new_oid e) ->
     create_menu_item data e db = (Ok r, db') ->
     let d := Doc (new_oid e)
                (<["created_at" := VDate (millis (utcnow e))]> (MenuItemCreate_dict data)) in
     (new_oid e ∉ ids (menu_items db)) /\
     menu_items db' = (menu_items db ++ [d])%list /\
     r !! "_id" = Some (VOid (new_oid e)) /\
     r !! "id" = Some (VStr (str_of_oid (new_oid e))) /\
     get_menu_item (str_of_oid (new_oid e)) db' = (Ok (Some (serialize_doc1 d)), db') /\
     counter_field db' =
       Some (VInt (match counter_field db with Some (VInt v) => v + 1 | _ => 1 end)) /\
     (forall p, jwt_decode_signed ext cr = Some p -> (timegm (utcnow e) <= tp_exp p)%Z ->
        serve ext e (POST_menu_items data cr) db = (Raise ValueError, db'))).
Proof.
  split.
  - intros resp db' H. unfold serve in H. cbn [handle] in H.
    unfold authed, fmap_M in H.
    destruct (verify_token ext cr (timegm (utcnow e)) db) as [[u|err] db1] eqn:Hv.
    2:{ rewrite (bind_Raise _ _ _ _ _ Hv) in H. discriminate H. }
    rewrite (bind_Ok _ _ _ _ _ Hv) in H.
    destruct (create_menu_item data e db1) as [[r|err] db2] eqn:Hc.
    2:{ rewrite (bind_Raise _ _ _ _ _ Hc) in H. discriminate H. }
    rewrite (bind_Ok _ _ _ _ _ Hc) in H. unfold ret in H.
    cbn [response_jsonable] in H.
    rewrite (not_jsonable_with_oid r "_id" _ (create_menu_item_returned _ _ _ _ _ Hc)) in H.
    discriminate H.
  - intros r db' Hwf Hgen H d.
    pose proof (create_menu_item_increments data e db r db' Hwf H) as Hcnt.
    pose proof (create_menu_item_returned data e db r db' H) as Hid.
    pose proof H as Hrun. unfold create_menu_item in H.
    apply bind_Ok_inv in H as (oid & db1 & Hins & H).
    apply insert_one_inv in Hins as (_ & -> & Hn & ->).
    rewrite (stored_stamped _ _ _ (dateless_MenuItemCreate data)) in H. fold d in H.
    apply bind_Ok_inv in H as (n & db2 & Hinc & H). injection H as <- <-.
    pose proof (upsert_same_except (UInc1 "data_version") (upsert_oid e)
                  (set_coll c_menu_items (get_coll c_menu_items db ++ [d]) db)) as Hfr.
    rewrite Hinc in Hfr. cbn [snd] in Hfr.
    assert (menu_items db2 = (menu_items db ++ [d])%list) as Hitems.
    { change (get_coll c_menu_items db2 = (get_coll c_menu_items db ++ [d])%list).
      rewrite Hfr by done. apply get_set_coll. }
    split; [exact Hn|]. split; [exact Hitems|].
    split; [exact Hid|].
    split; [apply lookup_insert_eq|].
    split; [|split; [exact Hcnt|]].
    + unfold get_menu_item.
      rewrite (bind_Ok _ _ _ _ _ (object_id_Some _ _ _ (ObjectId_printed _ Hgen))).
      rewrite (bind_Ok _ _ _ _ _
                 (find_one_appended c_menu_items (new_oid e) _ db2 (menu_items db) Hitems Hn)).
      reflexivity.
    + intros p Hp Hexp. unfold serve. cbn [handle]. unfold authed, fmap_M.
      assert (verify_token ext cr (timegm (utcnow e)) db = (Ok p, db)) as Hv.
      { unfold verify_token. rewrite Hp. apply Z.ltb_ge in Hexp. by rewrite Hexp. }
      rewrite (bind_Ok _ _ _ _ _ Hv), (bind_Ok _ _ _ _ _ Hrun). unfold ret.
      cbn [response_jsonable]. by rewrite (not_jsonable_with_oid _ "_id" _ Hid).
Qed.

Lemma create_menu_item_round_trip_witness :
  version_wf Demo.db /\ generated (new_oid Demo.env) /\
  exists r db',
    create_menu_item Demo.new_item Demo.env Demo.db = (Ok r, db') /\
    r !! "_id" = Some (VOid (new_oid Demo.env)) /\
    serve Demo.ext Demo.env (POST_menu_items Demo.new_item "a.bearer.token") Demo.db
      = (Raise ValueError, db') /\
    (exists d, get_menu_item (str_of_oid (new_oid Demo.env)) db' = (Ok (Some d), db')) /\
    stored_version db' = VInt 6.
Proof.
  assert (version_wf Demo.db) as Hwf by (by exists 5%Z).
  assert (generated (new_oid Demo.env)) as Hgen by (split; reflexivity).
  split; [exact Hwf|]. split; [exact Hgen|].
  destruct (returns_inv (create_menu_item Demo.new_item Demo.env Demo.db))
    as (r & db' & E); [vm_compute; exact I|].
  exists r, db'. split; [exact E|].
  destruct (create_menu_item_round_trip Demo.ext Demo.new_item Demo.env "a.bearer.token"
              Demo.db) as [_ H].
  destruct (H r db' Hwf Hgen E) as (_ & _ & Hid & _ & Hget & Hcnt & Hserve).
  split; [exact Hid|]. split; [|split].
  - apply (Hserve _ eq_refl). vm_compute. discriminate.
  - eexists. exact Hget.
  - rewrite stored_version_counter, Hcnt. reflexivity.
Defined.

(** X9.  GET /api/menu-items/{id}: a text that [ObjectId] does not accept
    raises the conversion error, an identifier that no item has is answered
    with 404 (also one of fewer than 12 bytes, from a text with whitespace),
    and otherwise the first item with that identifier is returned,
    serialized; the database is never changed. *)
Theorem get_menu_item_cases (item_id : string) (db : DB) :
  match ObjectId item_id with
  | None => get_menu_item item_id db = (Raise InvalidId, db)
  | Some oid =>
      ((oid ∉ ids (menu_items db)) /\
       get_menu_item item_id db = (Raise (HTTPException 404 "Item not found"), db)) \/
      (exists d, d ∈ menu_items db /\ doc_id d = oid /\
                 get_menu_item item_id db = (Ok (Some (serialize_doc1 d)), db))
  end.
Proof.
  unfold get_menu_item. destruct (ObjectId item_id) as [oid|] eqn:Ho.
  - rewrite (bind_Ok _ _ _ _ _ (object_id_Some _ _ _ Ho)).
    destruct (decide (oid ∈ ids (menu_items db))) as [Hin|Hn].
    + right. destruct (ids_split oid _ Hin) as (l1 & d & l2 & Hl & Hd & Hn1).
      exists d. split; [rewrite Hl; apply elem_of_app; right; apply elem_of_cons; by left|].
      split; [exact Hd|].
      by rewrite (bind_Ok _ _ _ _ _ (find_one_split c_menu_items oid db l1 d l2 Hl Hd Hn1)).
    + left. split; [exact Hn|].
      by rewrite (bind_Ok _ _ _ _ _ (find_one_absent c_menu_items oid db Hn)).
  - by rewrite (bind_Raise _ _ _ _ _ (object_id_None _ _ Ho)).
Qed.

(** The three cases on the demo database: a text of 23 characters, a text of
    22 digits and two spaces, the text of a stored identifier in upper
    case. *)
Lemma get_menu_item_cases_witness :
  get_menu_item "64b7f0a1c2d3e4f5a6b7c8e" Demo.db = (Raise InvalidId, Demo.db) /\
  ObjectId Demo.id_short = Some (Oid "64b7f0a1c2d3e4f5a6b7c8") /\
  get_menu_item Demo.id_short Demo.db
    = (Raise (HTTPException 404 "Item not found"), Demo.db) /\
  get_menu_item "64B7F0A1C2D3E4F5A6B7C8E1" Demo.db
    = (Ok (Some (serialize_doc1 Demo.kebab)), Demo.db).
Proof.
  pose proof (get_menu_item_cases "64b7f0a1c2d3e4f5a6b7c8e" Demo.db) as H1.
  pose proof (get_menu_item_cases Demo.id_short Demo.db) as H2.
  assert (ObjectId "64b7f0a1c2d3e4f5a6b7c8e" = None) as E1 by reflexivity.
  assert (ObjectId Demo.id_short = Some (Oid "64b7f0a1c2d3e4f5a6b7c8")) as E2
    by (vm_compute; reflexivity).
  rewrite E1 in H1. rewrite E2 in H2.
  split; [exact H1|]. split; [exact E2|]. split; [|vm_compute; reflexivity].
  destruct H2 as [[_ H2]|(d & Hd & Hid & _)]; [exact H2|].
  exfalso. assert (Oid "64b7f0a1c2d3e4f5a6b7c8" ∉ ids (menu_items Demo.db)) as Hn by by_compute.
  apply Hn. rewrite <- Hid. by apply list_elem_of_fmap_2.
Defined.



(** X11.  A successful update of a category changes the one stored category
    with that [_id] and no other document of any collection but the settings:
    [updated_at] is the time of the call (to the millisecond, as BSON keeps
    a date), each field supplied with a non-null
    value holds it, every other field is what it was, and the dict returned
    is the serialized new document. *)
Theorem update_category_frame (category_id : string) (data : CategoryUpdate) (e : Env)
    (db db' : DB) (r : option dict) :
  update_category category_id data e db = (Ok r, db') ->
  exists oid l1 d l2 d',
    ObjectId category_id = Some oid /\
    categories db = (l1 ++ d :: l2)%list /\ doc_id d = oid /\ (oid ∉ ids l1) /\
    categories db' = (l1 ++ d' :: l2)%list /\ doc_id d' = oid /\
    r = Some (serialize_doc1 d') /\
    doc_fields d' !! "updated_at" = Some (VDate (millis (utcnow e))) /\
    (forall k v, k <> "updated_at" -> CategoryUpdate_dict data !! k = Some v ->
                 v <> VNull -> doc_fields d' !! k = Some v) /\
    (forall k, k <> "updated_at" ->
               CategoryUpdate_dict data !! k = None \/
               CategoryUpdate_dict data !! k = Some VNull ->
               doc_fields d' !! k = doc_fields d !! k) /\
    (forall c, c <> c_categories -> c <> c_settings -> get_coll c db' = get_coll c db).
Proof.
  unfold update_category. intros H.
  destruct (decide (drop_None (CategoryUpdate_dict data) = ∅)) as [|_]; [discriminate H|].
  apply update_by_id_inv in H as (oid & l1 & d & l2 & Ho & Hl & Hd & Hn & Hl' & -> & Hfr);
    [|discriminate].
  exists oid, l1, d, l2,
    (Doc oid ((stored <$> <["updated_at" := VDate (utcnow e)]>
                             (drop_None (CategoryUpdate_dict data))) ∪ doc_fields d)).
  destruct (set_update_data_fields (CategoryUpdate_dict data) (doc_fields d) (utcnow e)
              (dateless_CategoryUpdate data))
    as (H1 & H2 & H3).
  exact (conj Ho (conj Hl (conj Hd (conj Hn (conj Hl' (conj eq_refl (conj eq_refl
          (conj H1 (conj H2 (conj H3 Hfr)))))))))).
Qed.

Lemma update_category_frame_witness :
  exists r db',
    update_category Demo.id_grill Demo.name_update Demo.env Demo.db = (Ok r, db') /\
    exists d', categories db' = [d'; Demo.sweet] /\
               doc_fields d' !! "name" = Some (VStr "Mangal") /\
               doc_fields d' !! "slug" = Some (VStr "grill") /\
               menu_items db' = menu_items Demo.db.
Proof.
  destruct (returns_inv (update_category Demo.id_grill Demo.name_update Demo.env Demo.db))
    as (r & db' & E); [vm_compute; exact I|].
  exists r, db'. split; [exact E|].
  destruct (update_category_frame Demo.id_grill Demo.name_update Demo.env Demo.db db' r E)
    as (oid & l1 & d & l2 & d' & Ho & Hl & Hd & Hn & Hl' & _ & _ & _ & Hset & Hkeep & Hfr).
  injection Ho as <-.
  destruct l1 as [|x l1].
  - cbn in Hl. injection Hl as <- <-. exists d'. split; [exact Hl'|].
    split; [apply Hset; [discriminate | reflexivity | discriminate]|].
    split; [rewrite Hkeep; [reflexivity | discriminate | right; reflexivity]|].
    apply (Hfr c_menu_items); discriminate.
  - exfalso. cbn in Hl. injection Hl as <- _. apply Hn. apply elem_of_cons. by left.
Defined.

(** ** Which routes increment the data version, and by how much *)

Lemma keeps_untouched {A} (m : M A) : untouched m -> keeps_counter m.
Proof. intros H db. apply counter_field_same_settings, H. Qed.

Lemma keeps_bind {A B} (m : M A) (k : A -> M B) :
  keeps_counter m -> (forall a, keeps_counter (k a)) -> keeps_counter (bind m k).
Proof.
  intros Hm Hk db. unfold bind. specialize (Hm db).
  destruct (m db) as [[a|e] db1]; cbn [snd] in *; [|exact Hm].
  by rewrite Hk.
Qed.

Lemma version_wf_counter db db' :
  counter_field db' = counter_field db -> version_wf db -> version_wf db'.
Proof.
  intros Hc [v Hv]. exists v. by rewrite stored_version_counter, Hc, <- stored_version_counter.
Qed.

Lemma increments_raise {A} e : increments_once (@raise A e).
Proof. intros db a db' _ H. discriminate H. Qed.

Lemma increments_inc e : increments_once (inc_data_version e).
Proof.
  intros db a db' Hwf H.
  destruct (inc_data_version_wf e db Hwf) as (n & db2 & Hinc & _ & Hcnt).
  rewrite Hinc in H. injection H as _ <-. exact Hcnt.
Qed.

Lemma increments_bind_l {A B} (m : M A) (k : A -> M B) :
  keeps_counter m -> (forall a, increments_once (k a)) -> increments_once (bind m k).
Proof.
  intros Hm Hk db b db' Hwf H. apply bind_Ok_inv in H as (a & db1 & Hma & Hkb).
  specialize (Hm db). rewrite Hma in Hm. cbn [snd] in Hm.
  rewrite <- Hm. apply (Hk a db1 b db'); [|exact Hkb].
  by apply (version_wf_counter db).
Qed.

Lemma increments_bind_r {A B} (m : M A) (k : A -> M B) :
  increments_once m -> (forall a, keeps_counter (k a)) -> increments_once (bind m k).
Proof.
  intros Hm Hk db b db' Hwf H. apply bind_Ok_inv in H as (a & db1 & Hma & Hkb).
  specialize (Hk a db1). rewrite Hkb in Hk. cbn [snd] in Hk.
  rewrite Hk. by apply (Hm db a db1).
Qed.

Ltac keeps_walk :=
  repeat first
    [ apply keeps_untouched; solve [untouched_walk]
    | apply keeps_bind; [|intros ?]
    | match goal with
      | |- keeps_counter (if ?b then _ else _) => destruct b
      | |- keeps_counter (match ?x with _ => _ end) => destruct x
      end ].

Ltac increments_walk :=
  repeat first
    [ apply increments_raise
    | apply increments_inc
    | apply increments_bind_r; [apply increments_inc | intros ?; solve [keeps_walk]]
    | apply increments_bind_l; [solve [keeps_walk] | intros ?]
    | match goal with
      | |- increments_once (if ?b then _ else _) => destruct b
      | |- increments_once (match ?x with _ => _ end) => destruct x
      end ].

Lemma keeps_set_settings (f : dict) o :
  f !! "data_version" = None -> keeps_counter (update_one_upsert c_settings (USet f) o).
Proof.
  intros Hf db.
  assert ((stored <$> f) !! "data_version" = None) as Hf' by (by rewrite lookup_fmap, Hf).
  unfold update_one_upsert. destruct (update_encode_error (USet f)); [reflexivity|].
  unfold get_coll, counter_field.
  destruct (settings db) as [|s r] eqn:Hs.
  - cbn [update_first]. unfold apply_update. cbn [snd]. rewrite settings_set_coll.
    cbn [app doc_fields]. rewrite lookup_union_r by exact Hf'. apply lookup_empty.
  - rewrite update_first_all. unfold apply_update. cbn [snd]. rewrite settings_set_coll.
    cbn [doc_fields]. by rewrite lookup_union_r.
Qed.

Lemma increments_update_settings data e :
  su_data_version data = None -> increments_once (update_settings data e).
Proof.
  intros Hnone. unfold update_settings. destruct (decide _); [apply increments_raise|].
  apply increments_bind_l; [|intros _; increments_walk].
  apply keeps_set_settings. rewrite lookup_insert_ne by discriminate.
  apply drop_None_lookup_None. right.
  rewrite SettingsUpdate_dict_version, Hnone. reflexivity.
Qed.

Lemma increments_reorder c (msg : string) os e :
  c <> c_settings ->
  increments_once (reorder_loop c os ;;; inc_data_version e ;;; ret msg).
Proof.
  intros Hc. apply increments_bind_l; [|intros _; increments_walk].
  by apply keeps_untouched, untouched_reorder_loop.
Qed.

Lemma increments_authed {A} ext cr e (h : TokenPayload -> M A) :
  (forall u, increments_once (h u)) -> increments_once (authed ext cr e h).
Proof.
  intros Hh. unfold authed. apply increments_bind_l; [|exact Hh].
  apply keeps_untouched, untouched_verify_token.
Qed.

Lemma increments_fmap_M {A B} (f : A -> B) (m : M A) :
  increments_once m -> increments_once (fmap_M f m).
Proof.
  intros Hm. unfold fmap_M. apply increments_bind_r; [exact Hm|].
  intros a. apply keeps_untouched, untouched_ret.
Qed.

(** X12.  Every admin route that does increment does so exactly once per
    successful call: after an update of a category, a create, update, delete
    or toggle of a menu item, a reorder, or an update of the settings that
    does not carry [data_version], the stored counter is [v + 1] over a
    stored integer [v] (and 1 when the field was absent). *)
Theorem successful_mutation_increments_once (ext : External) (e : Env) (r : request)
    (db db' : DB) (resp : response) :
  incrementing r = true -> no_version_payload r -> version_wf db ->
  handle ext e r db = (Ok resp, db') ->
  counter_field db' = Some (VInt (next_version (counter_field db))) /\
  (forall v, counter_field db = Some (VInt v) -> stored_version db' = VInt (v + 1)).
Proof.
  intros Hr Hp Hwf H.
  assert (increments_once (handle ext e r)) as Hinc.
  { destruct r; try discriminate Hr; cbn [handle];
      apply increments_authed; intros u; apply increments_fmap_M.
    - unfold update_category. increments_walk.
    - unfold create_menu_item. increments_walk.
    - unfold update_menu_item. increments_walk.
    - unfold delete_menu_item. increments_walk.
    - unfold toggle_publish_menu_item. increments_walk.
    - by apply increments_reorder.
    - by apply increments_reorder.
    - by apply increments_update_settings. }
  pose proof (Hinc db resp db' Hwf H) as Hc. split; [exact Hc|].
  intros v Hv. rewrite stored_version_counter, Hc, Hv. reflexivity.
Qed.

Lemma successful_mutation_increments_once_witness :
  incrementing (PUT_settings Demo.phone_update "a.bearer.token") = true /\
  no_version_payload (PUT_settings Demo.phone_update "a.bearer.token") /\
  version_wf Demo.db /\ counter_field Demo.db = Some (VInt 5) /\
  exists resp db',
    handle Demo.ext Demo.env (PUT_settings Demo.phone_update "a.bearer.token") Demo.db
      = (Ok resp, db') /\
    stored_version db' = VInt 6.
Proof.
  assert (version_wf Demo.db) as Hwf by (by exists 5%Z).
  split; [reflexivity|]. split; [reflexivity|]. split; [exact Hwf|]. split; [reflexivity|].
  destruct (returns_inv (handle Demo.ext Demo.env
                           (PUT_settings Demo.phone_update "a.bearer.token") Demo.db))
    as (resp & db' & E); [vm_compute; exact I|].
  exists resp, db'. split; [exact E|].
  destruct (successful_mutation_increments_once Demo.ext Demo.env
              (PUT_settings Demo.phone_update "a.bearer.token") Demo.db db' resp
              eq_refl eq_refl Hwf E) as [_ Hv].
  exact (Hv 5%Z eq_refl).
Defined.

(** X13.  No other route writes the settings collection: creating or
    deleting a category, orders and contact messages with their
    notifications, the order and message administration, login, password
    change, upload and every read leave it, and with it the data version,
    exactly as it was, whether they return or raise. *)
Theorem other_routes_leave_settings (ext : External) (e : Env) (r : request) (db : DB) :
  incrementing r = false -> settings (snd (handle ext e r db)) = settings db.
Proof.
  intros Hr. revert db. change (untouched (handle ext e r)).
  destruct r; try discriminate Hr; cbn [handle]; unfold authed, fmap_M;
    repeat first
      [ progress auto with settings_db
      | apply untouched_bind; [|intros ?] ].
Qed.

Lemma other_routes_leave_settings_witness :
  incrementing (DELETE_categories Demo.id_grill "a.bearer.token") = false /\
  (exists resp db',
     handle Demo.ext Demo.env (DELETE_categories Demo.id_grill "a.bearer.token") Demo.db
       = (Ok resp, db') /\ menu_items db' = [Demo.baklava]) /\
  settings (snd (handle Demo.ext Demo.env
                   (DELETE_categories Demo.id_grill "a.bearer.token") Demo.db))
    = settings Demo.db.
Proof.
  split; [reflexivity|]. split.
  - destruct (returns_inv (handle Demo.ext Demo.env
                             (DELETE_categories Demo.id_grill "a.bearer.token") Demo.db))
      as (resp & db' & E); [vm_compute; exact I|].
    exists resp, db'. split; [exact E|].
    change db' with (snd (Ok resp, db')). rewrite <- E. vm_compute. reflexivity.
  - exact (other_routes_leave_settings Demo.ext Demo.env
             (DELETE_categories Demo.id_grill "a.bearer.token") Demo.db eq_refl).
Defined.

(** ** Invariants of the stored data *)

Lemma db_ok_set c l db : db_ok db -> coll_ok c l -> db_ok (set_coll c l db).
Proof.
  intros Hdb Hl c'. destruct (decide (c = c')) as [<-|Hne].
  - by rewrite get_set_coll.
  - rewrite get_set_coll_ne by done. apply Hdb.
Qed.

Lemma fields_ok_union c (f old : dict) :
  fields_ok c f -> fields_ok c old -> fields_ok c (f ∪ old).
Proof.
  intros [Hf1 Hf2] [Ho1 Ho2]. split; intros Hc.
  - destruct (Hf1 Hc) as [Hn|[b Hb]].
    + destruct (Ho1 Hc) as [Hn'|[b Hb]].
      * left. rewrite lookup_union_r by exact Hn. exact Hn'.
      * right. exists b. rewrite lookup_union_r by exact Hn. exact Hb.
    + right. exists b. by apply lookup_union_Some_l.
  - destruct (Hf2 Hc) as [Hn|[v Hv]].
    + destruct (Ho2 Hc) as [Hn'|[v Hv]].
      * left. rewrite lookup_union_r by exact Hn. exact Hn'.
      * right. exists v. rewrite lookup_union_r by exact Hn. exact Hv.
    + right. exists v. by apply lookup_union_Some_l.
Qed.

(** On a counter that is absent or an integer the increment succeeds and
    stores an integer. *)
Lemma inc_counter_ok (f : dict) :
  counter_ok f ->
  exists z, apply_update (UInc1 "data_version") f = Some (<["data_version" := VInt z]> f).
Proof.
  unfold apply_update. intros [Hn|[v Hv]].
  - rewrite Hn. by exists 1%Z.
  - rewrite Hv. by exists (v + 1)%Z.
Qed.

Lemma fields_ok_settings_insert (f : dict) z :
  fields_ok c_settings (<["data_version" := VInt z]> f).
Proof.
  split; intros Hc; [discriminate Hc|]. right. exists z. apply lookup_insert_eq.
Qed.

(** What is read back of well-formed fields is well-formed. *)
Lemma fields_ok_stored c (f : dict) : fields_ok c f -> fields_ok c (stored <$> f).
Proof.
  intros [Hf1 Hf2]. split; intros Hc.
  - destruct (Hf1 Hc) as [Hn|[b Hb]]; [left | right; exists b];
      rewrite lookup_fmap; [by rewrite Hn | by rewrite Hb].
  - destruct (Hf2 Hc) as [Hn|[v Hv]]; [left | right; exists v];
      rewrite lookup_fmap; [by rewrite Hn | by rewrite Hv].
Qed.

(** Updating one document in place keeps the identifiers, in order. *)
Lemma update_first_ids q u l l' : update_first q u l = Some (Some l') -> ids l' = ids l.
Proof.
  revert l'. induction l as [|d r IH]; intros l'; cbn [update_first]; [discriminate|].
  destruct (matches q d).
  - destruct (apply_update u (doc_fields d)); intros H; [|discriminate H].
    injection H as <-. reflexivity.
  - destruct (update_first q u r) as [[r'|]|]; intros H; try discriminate H.
    injection H as <-. unfold ids in *. cbn [List.map]. f_equal. by apply IH.
Qed.

Lemma update_first_set_ok c q f l l' :
  update_first q (USet f) l = Some (Some l') ->
  fields_ok c f -> coll_ok c l -> coll_ok c l'.
Proof.
  intros Hup Hf (Hnd & Hall & Hlen). split; [|split].
  - by rewrite (update_first_ids _ _ _ _ Hup).
  - clear Hnd Hlen. revert l' Hup. induction Hall as [|d r Hd Hr IH]; intros l';
      cbn [update_first]; [discriminate|].
    destruct (matches q d).
    + unfold apply_update. intros H. injection H as <-.
      constructor; [|exact Hr]. cbn [doc_fields].
      apply fields_ok_union; [by apply fields_ok_stored | exact Hd].
    + destruct (update_first q (USet f) r) as [[r'|]|]; intros H; try discriminate H.
      injection H as <-. constructor; [exact Hd|]. by apply IH.
  - intros Hc. specialize (Hlen Hc).
    assert (List.length (ids l') = List.length (ids l)) as Hl
      by by rewrite (update_first_ids _ _ _ _ Hup).
    unfold ids in Hl. rewrite !List.length_map in Hl. by rewrite Hl.
Qed.

Lemma delete_first_sub q l l' : delete_first q l = Some l' -> sublist l' l.
Proof.
  revert l'. induction l as [|d r IH]; intros l'; cbn [delete_first]; [discriminate|].
  destruct (matches q d).
  - intros H. injection H as <-. by apply sublist_cons.
  - destruct (delete_first q r) as [r'|]; intros H; [|discriminate H].
    injection H as <-. apply sublist_skip. by apply IH.
Qed.

Lemma filter_sub {A} (f : A -> bool) l : sublist (List.filter f l) l.
Proof.
  induction l as [|x l IH]; cbn [List.filter]; [constructor|].
  destruct (f x); [by apply sublist_skip | by apply sublist_cons].
Qed.

Lemma sublist_ids l' l : sublist l' l -> sublist (ids l') (ids l).
Proof. induction 1; cbn; by constructor. Qed.

Lemma sublist_Forall_ok {A} (P : A -> Prop) l' l : sublist l' l -> Forall P l -> Forall P l'.
Proof.
  induction 1 as [|x l1 l2 Hs IH|x l1 l2 Hs IH]; intros Hall; [constructor| |].
  - apply Forall_cons in Hall as [Hx Hall]. constructor; [exact Hx | by apply IH].
  - apply Forall_cons in Hall as [_ Hall]. by apply IH.
Qed.

Lemma coll_ok_sublist c l l' : sublist l' l -> coll_ok c l -> coll_ok c l'.
Proof.
  intros Hsub (Hnd & Hall & Hlen). split; [|split].
  - exact (sublist_NoDup _ _ Hnd (sublist_ids _ _ Hsub)).
  - by apply (sublist_Forall_ok _ l' l).
  - intros Hc. specialize (Hlen Hc). apply sublist_length in Hsub. lia.
Qed.

Lemma coll_ok_append c l o f :
  c <> c_settings -> (o ∉ ids l) -> fields_ok c f -> coll_ok c l ->
  coll_ok c (l ++ [Doc o f]).
Proof.
  intros Hc Hn Hf (Hnd & Hall & _). split; [|split].
  - rewrite ids_app. apply NoDup_app. split; [exact Hnd|]. split.
    + intros x Hx Hx'. cbn in Hx'. apply elem_of_cons in Hx' as [->|Hx']; [done|].
      by apply elem_of_nil in Hx'.
    + cbn. apply NoDup_singleton.
  - apply Forall_app. split; [exact Hall|]. by constructor.
  - intros Hc'. congruence.
Qed.

Lemma preserves_pure {A} (m : M A) : pure m -> preserves m.
Proof. intros H db Hok. by rewrite H. Qed.

Lemma preserves_bind {A B} (m : M A) (k : A -> M B) :
  preserves m -> (forall a, preserves (k a)) -> preserves (bind m k).
Proof.
  intros Hm Hk db Hok. unfold bind. specialize (Hm db Hok).
  destruct (m db) as [[a|e] db1]; cbn [snd] in *; [by apply Hk | exact Hm].
Qed.

Lemma preserves_update_one c q f : fields_ok c f -> preserves (update_one c q (USet f)).
Proof.
  intros Hf db Hok. unfold update_one.
  destruct (update_encode_error (USet f)); [exact Hok|].
  destruct (update_first q (USet f) (get_coll c db)) as [[l|]|] eqn:E; cbn [snd]; try exact Hok.
  apply db_ok_set; [exact Hok|]. by apply (update_first_set_ok c q f (get_coll c db)).
Qed.

Lemma preserves_insert_one c o d :
  c <> c_settings -> fields_ok c d -> preserves (insert_one c o d).
Proof.
  intros Hc Hd db Hok. unfold insert_one. destruct (encode_error d); [exact Hok|].
  destruct (decide _) as [|Hn]; cbn [snd]; [exact Hok|].
  apply db_ok_set; [exact Hok|].
  apply coll_ok_append; [exact Hc | exact Hn | by apply fields_ok_stored | apply Hok].
Qed.

Lemma pure_update_one_fresh u : pure (update_one_fresh u).
Proof. intros db. unfold update_one_fresh. by destruct (update_encode_error u). Qed.

Lemma preserves_delete_one c q : preserves (delete_one c q).
Proof.
  intros db Hok. unfold delete_one.
  destruct (delete_first q (get_coll c db)) as [l|] eqn:E; cbn [snd]; [|exact Hok].
  apply db_ok_set; [exact Hok|].
  apply (coll_ok_sublist c (get_coll c db)); [by apply (delete_first_sub q) | apply Hok].
Qed.

Lemma preserves_delete_many c q : preserves (delete_many c q).
Proof.
  intros db Hok. unfold delete_many. cbn [snd]. apply db_ok_set; [exact Hok|].
  apply (coll_ok_sublist c (get_coll c db)); [apply filter_sub | apply Hok].
Qed.

Lemma fields_ok_empty c : fields_ok c ∅.
Proof. split; intros _; left; apply lookup_empty. Qed.

Lemma coll_ok_single c o f : fields_ok c f -> coll_ok c [Doc o f].
Proof.
  intros Hf. split; [|split].
  - cbn. apply NoDup_singleton.
  - by constructor.
  - intros _. cbn. lia.
Qed.

Lemma preserves_upsert_set (f : dict) o :
  counter_ok f -> preserves (update_one_upsert c_settings (USet f) o).
Proof.
  intros Hf db Hok.
  assert (fields_ok c_settings f) as Hfo by (split; [intros Hc; discriminate Hc | done]).
  unfold update_one_upsert. destruct (update_encode_error (USet f)); [exact Hok|].
  destruct (update_first [] (USet f) (get_coll c_settings db)) as [[l|]|] eqn:E.
  - cbn [snd]. apply db_ok_set; [exact Hok|].
    apply (update_first_set_ok c_settings [] f (get_coll c_settings db)); [done|done|apply Hok].
  - exact Hok.
  - unfold apply_update. cbn [snd]. apply db_ok_set; [exact Hok|].
    destruct (get_coll c_settings db) as [|s r]; [|discriminate E].
    cbn [app]. apply coll_ok_single.
    apply fields_ok_union; [by apply fields_ok_stored | apply fields_ok_empty].
Qed.

Lemma preserves_inc_data_version e : preserves (inc_data_version e).
Proof.
  intros db Hok. unfold update_one_upsert.
  change (update_encode_error (UInc1 "data_version")) with (@None error). cbv iota.
  destruct (Hok c_settings) as (Hnd & Hall & Hlen).
  destruct (get_coll c_settings db) as [|s r] eqn:Hs.
  - cbn [update_first app].
    destruct (inc_counter_ok ∅) as [z ->]; [left; apply lookup_empty|].
    cbn [snd]. apply db_ok_set; [exact Hok|].
    apply coll_ok_single, fields_ok_settings_insert.
  - rewrite update_first_all.
    apply Forall_cons in Hall as [[_ Hs1] Hr].
    destruct (inc_counter_ok (doc_fields s) (Hs1 eq_refl)) as [z ->].
    cbn [snd]. apply db_ok_set; [exact Hok|].
    split; [exact Hnd|]. split; [|exact Hlen].
    constructor; [apply fields_ok_settings_insert | exact Hr].
Qed.

(** The dicts that the handlers write into menu items keep the flag a
    boolean. *)
Lemma flag_ok_item_update data now :
  flag_ok (<["updated_at" := VDate now]> (drop_None (MenuItemUpdate_dict data))).
Proof.
  unfold flag_ok. rewrite lookup_insert_ne by discriminate.
  assert (MenuItemUpdate_dict data !! "is_published" = Some (opt_bool (mu_is_published data)))
    as Hl.
  { unfold MenuItemUpdate_dict. cbn [list_to_map foldr uncurry].
    rewrite !lookup_insert_ne by discriminate. apply lookup_insert_eq. }
  destruct (mu_is_published data) as [b|]; cbn [opt_bool] in Hl.
  - right. exists b. apply drop_None_lookup_Some; [exact Hl | discriminate].
  - left. apply drop_None_lookup_None. by right.
Qed.

Lemma flag_ok_item_create data now :
  flag_ok (<["created_at" := VDate now]> (MenuItemCreate_dict data)).
Proof.
  right. exists (mc_is_published data). rewrite lookup_insert_ne by discriminate.
  unfold MenuItemCreate_dict. cbn [list_to_map foldr uncurry].
  rewrite !lookup_insert_ne by discriminate. apply lookup_insert_eq.
Qed.

Lemma flag_ok_toggle b now :
  flag_ok (<["is_published" := VBool b]> (<["updated_at" := VDate now]> ∅)).
Proof. right. exists b. apply lookup_insert_eq. Qed.

Lemma flag_ok_order v : flag_ok (<["order" := v]> ∅).
Proof. left. rewrite lookup_insert_ne by discriminate. apply lookup_empty. Qed.

Lemma counter_ok_settings_update data now :
  counter_ok (<["updated_at" := VDate now]> (drop_None (SettingsUpdate_dict data))).
Proof.
  unfold counter_ok. rewrite lookup_insert_ne by discriminate.
  pose proof (SettingsUpdate_dict_version data) as Hl.
  destruct (su_data_version data) as [v|]; cbn [opt_int] in Hl.
  - right. exists v. apply drop_None_lookup_Some; [exact Hl | discriminate].
  - left. apply drop_None_lookup_None. by right.
Qed.

(** [fields_ok] for a collection that is neither the menu items nor the
    settings asks nothing; for the menu items it asks [flag_ok]. *)
Ltac fields_ok_side :=
  split; intros Hc; try discriminate Hc;
  lazymatch goal with
  | |- flag_ok (<["updated_at" := _]> (drop_None _)) => apply flag_ok_item_update
  | |- flag_ok (<["created_at" := _]> _) => apply flag_ok_item_create
  | |- flag_ok (<["is_published" := _]> _) => apply flag_ok_toggle
  | |- flag_ok (<["order" := _]> _) => apply flag_ok_order
  end.

Lemma pure_getitem item k : pure (getitem item k).
Proof. unfold getitem. destruct (item !! k); [apply pure_ret | apply pure_raise]. Qed.

Lemma pure_count_documents c q : pure (count_documents c q).
Proof. by intros db. Qed.

Lemma pure_object_id_json j : pure (object_id_json j).
Proof.
  unfold object_id_json. destruct j; try apply pure_raise; try apply pure_ret.
  apply pure_bind; [apply pure_object_id | intros ?; apply pure_ret].
Qed.

Ltac preserves_step :=
  lazymatch goal with
  | |- preserves (let _ := _ in _) => cbv zeta
  | |- preserves (bind _ _) => apply preserves_bind; [|intros ?]
  | |- preserves (if ?b then _ else _) => destruct b
  | |- preserves (match ?x with _ => _ end) => destruct x
  | |- preserves (ret _) => apply preserves_pure, pure_ret
  | |- preserves (raise _) => apply preserves_pure, pure_raise
  | |- preserves (find_one _ _) => apply preserves_pure, pure_find_one
  | |- preserves (find_sorted _ _ _) => apply preserves_pure, pure_find_sorted
  | |- preserves (find_latest _ _ _) => apply preserves_pure, pure_find_latest
  | |- preserves (object_id _) => apply preserves_pure, pure_object_id
  | |- preserves (doc_getitem _ _) => apply preserves_pure, pure_doc_getitem
  | |- preserves (getitem _ _) => apply preserves_pure, pure_getitem
  | |- preserves (count_documents _ _) => apply preserves_pure, pure_count_documents
  | |- preserves (object_id_json _) => apply preserves_pure, pure_object_id_json
  | |- preserves (update_one_upsert c_settings (UInc1 _) _) => apply preserves_inc_data_version
  | |- preserves (delete_one _ _) => apply preserves_delete_one
  | |- preserves (delete_many _ _) => apply preserves_delete_many
  | |- preserves (update_one _ _ (USet _)) => apply preserves_update_one; fields_ok_side
  | |- preserves (insert_one _ _ _) =>
      apply preserves_insert_one; [discriminate | fields_ok_side]
  end.

Ltac preserves_walk := repeat preserves_step.

Lemma preserves_reorder_loop c orders : c <> c_settings -> preserves (reorder_loop c orders).
Proof.
  intros Hc. induction orders as [|item rest IH]; cbn [reorder_loop].
  - apply preserves_pure, pure_ret.
  - apply preserves_bind; [apply preserves_pure, pure_getitem | intros id].
    apply preserves_bind; [apply preserves_pure, pure_object_id_json | intros oid].
    apply preserves_bind; [apply preserves_pure, pure_getitem | intros order].
    apply preserves_bind; [|intros _; exact IH].
    destruct oid; [|apply preserves_pure, pure_update_one_fresh].
    apply preserves_update_one. split; intros Hc'; [apply flag_ok_order | congruence].
Qed.

Lemma preserves_update_settings data e : preserves (update_settings data e).
Proof.
  unfold update_settings. destruct (decide _); [apply preserves_pure, pure_raise|].
  apply preserves_bind; [|intros ?; preserves_walk].
  apply preserves_upsert_set, counter_ok_settings_update.
Qed.

Lemma preserves_send_email_notification t s b e :
  preserves (send_email_notification t s b e).
Proof. unfold send_email_notification. preserves_walk. Qed.

Lemma preserves_authed {A} ext cr e (h : TokenPayload -> M A) :
  (forall u, preserves (h u)) -> preserves (authed ext cr e h).
Proof.
  intros Hh. unfold authed. apply preserves_bind; [|exact Hh].
  apply preserves_pure, pure_verify_token.
Qed.

Lemma preserves_fmap_M {A B} (f : A -> B) (m : M A) : preserves m -> preserves (fmap_M f m).
Proof.
  intros Hm. unfold fmap_M. apply preserves_bind; [exact Hm|].
  intros a. apply preserves_pure, pure_ret.
Qed.

Lemma preserves_login ext data e : preserves (login ext data e).
Proof. apply preserves_pure. unfold login. pure_walk. Qed.

Lemma preserves_change_password ext o n u : preserves (change_password ext o n u).
Proof. unfold change_password. preserves_walk. Qed.

Lemma preserves_create_category data e : preserves (create_category data e).
Proof. unfold create_category. preserves_walk. Qed.

Lemma preserves_update_category id data e : preserves (update_category id data e).
Proof. unfold update_category. preserves_walk. Qed.

Lemma preserves_delete_category id : preserves (delete_category id).
Proof. unfold delete_category. preserves_walk. Qed.

Lemma preserves_create_menu_item data e : preserves (create_menu_item data e).
Proof. unfold create_menu_item. preserves_walk. Qed.

Lemma preserves_update_menu_item id data e : preserves (update_menu_item id data e).
Proof. unfold update_menu_item. preserves_walk. Qed.

Lemma preserves_delete_menu_item id e : preserves (delete_menu_item id e).
Proof. unfold delete_menu_item. preserves_walk. Qed.

Lemma preserves_toggle_publish_menu_item id e : preserves (toggle_publish_menu_item id e).
Proof. unfold toggle_publish_menu_item. preserves_walk. Qed.

Lemma preserves_reorder_categories os e : preserves (reorder_categories os e).
Proof.
  unfold reorder_categories.
  apply preserves_bind; [by apply preserves_reorder_loop | intros _; preserves_walk].
Qed.

Lemma preserves_reorder_menu_items os e : preserves (reorder_menu_items os e).
Proof.
  unfold reorder_menu_items.
  apply preserves_bind; [by apply preserves_reorder_loop | intros _; preserves_walk].
Qed.

Lemma preserves_create_order ext order e : preserves (create_order ext order e).
Proof.
  unfold create_order.
  apply preserves_bind; [apply preserves_pure, pure_find_one | intros settings].
  apply preserves_bind.
  { apply preserves_insert_one; [discriminate|]. split; intros Hc; discriminate Hc. }
  intros oid. apply preserves_bind; [|intros _; apply preserves_pure, pure_ret].
  destruct (truthy _); [|apply preserves_pure, pure_ret].
  apply preserves_bind; [apply preserves_send_email_notification|].
  intros _. apply preserves_pure, pure_ret.
Qed.

Lemma preserves_send_contact_message ext m e : preserves (send_contact_message ext m e).
Proof.
  unfold send_contact_message.
  apply preserves_bind; [apply preserves_pure, pure_find_one | intros settings].
  apply preserves_bind.
  { apply preserves_insert_one; [discriminate|]. split; intros Hc; discriminate Hc. }
  intros oid. apply preserves_bind; [|intros _; apply preserves_pure, pure_ret].
  destruct (truthy _); [|apply preserves_pure, pure_ret].
  apply preserves_bind; [apply preserves_send_email_notification|].
  intros _. apply preserves_pure, pure_ret.
Qed.

Lemma preserves_update_order_status id st e : preserves (update_order_status id st e).
Proof. unfold update_order_status. preserves_walk. Qed.

Lemma preserves_delete_order id : preserves (delete_order id).
Proof. unfold delete_order. preserves_walk. Qed.

Lemma preserves_mark_message_read id e : preserves (mark_message_read id e).
Proof. unfold mark_message_read. preserves_walk. Qed.

Lemma preserves_delete_message id : preserves (delete_message id).
Proof. unfold delete_message. preserves_walk. Qed.

Lemma preserves_handle ext e r : preserves (handle ext e r).
Proof.
  destruct r; cbn [handle];
    try (apply preserves_authed; intros u); try apply preserves_fmap_M.
  - apply preserves_login.
  - apply preserves_pure, pure_ret.
  - apply preserves_change_password.
  - apply preserves_pure. unfold get_categories. pure_walk.
  - apply preserves_create_category.
  - apply preserves_update_category.
  - apply preserves_delete_category.
  - apply preserves_pure. unfold get_menu_items. pure_walk.
  - apply preserves_pure. unfold get_menu_item. pure_walk.
  - apply preserves_create_menu_item.
  - apply preserves_update_menu_item.
  - apply preserves_delete_menu_item.
  - apply preserves_toggle_publish_menu_item.
  - apply preserves_reorder_categories.
  - apply preserves_reorder_menu_items.
  - apply preserves_pure. unfold get_settings. pure_walk.
  - apply preserves_update_settings.
  - apply preserves_pure. unfold upload_file. pure_walk.
  - apply preserves_pure. unfold get_public_data. pure_walk.
  - apply preserves_pure. unfold get_data_version. pure_walk.
  - apply preserves_create_order.
  - apply preserves_send_contact_message.
  - apply preserves_pure. unfold get_orders. pure_walk.
  - apply preserves_update_order_status.
  - apply preserves_delete_order.
  - apply preserves_pure. unfold get_contact_messages. pure_walk.
  - apply preserves_mark_message_read.
  - apply preserves_delete_message.
  - apply preserves_pure. unfold health. pure_walk.
Qed.

Lemma preserves_insert_many c new_id docs i :
  c <> c_settings -> Forall (fields_ok c) docs -> preserves (insert_many c new_id i docs).
Proof.
  intros Hc Hall. revert i. induction Hall as [|d rest Hd Hrest IH]; intros i;
    cbn [insert_many].
  - apply preserves_pure, pure_ret.
  - apply preserves_bind; [by apply preserves_insert_one | intros _; apply IH].
Qed.

(** The seeding of the settings inserts only into an empty collection. *)
Lemma preserves_seed_settings {A} o (d : dict) (k : M A) :
  counter_ok d -> preserves k ->
  preserves (n <- count_documents c_settings [] ;;
             (if Nat.eqb n 0 then insert_one c_settings o d ;;; ret tt else ret tt) ;;; k).
Proof.
  intros Hd Hk db Hok. unfold bind at 1. unfold count_documents. rewrite find_in_all.
  cbn [fst snd].
  destruct (get_coll c_settings db) as [|s r] eqn:Hs; cbn [List.length Nat.eqb].
  - unfold bind at 1. unfold bind at 1. unfold insert_one at 1. rewrite Hs.
    destruct (encode_error d); [exact Hok|].
    destruct (decide _) as [Hin|_]; [by apply elem_of_nil in Hin|].
    cbn [fst snd app ret]. apply Hk. apply db_ok_set; [exact Hok|]. apply coll_ok_single.
    apply fields_ok_stored. split; [intros Hc; discriminate Hc | done].
  - unfold bind at 1. cbn [ret fst snd]. by apply Hk.
Qed.

Lemma default_settings_counter now : counter_ok (default_settings now).
Proof.
  left. unfold default_settings. cbn [list_to_map foldr uncurry].
  rewrite !lookup_insert_ne by discriminate. apply lookup_empty.
Qed.

Lemma preserves_init_default_data ext b : preserves (init_default_data ext b).
Proof.
  unfold init_default_data.
  apply preserves_bind; [apply preserves_pure, pure_count_documents | intros n1].
  apply preserves_bind.
  { destruct (Nat.eqb n1 0); [|apply preserves_pure, pure_ret].
    apply preserves_bind; [|intros ?; apply preserves_pure, pure_ret].
    apply preserves_insert_one; [discriminate|]. split; intros Hc; discriminate Hc. }
  intros _. apply preserves_seed_settings; [apply default_settings_counter|].
  apply preserves_bind; [apply preserves_pure, pure_count_documents | intros n3].
  destruct (Nat.eqb n3 0); [|apply preserves_pure, pure_ret].
  apply preserves_insert_many; [discriminate|].
  unfold default_categories. repeat constructor; intros Hc; discriminate Hc.
Qed.

Lemma db_ok_empty : db_ok empty_db.
Proof.
  intros c. destruct c; (split; [apply NoDup_nil_2 | split; [constructor | intros _; cbn; lia]]).
Qed.

Lemma db_ok_consequences db :
  db_ok db ->
  NoDup (ids (categories db)) /\ NoDup (ids (menu_items db)) /\
  (forall d, d ∈ menu_items db -> flag_wf d) /\
  version_wf db /\ (List.length (settings db) <= 1)%nat.
Proof.
  intros Hok.
  destruct (Hok c_categories) as (Hc & _ & _).
  destruct (Hok c_menu_items) as (Hm & Hflags & _).
  destruct (Hok c_settings) as (_ & Hs & Hlen).
  split; [exact Hc|]. split; [exact Hm|]. split; [|split].
  - intros d Hd. rewrite Forall_forall in Hflags. by apply (Hflags d Hd).
  - unfold version_wf, stored_version, dict_get. cbn [get_coll] in Hs.
    destruct (settings db) as [|s r]; [by exists 1%Z|].
    apply Forall_cons in Hs as [[_ Hs] _].
    destruct (Hs eq_refl) as [Hn|[v Hv]].
    + rewrite Hn. by exists 1%Z.
    + rewrite Hv. by exists v.
  - by apply Hlen.
Qed.

(** X14.  Every request keeps the stored data in good order, whether it
    returns or raises: identifiers stay unique within each collection, the
    settings stay at most one document whose [data_version] is absent or an
    integer, and [is_published] stays absent or a boolean in every menu
    item. *)
Theorem requests_keep_data_in_order (ext : External) (e : Env) (r : request) (db : DB) :
  db_ok db ->
  db_ok (snd (handle ext e r db)) /\
  NoDup (ids (categories (snd (handle ext e r db)))) /\
  NoDup (ids (menu_items (snd (handle ext e r db)))) /\
  (forall d, d ∈ menu_items (snd (handle ext e r db)) -> flag_wf d) /\
  version_wf (snd (handle ext e r db)) /\
  (List.length (settings (snd (handle ext e r db))) <= 1)%nat.
Proof.
  intros Hok. pose proof (preserves_handle ext e r db Hok) as Hok'.
  split; [exact Hok'|]. by apply db_ok_consequences.
Qed.

(** X15.  The first boot leaves the data in good order, and so is every
    database that the server reaches from it: on all of them the unique
    identifiers, the well-formed counter and the boolean flags that the
    properties above ask for do hold. *)
Theorem reachable_data_in_order (ext : External) (db : DB) :
  reachable ext db ->
  db_ok db /\
  NoDup (ids (categories db)) /\ NoDup (ids (menu_items db)) /\
  (forall d, d ∈ menu_items db -> flag_wf d) /\
  version_wf db /\ (List.length (settings db) <= 1)%nat.
Proof.
  intros Hr. assert (db_ok db) as Hok.
  { induction Hr as [b|e r db Hr IH].
    - apply preserves_init_default_data, db_ok_empty.
    - by apply preserves_handle. }
  split; [exact Hok|]. by apply db_ok_consequences.
Qed.

Lemma requests_keep_data_in_order_witness :
  db_ok Demo.db /\
  db_ok (snd (handle Demo.ext Demo.env
                (PUT_menu_items_toggle_publish Demo.id_kebab "a.bearer.token") Demo.db)) /\
  version_wf (snd (handle Demo.ext Demo.env
                     (PUT_menu_items_toggle_publish Demo.id_kebab "a.bearer.token") Demo.db)).
Proof.
  assert (db_ok Demo.db) as Hok.
  { intros c. destruct c; cbn [get_coll Demo.db admins categories menu_items settings orders
                                contact_messages notifications];
      (split; [by_compute | split; [|intros Hc; first [discriminate Hc | cbn; lia]]]);
      repeat (apply Forall_cons; split); try apply Forall_nil;
      (split; intros Hc; try discriminate Hc);
      first [ left; reflexivity | right; eexists; reflexivity ]. }
  split; [exact Hok|].
  destruct (requests_keep_data_in_order Demo.ext Demo.env
              (PUT_menu_items_toggle_publish Demo.id_kebab "a.bearer.token") Demo.db Hok)
    as (H1 & _ & _ & _ & H2 & _).
  exact (conj H1 H2).
Defined.

Lemma reachable_data_in_order_witness :
  reachable Demo.ext Demo.booted /\
  List.length (categories Demo.booted) = 7%nat /\
  NoDup (ids (categories Demo.booted)) /\ version_wf Demo.booted /\
  (List.length (settings Demo.booted) <= 1)%nat.
Proof.
  assert (reachable Demo.ext Demo.booted) as Hr by apply reach_boot.
  split; [exact Hr|]. split; [vm_compute; reflexivity|].
  destruct (reachable_data_in_order Demo.ext Demo.booted Hr) as (_ & H1 & _ & _ & H2 & H3).
  exact (conj H1 (conj H2 H3)).
Defined.

(** ** Integers that BSON cannot hold *)

Lemma fields_of_list (P : string * value -> Prop) (l : list (string * value)) k0 v0 :
  P (k0, v0) -> Forall P l ->
  forall k v, <[k0 := v0]> (list_to_map l : dict) !! k = Some v -> P (k, v).
Proof.
  intros H0 Hl k v H. destruct (decide (k0 = k)) as [<-|Hne].
  - rewrite lookup_insert_eq in H. by injection H as <-.
  - rewrite lookup_insert_ne in H by done.
    apply elem_of_list_to_map_2 in H. rewrite Forall_forall in Hl. by apply Hl.
Qed.

Lemma overflow_SettingsUpdate su now z :
  su_data_version su = Some z -> int64 z = false ->
  encode_error (<["updated_at" := VDate now]> (drop_None (SettingsUpdate_dict su)))
    = Some OverflowError.
Proof.
  intros Hz Hbig. apply encode_error_overflow.
  - unfold SettingsUpdate_dict.
    apply (fields_of_stamped
             (fun kv => field_encode_error kv = None \/
                        field_encode_error kv = Some OverflowError)); [by left|].
    encode_fields.
  - exists "data_version", (VInt z). split.
    + rewrite lookup_insert_ne by discriminate.
      apply drop_None_lookup_Some; [|discriminate].
      rewrite SettingsUpdate_dict_version, Hz. reflexivity.
    + pose proof (field_opt_int_overflow "data_version" z eq_refl Hbig) as F.
      cbn [opt_int] in F. rewrite F. discriminate.
Qed.

Lemma overflow_CategoryCreate data now :
  int64 (cc_order data) = false ->
  encode_error (<["created_at" := VDate now]> (CategoryCreate_dict data)) = Some OverflowError.
Proof.
  intros Hbig.
  pose proof (field_opt_int_overflow "order" (cc_order data) eq_refl Hbig) as F.
  cbn [opt_int] in F.
  apply encode_error_overflow.
  - unfold CategoryCreate_dict.
    apply (fields_of_list
             (fun kv => field_encode_error kv = None \/
                        field_encode_error kv = Some OverflowError)); [by left|].
    repeat first [ apply List.Forall_nil | apply List.Forall_cons ];
      first [ by left | by right ].
  - exists "order", (VInt (cc_order data)). split; [reflexivity|].
    rewrite F. discriminate.
Qed.

Lemma reorder_loop_overflow c item rest db id oid z :
  item !! "id" = Some (JStr id) -> ObjectId id = Some oid ->
  item !! "order" = Some (JInt z) -> int64 z = false ->
  reorder_loop c (item :: rest) db = (Raise OverflowError, db).
Proof.
  intros Hid Ho Hord Hbig. cbn [reorder_loop]. unfold getitem. rewrite Hid, Hord.
  unfold bind at 1. unfold ret at 1. unfold bind at 1. unfold object_id_json.
  rewrite (bind_Ok _ _ _ _ _ (object_id_Some _ _ _ Ho)). unfold ret at 1.
  unfold bind at 1. unfold ret at 1.
  assert (encode_error (<["order" := value_of_json (JInt z)]> ∅) = Some OverflowError) as He.
  { apply encode_error_overflow.
    - intros k v H. destruct (decide ("order" = k)) as [<-|Hne].
      + rewrite lookup_insert_eq in H. injection H as <-. right.
        exact (field_opt_int_overflow "order" z eq_refl Hbig).
      + rewrite lookup_insert_ne in H by done. by rewrite lookup_empty in H.
    - exists "order", (VInt z). split; [apply lookup_insert_eq|].
      pose proof (field_opt_int_overflow "order" z eq_refl Hbig) as F.
      cbn [opt_int] in F. rewrite F. discriminate. }
  by rewrite (bind_Raise _ _ _ _ _
                (update_one_unencodable c (by_id oid) (USet _) db _ He)).
Qed.

(** X16.  An integer that does not fit 8 bytes ([order] or [data_version],
    in a payload that pydantic accepts) makes pymongo raise [OverflowError]
    while it encodes the document: the request fails before anything is
    written, whether the identifier is stored or not (so an update under an
    unknown identifier is not answered with 404 then), and a reorder stops at
    the entry without the increment of the data version. *)
Theorem integers_beyond_8_bytes (id : string) (oid : ObjectId_t) (z : Z) (e : Env) (db : DB) :
  ObjectId id = Some oid -> int64 z = false ->
  (forall cu, cu_order cu = Some z ->
     update_category id cu e db = (Raise OverflowError, db)) /\
  (forall mu, mu_order mu = Some z ->
     update_menu_item id mu e db = (Raise OverflowError, db)) /\
  (forall su, su_data_version su = Some z ->
     update_settings su e db = (Raise OverflowError, db)) /\
  (forall data, cc_order data = z ->
     create_category data e db = (Raise OverflowError, db)) /\
  (forall item rest, item !! "id" = Some (JStr id) -> item !! "order" = Some (JInt z) ->
     reorder_categories (item :: rest) e db = (Raise OverflowError, db) /\
     reorder_menu_items (item :: rest) e db = (Raise OverflowError, db)).
Proof.
  intros Ho Hbig.
  split; [intros cu Hz; by apply (update_category_overflow id oid cu z)|].
  split; [intros mu Hz; by apply (update_menu_item_overflow id oid mu z)|].
  split; [|split].
  - intros su Hz. unfold update_settings.
    destruct (decide _) as [E|_].
    { exfalso. refine (drop_None_nonempty _ _ E). exists "data_version", (VInt z).
      split; [|discriminate]. rewrite SettingsUpdate_dict_version, Hz. reflexivity. }
    unfold bind at 1. unfold update_one_upsert. cbn [update_encode_error].
    by rewrite (overflow_SettingsUpdate su (utcnow e) z Hz Hbig).
  - intros data <-. unfold create_category, bind, insert_one.
    by rewrite (overflow_CategoryCreate data (utcnow e) Hbig).
  - intros item rest Hid Hord.
    pose proof (reorder_loop_overflow c_categories item rest db id oid z Hid Ho Hord Hbig)
      as Hc.
    pose proof (reorder_loop_overflow c_menu_items item rest db id oid z Hid Ho Hord Hbig)
      as Hm.
    unfold reorder_categories, reorder_menu_items.
    by rewrite (bind_Raise _ _ _ _ _ Hc), (bind_Raise _ _ _ _ _ Hm).
Qed.

(** [{order: 2^63}] on the demo database, for a stored and for an unknown
    identifier, and a reorder that gives the grill that order. *)
Lemma integers_beyond_8_bytes_witness :
  int64 9223372036854775807 = true /\ int64 9223372036854775808 = false /\
  update_category Demo.id_grill Demo.far_category Demo.env Demo.db
    = (Raise OverflowError, Demo.db) /\
  update_category Demo.id_ghost Demo.far_category Demo.env Demo.db
    = (Raise OverflowError, Demo.db) /\
  reorder_categories
    [ <["id" := JStr Demo.id_grill]> (<["order" := JInt 9223372036854775808]> ∅) ]
    Demo.env Demo.db = (Raise OverflowError, Demo.db).
Proof.
  assert (int64 9223372036854775808 = false) as Hbig by reflexivity.
  split; [reflexivity|]. split; [exact Hbig|].
  destruct (integers_beyond_8_bytes Demo.id_grill (Oid Demo.id_grill) 9223372036854775808
              Demo.env Demo.db ltac:(vm_compute; reflexivity) Hbig) as (H1 & _ & _ & _ & H5).
  destruct (integers_beyond_8_bytes Demo.id_ghost (Oid Demo.id_ghost) 9223372036854775808
              Demo.env Demo.db ltac:(vm_compute; reflexivity) Hbig) as (H1' & _).
  split; [exact (H1 Demo.far_category eq_refl)|].
  split; [exact (H1' Demo.far_category eq_refl)|].
  exact (proj1 (H5 (<["id" := JStr Demo.id_grill]> (<["order" := JInt 9223372036854775808]> ∅))
                   [] eq_refl eq_refl)).
Defined.
